(** * ImageViewer (src/ts/ImageViewer.ts)

    A shallow embedding of the viewer lifecycle of the Pixiv batch
    downloader's [ImageViewer] class: configuration, the asynchronous
    [createImageList] with its mount polling, the widget event handlers
    installed by [configureViewer], the key handlers of [bindEvents],
    [handleCenter], [download], and the toolbar code ([addBtn],
    [toggleBottomBtns], the clean-up of [init]).

    The class mutates its own fields and ambient browser state and calls
    into collaborators (the Viewer widget, toast, EVT, API, ...).  The
    fields and the ambient state are a record threaded through a small
    state-and-exception monad; every call into a collaborator is appended
    to a chronological log of effects.  An [await] splits a method in
    two: the part up to the call, and the part run when the call has
    settled.  For [createImageList] the document is what [querySelector]
    answers to the configured selector; it is an argument, since the host
    page changes it between calls.  The toolbar code queries by class and
    by id and changes what it finds: for it the page is a list of
    elements (module [Dom]), kept in the state. *)

From Stdlib Require Import ZArith QArith List String Ascii Bool Lia.
From Stdlib Require Import DecimalString DecimalNat DecimalFacts.
Import ListNotations.

Local Open Scope string_scope.
Local Open Scope Z_scope.

(** ** The pieces of JavaScript the class relies on *)

Module JS.

(** [String(n)] for a non-negative integer, as in ['p' + index]. *)
Definition number_to_string (n : nat) : string :=
  NilZero.string_of_uint (Nat.to_uint n).

Fixpoint drop (n : nat) (s : string) : string :=
  match n, s with
  | O, _ => s
  | S n', String _ s' => drop n' s'
  | S _, EmptyString => EmptyString
  end.

(** The text before and after the leftmost occurrence of [pat] in [s]. *)
Fixpoint find_first (pat s : string) : option (string * string) :=
  if String.prefix pat s then Some (EmptyString, drop (String.length pat) s)
  else match s with
       | EmptyString => None
       | String c s' =>
           match find_first pat s' with
           | Some (a, b) => Some (String c a, b)
           | None => None
           end
       end.

(** [s.replace(pat, rep)] with a string pattern: only the leftmost
    occurrence is replaced.  ([rep] is taken literally; the callers pass
    ['p' + index], which holds no [$] pattern.) *)
Definition replace (s pat rep : string) : string :=
  match find_first pat s with
  | Some (a, b) => a ++ rep ++ b
  | None => s
  end.

(** A string is falsy exactly when it is empty. *)
Definition truthy (s : string) : bool := negb (String.eqb s EmptyString).

(** [a || b] on strings. *)
Definition or (a b : string) : string := if truthy a then a else b.

(** [html.join('')] is [String.concat] with the empty separator. *)
Definition join (sep : string) (l : list string) : string := String.concat sep l.

(** The double-quote character of the markup templates. *)
Definition dquote : string := String (ascii_of_nat 34) EmptyString.

End JS.

(** ** Data model *)

Inductive InsertPosition := beforebegin | afterbegin | beforeend | afterend.

Inductive ImageSize := Original | Regular | Small.

Record Config := {
  workId : string;
  showImageList : bool;
  imageListId : string;
  insertTarget : string;
  insertPostion : InsertPosition;
  imageNumber : Z;
  imageSize : ImageSize;
  showDownloadBtn : bool;
  showBookmarkBtn : bool;
  autoStart : bool;
  showLoading : bool
}.

Record ConfigOptional := {
  o_workId : option string;
  o_showImageList : option bool;
  o_imageListId : option string;
  o_insertTarget : option string;
  o_insertPostion : option InsertPosition;
  o_imageNumber : option Z;
  o_imageSize : option ImageSize;
  o_showDownloadBtn : option bool;
  o_showBookmarkBtn : option bool;
  o_autoStart : option bool;
  o_showLoading : option bool
}.

Definition no_options : ConfigOptional :=
  {| o_workId := None; o_showImageList := None; o_imageListId := None;
     o_insertTarget := None; o_insertPostion := None; o_imageNumber := None;
     o_imageSize := None; o_showDownloadBtn := None; o_showBookmarkBtn := None;
     o_autoStart := None; o_showLoading := None |}.

(** The default configuration.  [Tools.getIllustId()] is not part of this
    file of the repository; its result is the argument. *)
Definition default_cfg (illustId : string) : Config :=
  {| workId := illustId;
     showImageList := false;
     imageListId := "";
     insertTarget := "";
     insertPostion := beforeend;
     imageNumber := 2;
     imageSize := Original;
     showDownloadBtn := true;
     showBookmarkBtn := true;
     autoStart := false;
     showLoading := false |}.

Definition over {A : Type} (d : A) (o : option A) : A :=
  match o with Some a => a | None => d end.

(** [Object.assign(this.cfg, cfg)] in the constructor. *)
Definition assign (c : Config) (o : ConfigOptional) : Config :=
  {| workId := over (workId c) (o_workId o);
     showImageList := over (showImageList c) (o_showImageList o);
     imageListId := over (imageListId c) (o_imageListId o);
     insertTarget := over (insertTarget c) (o_insertTarget o);
     insertPostion := over (insertPostion c) (o_insertPostion o);
     imageNumber := over (imageNumber c) (o_imageNumber o);
     imageSize := over (imageSize c) (o_imageSize o);
     showDownloadBtn := over (showDownloadBtn c) (o_showDownloadBtn o);
     showBookmarkBtn := over (showBookmarkBtn c) (o_showBookmarkBtn o);
     autoStart := over (autoStart c) (o_autoStart o);
     showLoading := over (showLoading c) (o_showLoading o) |}.

(** The part of [ArtworkData] the viewer reads. *)
Record Urls := {
  thumb : string;
  small : string;
  regular : string;
  original : string
}.

Record Body := {
  illustType : Z;
  pageCount : Z;
  urls : Urls
}.

Record ArtworkData := { body : Body }.

(** [body.urls[this.cfg.imageSize]] *)
Definition url_of_size (u : Urls) (sz : ImageSize) : string :=
  match sz with
  | Original => original u
  | Regular => regular u
  | Small => small u
  end.

(** The document, as far as [querySelector] sees it: the first element a
    selector matches, if there is one. *)
Definition Element := string.

Definition Document := string -> option Element.

(** The outcome of an awaited call into a collaborator. *)
Inductive Response (A : Type) :=
| Fulfilled (a : A)
| Rejected.
Arguments Fulfilled {A} a.
Arguments Rejected {A}.

(** Keys of the localized messages handed to [lang.transl]. *)
Inductive LangKey :=
| msg_task_not_finished
| msg_download_request_sent
| msg_bookmark
| msg_bookmarked.

(** One entry of the list carried by the [crawlIdList] event. *)
Record IdData := { id : string; type : string }.

(** Calls into collaborators and the browser, in the order they happen. *)
Inductive Effect :=
| setTimeout_createImageList (ms : Z)
| setTimeout_zoom (ms : Z)
| API_getArtworkData (work : string)
| loading_show_set (b : bool)
| theme_register
| insertAdjacentElement (target : Element) (pos : InsertPosition)
| new_Viewer
| new_Image (src : string)
| viewer_show
| viewer_zoomTo (ratio : Z)
| viewer_move (x y : Q)
| viewer_prev (loop : bool)
| viewer_next (loop : bool)
| requestFullscreen
| exitFullscreen
| window_scrollTo (x y : Q)
| stopPropagation
| oneToOne_bind
| console_error (msg : string)
| toast_error (k : LangKey)
| toast_show (k : LangKey)
| toast_success (k : LangKey)
| EVT_fire (name : string) (data : list IdData)
| Bookmark_add (work kind : string) (data : option ArtworkData).

(** [this.viewerWarpper] with its [ul] child. *)
Record Wrapper := {
  wr_id : string;
  wr_display : string;
  ul_innerHTML : string
}.

(** What the closures handed to [new Viewer] captured. *)
Record Viewer := {
  v_pageCount : Z;
  v_firstBigImgURL : string
}.

(** ** The document the toolbar code works on

    [addBtn], [toggleBottomBtns] and the clean-up in [init] query and
    change the page.  A document is the list of its elements in document
    order (the order of a pre-order walk), each with its nesting depth:
    the descendants of an element are the elements that follow it for as
    long as they are deeper than it.  [querySelector] answers with the
    position of the first match, [querySelectorAll] with the positions of
    all matches, in that order. *)

Module Dom.

Record Node := {
  depth : nat;
  tag : string;
  ident : string;
  classes : list string;
  style_display : string
}.

Definition Doc := list Node.

(** The selectors the class uses are ['.' + class] and ['#' + id]. *)
Inductive Selector := by_class (c : string) | by_id (i : string).

Definition has_class (c : string) (n : Node) : bool :=
  existsb (String.eqb c) (classes n).

Definition matches (sel : Selector) (n : Node) : bool :=
  match sel with
  | by_class c => has_class c n
  | by_id i => String.eqb i (ident n)
  end.

(** Position of the first element of [l] that [p] holds of, the head of
    [l] being at position [k]. *)
Fixpoint first_from (p : Node -> bool) (k : nat) (l : Doc) : option nat :=
  match l with
  | [] => None
  | n :: l' => if p n then Some k else first_from p (S k) l'
  end.

Fixpoint all_from (p : Node -> bool) (k : nat) (l : Doc) : list nat :=
  match l with
  | [] => []
  | n :: l' => if p n then k :: all_from p (S k) l' else all_from p (S k) l'
  end.

Definition querySelector (sel : Selector) (doc : Doc) : option nat :=
  first_from (matches sel) 0 doc.

Definition querySelectorAll (sel : Selector) (doc : Doc) : list nat :=
  all_from (matches sel) 0 doc.

Fixpoint take_deeper (d : nat) (l : Doc) : Doc :=
  match l with
  | [] => []
  | n :: l' => if (d <? depth n)%nat then n :: take_deeper d l' else []
  end.

Definition descendants (k : nat) (doc : Doc) : Doc :=
  match nth_error doc k with
  | Some n => take_deeper (depth n) (skipn (S k) doc)
  | None => []
  end.

(** [element.querySelector(sel)], [element] being at position [k]. *)
Definition querySelector_in (k : nat) (sel : Selector) (doc : Doc) : option nat :=
  first_from (matches sel) (S k) (descendants k doc).

Fixpoint update (k : nat) (f : Node -> Node) (doc : Doc) : Doc :=
  match doc, k with
  | [], _ => []
  | n :: l, O => f n :: l
  | n :: l, S k' => n :: update k' f l
  end.

(** [element.style.display = v] *)
Definition with_display (v : string) (n : Node) : Node :=
  {| depth := depth n; tag := tag n; ident := ident n; classes := classes n;
     style_display := v |}.

(** [element.classList.remove(c)] *)
Definition without_class (c : string) (n : Node) : Node :=
  {| depth := depth n; tag := tag n; ident := ident n;
     classes := filter (fun x => negb (String.eqb c x)) (classes n);
     style_display := style_display n |}.

Definition at_depth (d : nat) (n : Node) : Node :=
  {| depth := d; tag := tag n; ident := ident n; classes := classes n;
     style_display := style_display n |}.

(** The position just past the element at [k] and its descendants. *)
Definition subtree_end (k : nat) (doc : Doc) : nat :=
  S k + List.length (descendants k doc).

(** [element.insertAdjacentElement('afterend', btn)] for a fresh element
    [btn] without element children: it becomes the next sibling. *)
Definition insert_afterend (k : nat) (btn : Node) (doc : Doc) : Doc :=
  match nth_error doc k with
  | Some n =>
      (firstn (subtree_end k doc) doc
       ++ at_depth (depth n) btn :: skipn (subtree_end k doc) doc)%list
  | None => doc
  end.


(** How a piece of toolbar code ends: normally, leaving a document and
    what it wrote with [console.error], or with the [TypeError] of a
    property read on [null] or [undefined]. *)
Inductive Completion :=
| Returned (doc : Doc) (console : list string)
| TypeError.

Definition and_then (c : Completion) (k : Doc -> Completion) : Completion :=
  match c with
  | Returned doc out =>
      match k doc with
      | Returned doc' out' => Returned doc' (out ++ out')
      | TypeError => TypeError
      end
  | TypeError => TypeError
  end.

Fixpoint last_index (l : list nat) : option nat :=
  match l with
  | [] => None
  | [k] => Some k
  | _ :: l' => last_index l'
  end.

Definition viewerWarpperFlag : string := "viewerWarpperFlag".

Definition addBtnClass : string := "viewer-add-btn".

(** [addBtn]: the button goes right after the 1:1 control of the last
    viewer container, unless that container already holds an element with
    the button's id.  (['#' + btn.id] selects by id for an id that is a
    CSS identifier, as the two ids the class uses are.) *)
Definition addBtn (btn : Node) (doc : Doc) : Completion :=
  let allContainer := querySelectorAll (by_class "viewer-container") doc in
  match last_index allContainer with
  | None => TypeError
  | Some last =>
      match querySelector_in last (by_id (ident btn)) doc with
      | Some _ => Returned doc []
      | None =>
          match querySelector_in last (by_class "viewer-one-to-one") doc with
          | Some one2one => Returned (insert_afterend one2one btn doc) []
          | None => Returned doc ["Add btn failed"]
          end
      end
  end.

(** The [li] elements [addDownloadBtn] and [addBookmarkBtn] create; what
    they carry besides (role, title, text, font size) plays no part in a
    query. *)
Definition download_li : Node :=
  {| depth := 0; tag := "li"; ident := "imageViewerDownloadBtn";
     classes := [addBtnClass]; style_display := "" |}.

Definition bookmark_li : Node :=
  {| depth := 0; tag := "li"; ident := "imageViewerBookmarkBtn";
     classes := [addBtnClass]; style_display := "" |}.

Definition set_display (v : string) (el : option nat) (doc : Doc) : Doc :=
  match el with
  | Some k => update k (with_display v) doc
  | None => doc
  end.

Definition toggleBottomBtns (show : bool) (doc : Doc) : Completion :=
  match querySelector (by_class "viewer-container") doc with
  | None => TypeError
  | Some container =>
      let doc := update container (without_class "black-background") doc in
      let close := querySelector (by_class "viewer-close") doc in
      let oneToOne := querySelector (by_class "viewer-one-to-one") doc in
      let navbar := querySelector (by_class "viewer-navbar") doc in
      let addBtns := querySelectorAll (by_class addBtnClass) doc in
      let v := if show then "block" else "none" in
      Returned
        (fold_left (fun d el => set_display v el d)
           ([close; oneToOne; navbar] ++ map Some addBtns) doc)
        []
  end.

(** The toolbar part of the [shown] listener. *)
Definition shown_toolbar (c : Config) (doc : Doc) : Completion :=
  and_then (if showDownloadBtn c then addBtn download_li doc else Returned doc [])
    (fun doc =>
       and_then (if showBookmarkBtn c then addBtn bookmark_li doc else Returned doc [])
         (toggleBottomBtns true)).



(** *** For the statements *)

Definition ident_start (c : ascii) : bool :=
  let n := nat_of_ascii c in
  ((65 <=? n) && (n <=? 90) || (97 <=? n) && (n <=? 122) || (n =? 95))%nat.

Definition ident_char (c : ascii) : bool :=
  let n := nat_of_ascii c in
  ident_start c || ((48 <=? n) && (n <=? 57) || (n =? 45))%nat.

Fixpoint all_chars (p : ascii -> bool) (s : string) : bool :=
  match s with
  | EmptyString => true
  | String c s' => p c && all_chars p s'
  end.

(** Ids made of letters, digits, [-] and [_] that start with a letter or
    [_]: for these ['#' + id] is the selector of the elements with that
    id. *)
Definition is_css_ident (s : string) : bool :=
  match s with
  | EmptyString => false
  | String c s' => ident_start c && all_chars ident_char s'
  end.

(** The last viewer container holds an element with the id [i]. *)
Definition holds_id (i : string) (doc : Doc) : Prop :=
  exists last,
    last_index (querySelectorAll (by_class "viewer-container") doc) = Some last
    /\ querySelector_in last (by_id i) doc <> None.

Definition deeper (d : nat) (n : Node) : Prop := (d < depth n)%nat.

(** The queries of [toggleBottomBtns] and [addBtn] do not see what
    [toggleBottomBtns] changes. *)
Definition blind_to_toggle (sel : Selector) : Prop :=
  sel <> by_class "black-background".

(** [F] applied to every element, by position; the head of [l] is at
    position [k]. *)
Fixpoint pointwise (F : nat -> Node -> Node) (k : nat) (l : Doc) : Doc :=
  match l with
  | [] => []
  | n :: l' => F k n :: pointwise F (S k) l'
  end.

Definition is_at (i : nat) (el : option nat) : bool :=
  match el with
  | Some k => Nat.eqb i k
  | None => false
  end.

(** The elements whose display [toggleBottomBtns] sets. *)
Definition is_target (doc : Doc) (i : nat) (n : Node) : bool :=
  is_at i (querySelector (by_class "viewer-close") doc)
  || is_at i (querySelector (by_class "viewer-one-to-one") doc)
  || is_at i (querySelector (by_class "viewer-navbar") doc)
  || has_class addBtnClass n.

Definition toggled (show : bool) (doc : Doc) (i : nat) (n : Node) : Node :=
  let n := if is_at i (querySelector (by_class "viewer-container") doc)
           then without_class "black-background" n else n in
  if is_target doc i n then with_display (if show then "block" else "none") n else n.


(** A viewer container with its toolbar, as the widget builds it. *)
Definition el (d : nat) (t i : string) (cs : list string) : Node :=
  {| depth := d; tag := t; ident := i; classes := cs; style_display := "" |}.

Definition sample_page : Doc :=
  [ el 0 "body" "" [];
    el 1 "div" "root" [];
    el 1 "div" "viewerList" [viewerWarpperFlag];
    el 2 "ul" "" [];
    el 1 "div" "" ["viewer-container"; "black-background"];
    el 2 "div" "" ["viewer-canvas"];
    el 2 "div" "" ["viewer-footer"];
    el 3 "div" "" ["viewer-toolbar"];
    el 4 "ul" "" [];
    el 5 "li" "" ["viewer-one-to-one"];
    el 5 "li" "" ["viewer-prev"];
    el 5 "li" "" ["viewer-next"];
    el 3 "div" "" ["viewer-navbar"];
    el 2 "div" "" ["viewer-button"; "viewer-close"] ].

End Dom.

(** The instance fields, the ambient state they are mixed with
    ([states], [loading], the window, the page) and the effect log. *)
Record St := {
  cfg : Config;
  show : bool;
  scrollX : Q;
  scrollY : Q;
  workData : option ArtworkData;
  myViewer : option Viewer;
  viewerWarpper : Wrapper;
  window_scroll : Q * Q;
  fullscreenElement : bool;
  innerHeight : Z;
  image_height : Z;
  states_busy : bool;
  states_downloadFromViewer : bool;
  loading_show : bool;
  trace : list Effect;
  page : Dom.Doc
}.

Definition set_show (b : bool) (s : St) : St :=
  {| cfg := cfg s; show := b; scrollX := scrollX s; scrollY := scrollY s;
     workData := workData s; myViewer := myViewer s;
     viewerWarpper := viewerWarpper s; window_scroll := window_scroll s;
     fullscreenElement := fullscreenElement s; innerHeight := innerHeight s;
     image_height := image_height s; states_busy := states_busy s;
     states_downloadFromViewer := states_downloadFromViewer s;
     loading_show := loading_show s; trace := trace s; page := page s |}.

Definition set_scrollXY (x y : Q) (s : St) : St :=
  {| cfg := cfg s; show := show s; scrollX := x; scrollY := y;
     workData := workData s; myViewer := myViewer s;
     viewerWarpper := viewerWarpper s; window_scroll := window_scroll s;
     fullscreenElement := fullscreenElement s; innerHeight := innerHeight s;
     image_height := image_height s; states_busy := states_busy s;
     states_downloadFromViewer := states_downloadFromViewer s;
     loading_show := loading_show s; trace := trace s; page := page s |}.

Definition set_workData (d : option ArtworkData) (s : St) : St :=
  {| cfg := cfg s; show := show s; scrollX := scrollX s; scrollY := scrollY s;
     workData := d; myViewer := myViewer s;
     viewerWarpper := viewerWarpper s; window_scroll := window_scroll s;
     fullscreenElement := fullscreenElement s; innerHeight := innerHeight s;
     image_height := image_height s; states_busy := states_busy s;
     states_downloadFromViewer := states_downloadFromViewer s;
     loading_show := loading_show s; trace := trace s; page := page s |}.

Definition set_myViewer (v : option Viewer) (s : St) : St :=
  {| cfg := cfg s; show := show s; scrollX := scrollX s; scrollY := scrollY s;
     workData := workData s; myViewer := v;
     viewerWarpper := viewerWarpper s; window_scroll := window_scroll s;
     fullscreenElement := fullscreenElement s; innerHeight := innerHeight s;
     image_height := image_height s; states_busy := states_busy s;
     states_downloadFromViewer := states_downloadFromViewer s;
     loading_show := loading_show s; trace := trace s; page := page s |}.

Definition set_viewerWarpper (w : Wrapper) (s : St) : St :=
  {| cfg := cfg s; show := show s; scrollX := scrollX s; scrollY := scrollY s;
     workData := workData s; myViewer := myViewer s;
     viewerWarpper := w; window_scroll := window_scroll s;
     fullscreenElement := fullscreenElement s; innerHeight := innerHeight s;
     image_height := image_height s; states_busy := states_busy s;
     states_downloadFromViewer := states_downloadFromViewer s;
     loading_show := loading_show s; trace := trace s; page := page s |}.

Definition set_window_scroll (p : Q * Q) (s : St) : St :=
  {| cfg := cfg s; show := show s; scrollX := scrollX s; scrollY := scrollY s;
     workData := workData s; myViewer := myViewer s;
     viewerWarpper := viewerWarpper s; window_scroll := p;
     fullscreenElement := fullscreenElement s; innerHeight := innerHeight s;
     image_height := image_height s; states_busy := states_busy s;
     states_downloadFromViewer := states_downloadFromViewer s;
     loading_show := loading_show s; trace := trace s; page := page s |}.

Definition set_fullscreenElement (b : bool) (s : St) : St :=
  {| cfg := cfg s; show := show s; scrollX := scrollX s; scrollY := scrollY s;
     workData := workData s; myViewer := myViewer s;
     viewerWarpper := viewerWarpper s; window_scroll := window_scroll s;
     fullscreenElement := b; innerHeight := innerHeight s;
     image_height := image_height s; states_busy := states_busy s;
     states_downloadFromViewer := states_downloadFromViewer s;
     loading_show := loading_show s; trace := trace s; page := page s |}.

Definition set_layout (wh ih : Z) (s : St) : St :=
  {| cfg := cfg s; show := show s; scrollX := scrollX s; scrollY := scrollY s;
     workData := workData s; myViewer := myViewer s;
     viewerWarpper := viewerWarpper s; window_scroll := window_scroll s;
     fullscreenElement := fullscreenElement s; innerHeight := wh;
     image_height := ih; states_busy := states_busy s;
     states_downloadFromViewer := states_downloadFromViewer s;
     loading_show := loading_show s; trace := trace s; page := page s |}.

Definition set_downloadFromViewer (b : bool) (s : St) : St :=
  {| cfg := cfg s; show := show s; scrollX := scrollX s; scrollY := scrollY s;
     workData := workData s; myViewer := myViewer s;
     viewerWarpper := viewerWarpper s; window_scroll := window_scroll s;
     fullscreenElement := fullscreenElement s; innerHeight := innerHeight s;
     image_height := image_height s; states_busy := states_busy s;
     states_downloadFromViewer := b;
     loading_show := loading_show s; trace := trace s; page := page s |}.

Definition set_loading_show (b : bool) (s : St) : St :=
  {| cfg := cfg s; show := show s; scrollX := scrollX s; scrollY := scrollY s;
     workData := workData s; myViewer := myViewer s;
     viewerWarpper := viewerWarpper s; window_scroll := window_scroll s;
     fullscreenElement := fullscreenElement s; innerHeight := innerHeight s;
     image_height := image_height s; states_busy := states_busy s;
     states_downloadFromViewer := states_downloadFromViewer s;
     loading_show := b; trace := trace s; page := page s |}.

Definition set_trace (t : list Effect) (s : St) : St :=
  {| cfg := cfg s; show := show s; scrollX := scrollX s; scrollY := scrollY s;
     workData := workData s; myViewer := myViewer s;
     viewerWarpper := viewerWarpper s; window_scroll := window_scroll s;
     fullscreenElement := fullscreenElement s; innerHeight := innerHeight s;
     image_height := image_height s; states_busy := states_busy s;
     states_downloadFromViewer := states_downloadFromViewer s;
     loading_show := loading_show s; trace := t; page := page s |}.

Definition set_page (d : Dom.Doc) (s : St) : St :=
  {| cfg := cfg s; show := show s; scrollX := scrollX s; scrollY := scrollY s;
     workData := workData s; myViewer := myViewer s;
     viewerWarpper := viewerWarpper s; window_scroll := window_scroll s;
     fullscreenElement := fullscreenElement s; innerHeight := innerHeight s;
     image_height := image_height s; states_busy := states_busy s;
     states_downloadFromViewer := states_downloadFromViewer s;
     loading_show := loading_show s; trace := trace s; page := d |}.

(** A freshly constructed instance: the field initialisers of the class
    over the given ambient state. *)
Definition new_instance (c : Config) (scroll : Q * Q) (fullscreen busy fromViewer loading : bool)
    (wh ih : Z) (doc : Dom.Doc) : St :=
  {| cfg := c; show := false; scrollX := 0%Q; scrollY := 0%Q;
     workData := None; myViewer := None;
     viewerWarpper := {| wr_id := ""; wr_display := ""; ul_innerHTML := "" |};
     window_scroll := scroll; fullscreenElement := fullscreen;
     innerHeight := wh; image_height := ih;
     states_busy := busy; states_downloadFromViewer := fromViewer;
     loading_show := loading; trace := []; page := doc |}.

(** ** The state-and-exception monad *)

Inductive Exn := SyntaxError | Rejection | TypeError.

Inductive Res (A : Type) :=
| Ok (a : A)
| Throw (e : Exn).
Arguments Ok {A} a.
Arguments Throw {A} e.

Definition M (A : Type) : Type := St -> Res A * St.

Definition ret {A : Type} (a : A) : M A := fun s => (Ok a, s).

Definition bind {A B : Type} (m : M A) (k : A -> M B) : M B :=
  fun s => match m s with
           | (Ok a, s') => k a s'
           | (Throw e, s') => (Throw e, s')
           end.

Definition throw {A : Type} (e : Exn) : M A := fun s => (Throw e, s).

Definition gets {A : Type} (f : St -> A) : M A := fun s => (Ok (f s), s).

Definition modify (f : St -> St) : M unit := fun s => (Ok tt, f s).

Definition emit (e : Effect) : M unit :=
  modify (fun s => set_trace (trace s ++ [e]) s).

Definition when (b : bool) (m : M unit) : M unit := if b then m else ret tt.

Declare Scope js_scope.
Delimit Scope js_scope with js.
Notation "x <- m ;; k" := (bind m (fun x => k))
  (at level 61, m at next level, right associativity) : js_scope.
Notation "m ;; k" := (bind m (fun _ => k))
  (at level 61, right associativity) : js_scope.
Local Open Scope js_scope.

(** The state a computation leaves and the effects it added. *)
Definition exec {A : Type} (m : M A) (s : St) : St := snd (m s).
Definition result {A : Type} (m : M A) (s : St) : Res A := fst (m s).

(** ** The class *)

Record KeyboardEvent := { code : string; altKey : bool }.

(** How a call of [createImageList] ended: it re-scheduled itself, it is
    suspended on the metadata request, or (after the request settled) it
    returned early at the gate or ran to its end. *)
Inductive Outcome := Rescheduled | Awaiting | GatedOut | Activated.

(** What the browser and the widget deliver to the listeners the class
    registers, together with the changes of ambient state the class only
    observes: scrolling, layout, and what the widget, the host page or
    another instance do to the page. *)
Inductive Event :=
| E_shown
| E_hide
| E_viewed (index : nat)
| E_hidden
| E_keydown (ev : KeyboardEvent)
| E_fullscreenchange (fullscreen : bool)
| E_fullscreen_granted
| E_zoom_timer
| E_downloadBtn_click
| E_bookmarkBtn_click
| E_bookmark_settled (r : Response unit)
| E_page_scrolled (x y : Q)
| E_layout_changed (windowHeight imgHeight : Z)
| E_page_changed (doc : Dom.Doc).

Section ImageViewer.

(** Whether a string is a selector the browser's CSS parser accepts.
    [querySelector] throws a [SyntaxError] on the others, the empty string
    among them, whatever the document holds. *)
Variable valid_selector : string -> bool.

(** [Tools.convertArtworkThumbURL] is defined in Tools.ts, outside this
    file; the viewer only passes its result on. *)
Variable convertArtworkThumbURL : string -> nat -> string.

Definition querySelector (doc : Document) (sel : string) : M (option Element) :=
  if valid_selector sel then ret (doc sel) else throw SyntaxError.

Definition await {A : Type} (r : Response A) : M A :=
  match r with
  | Fulfilled a => ret a
  | Rejected => throw Rejection
  end.

Definition isSome {A : Type} (o : option A) : bool :=
  match o with Some _ => true | None => false end.

Definition isFullscreen : M bool := gets fullscreenElement.

(** [console.error] for each message, in order. *)
Fixpoint console (out : list string) : M unit :=
  match out with
  | [] => ret tt
  | msg :: out' => emit (console_error msg) ;; console out'
  end.

(** A piece of toolbar code run on the page: the page it leaves is
    stored, what it wrote to the console is logged, and the [TypeError]
    of a property read on [null] or [undefined] is thrown on. *)
Definition on_page (f : Dom.Doc -> Dom.Completion) : M unit :=
  doc <- gets page ;;
  match f doc with
  | Dom.Returned doc' out => modify (set_page doc') ;; console out
  | Dom.TypeError => throw TypeError
  end.

Definition toggleBottomBtns (shown : bool) : M unit :=
  on_page (Dom.toggleBottomBtns shown).

Definition addBtn (btn : Dom.Node) : M unit := on_page (Dom.addBtn btn).

Definition hiddenHeight (imgHeight windowHeight : Z) : Q :=
  (inject_Z imgHeight / 2 - inject_Z windowHeight / 2)%Q.

(** [img.height] and [window.innerHeight] are integers, so the halves
    are exact. *)
Definition handleCenter : M unit :=
  wd <- gets workData ;;
  match wd with
  | Some d =>
      if illustType (body d) =? 1 then
        imgHeight <- gets image_height ;;
        windowHeight <- gets innerHeight ;;
        if imgHeight <=? windowHeight then ret tt
        else emit (viewer_move 0 (hiddenHeight imgHeight windowHeight))
      else ret tt
  | None => ret tt
  end.

(** Up to the [then] of [requestFullscreen]; the rest runs on
    [E_fullscreen_granted] and [E_zoom_timer]. *)
Definition enterFullScreenMode : M unit :=
  toggleBottomBtns false ;;
  emit requestFullscreen.

Definition enterFullScreenMode_then : M unit :=
  emit (setTimeout_zoom 150).

Definition enterFullScreenMode_timer : M unit :=
  emit (viewer_zoomTo 1) ;;
  handleCenter.

(** The click listeners of the two buttons are served by
    [E_downloadBtn_click] and [E_bookmarkBtn_click]. *)
Definition addDownloadBtn : M unit := addBtn Dom.download_li.

Definition addBookmarkBtn : M unit := addBtn Dom.bookmark_li.

(** Up to the [await] of [Bookmark.add]; the tags are
    [Tools.extractTags] of the stored work data. *)
Definition addBookmark : M unit :=
  emit (toast_show msg_bookmark) ;;
  c <- gets cfg ;;
  wd <- gets workData ;;
  emit (Bookmark_add (workId c) "illusts" wd).

Definition addBookmark_resume (r : Response unit) : M unit :=
  await r ;;
  emit (toast_success msg_bookmarked).

Definition download : M unit :=
  busy <- gets states_busy ;;
  if busy then emit (toast_error msg_task_not_finished)
  else
    modify (set_downloadFromViewer true) ;;
    c <- gets cfg ;;
    emit (EVT_fire "crawlIdList" [ {| id := workId c; type := "unknown" |} ]) ;;
    emit (toast_show msg_download_request_sent).

(** *** bindEvents *)

Definition keydown_F (ev : KeyboardEvent) : M unit :=
  if String.eqb (code ev) "KeyF" then
    sh <- gets show ;;
    if sh then
      fs <- isFullscreen ;;
      if fs then emit exitFullscreen else enterFullScreenMode
    else ret tt
  else ret tt.

Definition keydown_AltB (ev : KeyboardEvent) : M unit :=
  if altKey ev && String.eqb (code ev) "KeyB" then
    sh <- gets show ;;
    if sh then addBookmark else ret tt
  else ret tt.

Definition keydown_D (ev : KeyboardEvent) : M unit :=
  if String.eqb (code ev) "KeyD" then
    sh <- gets show ;;
    if sh then download else ret tt
  else ret tt.

(** The capturing listener on [window]; it answers whether it stopped
    the propagation of the event. *)
Definition keydown_arrows (ev : KeyboardEvent) : M bool :=
  if String.eqb (code ev) "ArrowLeft" || String.eqb (code ev) "ArrowRight" then
    sh <- gets show ;;
    if sh then
      emit stopPropagation ;;
      (if String.eqb (code ev) "ArrowLeft"
       then emit (viewer_prev true)
       else emit (viewer_next true)) ;;
      ret true
    else ret false
  else ret false.

(** Two listeners of one event: the second runs whether or not the first
    threw, and an exception that escaped a listener is what the delivery
    reports (the first one, if both threw). *)
Definition and_listener {A : Type} (m : M unit) (k : M A) : M A :=
  fun s => match m s with
           | (Ok _, s') => k s'
           | (Throw e, s') => (Throw e, snd (k s'))
           end.

(** One [keydown]: the capturing listener on [window] runs first, the
    three listeners on [document] follow in the order they were added,
    unless the propagation was stopped. *)
Definition keydown (ev : KeyboardEvent) : M bool :=
  stopped <- keydown_arrows ev ;;
  if stopped then ret true
  else
    and_listener (keydown_F ev)
      (and_listener (keydown_AltB ev)
         (keydown_D ev ;; ret false)).

Definition on_fullscreenchange : M unit :=
  v <- gets myViewer ;;
  fs <- isFullscreen ;;
  when (isSome v && negb fs) (toggleBottomBtns true).

(** *** configureViewer *)

Definition scrollTo (x y : Q) : M unit :=
  modify (set_window_scroll (x, y)) ;;
  emit (window_scrollTo x y).

(** The [shown] listener from its first use of the toolbar on. *)
Definition on_shown_toolbar : M unit :=
  c <- gets cfg ;;
  when (showDownloadBtn c) addDownloadBtn ;;
  when (showBookmarkBtn c) addBookmarkBtn ;;
  toggleBottomBtns true ;;
  doc <- gets page ;;
  when (isSome (Dom.querySelector (Dom.by_class "viewer-one-to-one") doc))
    (emit oneToOne_bind).

Definition on_shown : M unit :=
  modify (set_show true) ;;
  p <- gets window_scroll ;;
  modify (set_scrollXY (fst p) (snd p)) ;;
  on_shown_toolbar.

Definition on_hide : M unit :=
  modify (set_show false) ;;
  x <- gets scrollX ;;
  y <- gets scrollY ;;
  scrollTo x y.

(** The listener added to [viewerUl] for [viewed]; it was added before
    the widget existed, so it runs before the widget's own [viewed]
    option. *)
Definition on_viewed : M unit :=
  fs <- isFullscreen ;;
  when fs (emit (viewer_zoomTo 1)).

(** The [viewed] option handed to [new Viewer]. *)
Definition viewed (v : Viewer) (index : nat) : M unit :=
  handleCenter ;;
  let index := if Z.of_nat index <? v_pageCount v - 1 then S index else index in
  let nextImg := JS.replace (v_firstBigImgURL v) "p0" ("p" ++ JS.number_to_string index) in
  emit (new_Image nextImg).

Definition on_hidden : M unit :=
  fs <- isFullscreen ;;
  when fs (emit exitFullscreen).

Definition configureViewer (pageCount : Z) (firstBigImgURL : string) : M unit :=
  modify (set_myViewer (Some {| v_pageCount := pageCount;
                                v_firstBigImgURL := firstBigImgURL |})) ;;
  emit new_Viewer ;;
  emit (new_Image firstBigImgURL) ;;
  c <- gets cfg ;;
  when (autoStart c) (emit viewer_show).

(** *** createImageList *)

Definition li (src data_src : string) : string :=
  "<li><img src=" ++ JS.dquote ++ src ++ JS.dquote
    ++ " data-src=" ++ JS.dquote ++ data_src ++ JS.dquote ++ "></li>".

Definition fullURL (useBigURL : string) (index : nat) : string :=
  JS.replace useBigURL "p0" ("p" ++ JS.number_to_string index).

(** The [for] loop; [fuel] bounds the number of iterations. *)
Fixpoint thumbnail_loop (fuel : nat) (pageCount : Z) (thumbURL useBigURL : string)
    (index : nat) (html : list string) : list string :=
  match fuel with
  | O => html
  | S fuel' =>
      if Z.of_nat index <? pageCount then
        let str := li (convertArtworkThumbURL thumbURL index) (fullURL useBigURL index) in
        thumbnail_loop fuel' pageCount thumbURL useBigURL (S index) (html ++ [str])
      else html
  end.

Definition thumbnail_html (pageCount : Z) (thumbURL useBigURL : string) : list string :=
  thumbnail_loop (Z.to_nat pageCount) pageCount thumbURL useBigURL 0 [].

Definition useBigURL_of (c : Config) (b : Body) : string :=
  JS.or (url_of_size (urls b) (imageSize c)) (original (urls b)).

(** The synchronous part, up to the [await]. *)
Definition createImageList (doc : Document) : M Outcome :=
  c <- gets cfg ;;
  missing <- (if showImageList c
              then t <- querySelector doc (insertTarget c) ;; ret (negb (isSome t))
              else ret false) ;;
  if missing then
    emit (setTimeout_createImageList 300) ;;
    ret Rescheduled
  else
    let w := {| wr_id := ""; wr_display := "none"; ul_innerHTML := "" |} in
    let w := if JS.truthy (imageListId c)
             then {| wr_id := imageListId c; wr_display := wr_display w;
                     ul_innerHTML := ul_innerHTML w |}
             else w in
    modify (set_viewerWarpper w) ;;
    when (showLoading c) (modify (set_loading_show true) ;; emit (loading_show_set true)) ;;
    emit (API_getArtworkData (workId c)) ;;
    ret Awaiting.

(** The rest, run when the metadata request has settled; [doc] is the
    document at that moment. *)
Definition createImageList_resume (r : Response ArtworkData) (doc : Document) : M Outcome :=
  c <- gets cfg ;;
  wd <- await r ;;
  modify (set_workData (Some wd)) ;;
  let b := body wd in
  if (illustType b =? 0) || (illustType b =? 1) || (illustType b =? 2) then
    if pageCount b >=? imageNumber c then
      let useBigURL := useBigURL_of c b in
      let html := thumbnail_html (pageCount b) (thumb (urls b)) useBigURL in
      w <- gets viewerWarpper ;;
      modify (set_viewerWarpper {| wr_id := wr_id w; wr_display := wr_display w;
                                   ul_innerHTML := JS.join "" html |}) ;;
      when (showLoading c) (modify (set_loading_show false) ;; emit (loading_show_set false)) ;;
      when (showImageList c)
        (emit theme_register ;;
         w <- gets viewerWarpper ;;
         modify (set_viewerWarpper {| wr_id := wr_id w; wr_display := "block";
                                      ul_innerHTML := ul_innerHTML w |}) ;;
         target <- querySelector doc (insertTarget c) ;;
         match target with
         | Some e => emit (insertAdjacentElement e beforebegin)
         | None => ret tt
         end) ;;
      configureViewer (pageCount b) useBigURL ;;
      ret Activated
    else ret GatedOut
  else ret GatedOut.

(** The mount polling: [createImageList] run again at every firing of
    its timer, [docs k] being the document at the [k]-th call.  [fuel]
    is the number of calls observed; when it is used up the timer of the
    last call is still pending. *)
Fixpoint mount (fuel : nat) (docs : nat -> Document) (k : nat) : M Outcome :=
  match fuel with
  | O => ret Rescheduled
  | S fuel' =>
      r <- createImageList (docs k) ;;
      match r with
      | Rescheduled => mount fuel' docs (S k)
      | _ => ret r
      end
  end.

(** *** Event dispatch *)

(** The widget raises its events on [viewerUl] only once
    [configureViewer] has built it, which is also when the listeners
    exist. *)
Definition dispatch (e : Event) : M unit :=
  match e with
  | E_shown => v <- gets myViewer ;; when (isSome v) on_shown
  | E_hide => v <- gets myViewer ;; when (isSome v) on_hide
  | E_viewed index =>
      v <- gets myViewer ;;
      match v with
      | Some v => on_viewed ;; viewed v index
      | None => ret tt
      end
  | E_hidden => v <- gets myViewer ;; when (isSome v) on_hidden
  | E_keydown ev => keydown ev ;; ret tt
  | E_fullscreenchange fs =>
      modify (set_fullscreenElement fs) ;;
      on_fullscreenchange
  | E_fullscreen_granted => enterFullScreenMode_then
  | E_zoom_timer => enterFullScreenMode_timer
  | E_downloadBtn_click => download
  | E_bookmarkBtn_click => addBookmark
  | E_bookmark_settled r => addBookmark_resume r
  | E_page_scrolled x y => modify (set_window_scroll (x, y))
  | E_layout_changed wh ih => modify (set_layout wh ih)
  | E_page_changed doc => modify (set_page doc)
  end.

(** The event loop: an exception escaping a listener is reported and the
    next event is served from the state the listener left. *)
Fixpoint run (evs : list Event) (s : St) : St :=
  match evs with
  | [] => s
  | e :: evs' => run evs' (exec (dispatch e) s)
  end.

End ImageViewer.

(** ** Vocabulary of the statements *)

(** The effects a computation adds to the log when run from [s]. *)
Definition emitted {A : Type} (m : M A) (s : St) : list Effect :=
  skipn (List.length (trace s)) (trace (exec m s)).

(** The two tests of the activation gate, as propositions. *)
Definition gate_accepts (c : Config) (b : Body) : Prop :=
  (illustType b = 0 \/ illustType b = 1 \/ illustType b = 2)
  /\ imageNumber c <= pageCount b.


Definition is_EVT_fire (e : Effect) : bool :=
  match e with EVT_fire _ _ => true | _ => false end.

(** The work on display is a manga (the sequential-page type). *)
Definition is_manga (s : St) : bool :=
  match workData s with
  | Some d => illustType (body d) =? 1
  | None => false
  end.

(** *** Sample data *)

Definition sample_convert (thumbURL : string) (index : nat) : string :=
  JS.replace thumbURL "p0" ("p" ++ JS.number_to_string index).

Definition sample_urls : Urls :=
  {| thumb := "https://i.pximg.net/c/250x250_80_a2/img-master/img/88179809_p0_square1200.jpg";
     small := "";
     regular := "https://i.pximg.net/img-master/img/88179809_p0_master1200.jpg";
     original := "https://i.pximg.net/img-original/img/88179809_p0.png" |}.

Definition sample_work (ty pages : Z) : ArtworkData :=
  {| body := {| illustType := ty; pageCount := pages; urls := sample_urls |} |}.

Definition sample_valid (sel : string) : bool := negb (String.eqb sel "").

Definition sample_doc (present : bool) : Document :=
  fun sel => if present && String.eqb sel "#root" then Some "div#root" else None.

Definition sample_state (o : ConfigOptional) : St :=
  new_instance (assign (default_cfg "88179809") o) (0%Q, 120%Q) false false false false 900 1600
    Dom.sample_page.

Definition list_options : ConfigOptional :=
  {| o_workId := None; o_showImageList := Some true; o_imageListId := Some "viewerList";
     o_insertTarget := Some "#root"; o_insertPostion := None; o_imageNumber := None;
     o_imageSize := None; o_showDownloadBtn := None; o_showBookmarkBtn := None;
     o_autoStart := None; o_showLoading := Some true |}.


(** What a show/hide cycle relies on: the stored position and the
    widget. *)
Definition snapshot (s : St) : Q * Q * option Viewer :=
  (scrollX s, scrollY s, myViewer s).

Definition keeps_snapshot {A : Type} (m : M A) : Prop :=
  forall s, snapshot (exec m s) = snapshot s.

Definition sample_docs (appears : nat) : nat -> Document :=
  fun k => sample_doc (appears <=? k)%nat.

Definition busy_state : St :=
  new_instance (default_cfg "88179809") (0%Q, 0%Q) false true false false 900 1600
    Dom.sample_page.

(** A five-page manga, listed, fetched and accepted. *)
Definition active_state : St :=
  exec (createImageList_resume sample_valid sample_convert (Fulfilled (sample_work 1 5)) (sample_doc true))
    (exec (createImageList sample_valid (sample_doc true)) (sample_state list_options)).

Definition showing_state : St := exec (dispatch E_shown) active_state.

Definition key (c : string) (alt : bool) : KeyboardEvent :=
  {| code := c; altKey := alt |}.

Definition sample_events : list Event :=
  [E_keydown (key "KeyF" false); E_fullscreen_granted; E_fullscreenchange true;
   E_page_scrolled 0 0; E_zoom_timer; E_keydown (key "ArrowRight" false);
   E_viewed 1; E_keydown (key "KeyF" false); E_fullscreenchange false;
   E_page_scrolled 0 0].

(** ** Vocabulary of the further statements *)

(** [m] takes every state to one that [R] relates to it. *)
Definition steps_within {A : Type} (R : St -> St -> Prop) (m : M A) : Prop :=
  forall s, R s (exec m s).

(** What the listeners leave alone: the configuration, the busy flag, the
    loading indicator, the fetched data, the widget and the list; and
    [downloadFromViewer], once set, stays set. *)
Definition ambient_kept (s s' : St) : Prop :=
  cfg s' = cfg s
  /\ states_busy s' = states_busy s
  /\ loading_show s' = loading_show s
  /\ workData s' = workData s
  /\ myViewer s' = myViewer s
  /\ viewerWarpper s' = viewerWarpper s
  /\ (states_downloadFromViewer s = true -> states_downloadFromViewer s' = true).

Definition same_show (s s' : St) : Prop := show s' = show s.

(** What the toolbar code of a listener leaves alone. *)
Definition view_kept (s s' : St) : Prop :=
  show s' = show s
  /\ scrollX s' = scrollX s
  /\ scrollY s' = scrollY s
  /\ window_scroll s' = window_scroll s
  /\ myViewer s' = myViewer s.

Definition stays_hidden (s s' : St) : Prop := show s = false -> show s' = false.

Definition is_arrow (ev : KeyboardEvent) : bool :=
  String.eqb (code ev) "ArrowLeft" || String.eqb (code ev) "ArrowRight".

(** The key presses some listener reacts to. *)
Definition is_bound (ev : KeyboardEvent) : bool :=
  is_arrow ev
  || String.eqb (code ev) "KeyF"
  || String.eqb (code ev) "KeyD"
  || (altKey ev && String.eqb (code ev) "KeyB").

Definition bare_list_options : ConfigOptional :=
  {| o_workId := None; o_showImageList := Some true; o_imageListId := None;
     o_insertTarget := None; o_insertPostion := None; o_imageNumber := None;
     o_imageSize := None; o_showDownloadBtn := None; o_showBookmarkBtn := None;
     o_autoStart := None; o_showLoading := Some true |}.

(** Any threshold, nothing else supplied. *)
Definition threshold_options (n : Z) : ConfigOptional :=
  {| o_workId := None; o_showImageList := None; o_imageListId := None;
     o_insertTarget := None; o_insertPostion := None; o_imageNumber := Some n;
     o_imageSize := None; o_showDownloadBtn := None; o_showBookmarkBtn := None;
     o_autoStart := None; o_showLoading := None |}.

(** The viewer showing while a crawl is in progress. *)
Definition busy_showing_state : St :=
  exec (dispatch E_shown)
    (exec (createImageList_resume sample_valid sample_convert
             (Fulfilled (sample_work 1 5)) (sample_doc true))
       (exec (createImageList sample_valid (sample_doc true))
          (new_instance (assign (default_cfg "88179809") list_options)
             (0%Q, 120%Q) false true false false 900 1600 Dom.sample_page))).

(** * Properties *)

(** ** Strings *)

Lemma prefix_drop (p s : string) :
  String.prefix p s = true -> s = p ++ JS.drop (String.length p) s.
Proof.
  revert s; induction p as [|a p IH]; intros s H.
  - reflexivity.
  - destruct s as [|b s]; simpl in H; [discriminate|].
    destruct (ascii_dec a b) as [->|]; [|discriminate].
    simpl. f_equal. now apply IH.
Qed.

Lemma find_first_sound (pat : string) :
  forall s a b, JS.find_first pat s = Some (a, b) -> s = a ++ pat ++ b.
Proof.
  induction s as [|c s IH]; intros a b H; cbn [JS.find_first] in H.
  - destruct (String.prefix pat "") eqn:E; [|discriminate].
    inversion H; subst. now apply prefix_drop in E.
  - destruct (String.prefix pat (String c s)) eqn:E.
    + inversion H; subst. now apply prefix_drop in E.
    + destruct (JS.find_first pat s) as [[a' b']|] eqn:F; [|discriminate].
      inversion H; subst. simpl. f_equal. now apply IH.
Qed.

(** The text before the leftmost occurrence holds no earlier one: the
    pattern is a prefix of none of the suffixes that start in it. *)
Lemma find_first_leftmost (pat : string) :
  forall s a b, JS.find_first pat s = Some (a, b) ->
  forall a1 c a2, a = a1 ++ String c a2 ->
  String.prefix pat (String c a2 ++ pat ++ b) = false.
Proof.
  induction s as [|c s IH]; intros a b H a1 c' a2 Ha; cbn [JS.find_first] in H.
  - destruct (String.prefix pat "") eqn:E; [|discriminate].
    injection H as <- _. destruct a1; simpl in Ha; discriminate Ha.
  - destruct (String.prefix pat (String c s)) eqn:E.
    + injection H as <- _. destruct a1; simpl in Ha; discriminate Ha.
    + destruct (JS.find_first pat s) as [[a' b']|] eqn:F; [|discriminate].
      injection H as <- <-.
      destruct a1 as [|d a1]; simpl in Ha; injection Ha as -> ->.
      * apply find_first_sound in F. simpl. now rewrite <- F.
      * eapply IH; eauto.
Qed.

Lemma replace_found (s pat rep a b : string) :
  JS.find_first pat s = Some (a, b) -> JS.replace s pat rep = a ++ rep ++ b.
Proof. unfold JS.replace. now intros ->. Qed.

Lemma replace_absent (s pat rep : string) :
  JS.find_first pat s = None -> JS.replace s pat rep = s.
Proof. unfold JS.replace. now intros ->. Qed.

Lemma prefix_append (p b : string) : String.prefix p (p ++ b) = true.
Proof.
  induction p as [|c p IH]; cbn; [now destruct b|].
  destruct (ascii_dec c c); [exact IH|congruence].
Qed.

(** A pattern that is not found occurs nowhere. *)
Lemma find_first_none (pat : string) :
  forall s, JS.find_first pat s = None -> forall a b, s <> a ++ pat ++ b.
Proof.
  induction s as [|c s IH]; intros H a b E; cbn [JS.find_first] in H.
  - destruct (String.prefix pat "") eqn:P; [discriminate|].
    destruct a; cbn in E; [|discriminate].
    rewrite E, prefix_append in P. discriminate.
  - destruct (String.prefix pat (String c s)) eqn:P; [discriminate|].
    destruct (JS.find_first pat s) as [[a' b']|] eqn:F; [discriminate|].
    destruct a as [|d a]; cbn in E.
    + rewrite E, prefix_append in P. discriminate.
    + injection E as _ E. now apply (IH eq_refl a b).
Qed.

(** The occurrence found starts no later than any other. *)
Lemma find_first_min (pat : string) :
  forall s a b, JS.find_first pat s = Some (a, b) ->
  forall a' b', s = a' ++ pat ++ b' -> (String.length a <= String.length a')%nat.
Proof.
  induction s as [|c s IH]; intros a b H a' b' E; cbn [JS.find_first] in H.
  - destruct (String.prefix pat "") eqn:P; [|discriminate].
    injection H as <- _. cbn. lia.
  - destruct (String.prefix pat (String c s)) eqn:P.
    + injection H as <- _. cbn. lia.
    + destruct (JS.find_first pat s) as [[a0 b0]|] eqn:F; [|discriminate].
      injection H as <- <-.
      destruct a' as [|d a']; cbn in E.
      * rewrite E, prefix_append in P. discriminate.
      * injection E as _ E. cbn. specialize (IH a0 b0 eq_refl a' b' E). lia.
Qed.

Lemma append_inv_length (a a' x y : string) :
  String.length a = String.length a' -> a ++ x = a' ++ y -> a = a' /\ x = y.
Proof.
  revert a'; induction a as [|c a IH]; intros [|d a'] Hl E; cbn in *; try discriminate.
  - now split.
  - injection E as -> E. injection Hl as Hl.
    destruct (IH a' Hl E) as [-> ->]. now split.
Qed.

(** [find_first] finds the leftmost occurrence, whichever way it is
    given. *)
Lemma find_first_spec (pat s pre post : string) :
  s = pre ++ pat ++ post ->
  (forall pre' post', s = pre' ++ pat ++ post' ->
   (String.length pre <= String.length pre')%nat) ->
  JS.find_first pat s = Some (pre, post).
Proof.
  intros E Hmin.
  destruct (JS.find_first pat s) as [[a b]|] eqn:F.
  - pose proof (find_first_sound pat s a b F) as Ea.
    pose proof (find_first_min pat s a b F pre post E) as H1.
    pose proof (Hmin a b Ea) as H2.
    assert (Hl : String.length a = String.length pre) by lia.
    rewrite Ea in E.
    destruct (append_inv_length a pre _ _ Hl E) as [-> E'].
    f_equal. f_equal.
    revert E'. clear. induction pat as [|c pat IH]; cbn; intros E'; [exact E'|].
    injection E' as E'. auto.
  - exfalso. exact (find_first_none pat s F pre post E).
Qed.

(** The decimal rendering tells indices apart. *)
Lemma number_to_string_inj (i j : nat) :
  JS.number_to_string i = JS.number_to_string j -> i = j.
Proof.
  unfold JS.number_to_string. intros H.
  assert (Hnn : forall n, Nat.to_uint n <> Decimal.Nil).
  { intros n. rewrite <- (Unsigned.of_to n) at 1. rewrite Unsigned.to_of.
    apply unorm_nonnil. }
  assert (Hi := NilZero.usu (Nat.to_uint i) (Hnn i)).
  assert (Hj := NilZero.usu (Nat.to_uint j) (Hnn j)).
  rewrite H, Hj in Hi. injection Hi as Hi.
  now apply Unsigned.to_uint_inj.
Qed.

Lemma append_cancel_head (a x y : string) : a ++ x = a ++ y -> x = y.
Proof.
  induction a as [|c a IH]; cbn; intros H; [exact H|].
  injection H as H. auto.
Qed.

Lemma string_length_append (a b : string) :
  String.length (a ++ b) = (String.length a + String.length b)%nat.
Proof. induction a; cbn; auto. Qed.

Lemma append_cancel_tail (x y b : string) : x ++ b = y ++ b -> x = y.
Proof.
  revert y; induction x as [|c x IH]; intros [|d y] H; cbn in H.
  - reflexivity.
  - apply (f_equal String.length) in H. cbn in H.
    rewrite string_length_append in H. lia.
  - apply (f_equal String.length) in H. cbn in H.
    rewrite string_length_append in H. lia.
  - injection H as -> H. f_equal. auto.
Qed.

(** Where the first-page URL holds the marker, the URLs of two pages are
    equal only for equal indices. *)
Lemma fullURL_inj (u pre post : string) (i j : nat) :
  JS.find_first "p0" u = Some (pre, post) ->
  fullURL u i = fullURL u j -> i = j.
Proof.
  intros F. unfold fullURL. rewrite !(replace_found _ _ _ _ _ F).
  intros H. apply append_cancel_head in H. cbn in H. injection H as H.
  apply append_cancel_tail in H. now apply number_to_string_inj.
Qed.

(** ** The thumbnail loop *)

Section Thumbnails.

Variable convertArtworkThumbURL : string -> nat -> string.

Let entry (thumbURL useBigURL : string) (index : nat) : string :=
  li (convertArtworkThumbURL thumbURL index) (fullURL useBigURL index).

(** With enough fuel the loop stops by its own test, at [pageCount]. *)
Lemma thumbnail_loop_seq (p : Z) (t u : string) :
  forall fuel index html,
  p <= Z.of_nat index + Z.of_nat fuel ->
  thumbnail_loop convertArtworkThumbURL fuel p t u index html
  = (html ++ map (entry t u) (seq index (Z.to_nat (p - Z.of_nat index))))%list.
Proof.
  induction fuel as [|fuel IH]; intros index html Hb; cbn [thumbnail_loop].
  - replace (Z.to_nat (p - Z.of_nat index)) with O by lia.
    now rewrite List.app_nil_r.
  - destruct (Z.ltb_spec (Z.of_nat index) p) as [Hlt|Hge].
    + rewrite IH by lia.
      replace (Z.to_nat (p - Z.of_nat index))
        with (S (Z.to_nat (p - Z.of_nat (S index)))) by lia.
      cbn [seq map]. now rewrite <- List.app_assoc.
    + replace (Z.to_nat (p - Z.of_nat index)) with O by lia.
      now rewrite List.app_nil_r.
Qed.

Lemma thumbnail_html_seq (p : Z) (t u : string) :
  thumbnail_html convertArtworkThumbURL p t u
  = map (entry t u) (seq 0 (Z.to_nat p)).
Proof.
  unfold thumbnail_html.
  rewrite thumbnail_loop_seq by lia.
  cbn [app Z.of_nat]. now rewrite Z.sub_0_r.
Qed.

(** The fuel [thumbnail_html] passes never cuts the loop short. *)
Lemma thumbnail_loop_fuel (p : Z) (t u : string) (extra : nat) :
  thumbnail_loop convertArtworkThumbURL (Z.to_nat p + extra) p t u 0 []
  = thumbnail_html convertArtworkThumbURL p t u.
Proof.
  unfold thumbnail_html. rewrite !thumbnail_loop_seq by lia. reflexivity.
Qed.

(** The entries, written out. *)
Lemma thumbnail_html_entries (p : Z) (t u : string) :
  thumbnail_html convertArtworkThumbURL p t u
  = map (fun i =>
           "<li><img src=" ++ String (ascii_of_nat 34) ""
             ++ convertArtworkThumbURL t i ++ String (ascii_of_nat 34) ""
             ++ " data-src=" ++ String (ascii_of_nat 34) ""
             ++ fullURL u i ++ String (ascii_of_nat 34) "" ++ "></li>")
        (seq 0 (Z.to_nat p)).
Proof. rewrite thumbnail_html_seq. reflexivity. Qed.

Lemma concat_entries_nonempty (f : nat -> string) (n : nat) :
  (forall i, f i <> "") -> (0 < n)%nat ->
  String.concat "" (map f (seq 0 n)) <> "".
Proof.
  intros Hf Hn. destruct n as [|n]; [lia|]. cbn [seq map].
  specialize (Hf 0%nat).
  destruct (f 0%nat) as [|c r]; [congruence|].
  cbn [String.concat]. destruct (map f (seq 1 n)); cbn; discriminate.
Qed.

Lemma thumbnail_html_length (p : Z) (t u : string) :
  List.length (thumbnail_html convertArtworkThumbURL p t u) = Z.to_nat p.
Proof. now rewrite thumbnail_html_seq, length_map, length_seq. Qed.

Lemma thumbnail_html_nth (p : Z) (t u : string) (i : nat) :
  (i < Z.to_nat p)%nat ->
  nth_error (thumbnail_html convertArtworkThumbURL p t u) i
  = Some (li (convertArtworkThumbURL t i) (fullURL u i)).
Proof.
  intros Hi. rewrite thumbnail_html_seq.
  rewrite nth_error_map, nth_error_seq.
  destruct (Nat.ltb_spec i (Z.to_nat p)); [reflexivity|lia].
Qed.

End Thumbnails.

(** ** The effect log *)

Lemma skipn_own_length {A : Type} (l l' : list A) :
  skipn (List.length l) (l ++ l') = l'.
Proof. rewrite skipn_app, skipn_all, Nat.sub_diag. reflexivity. Qed.

Ltac js_unfold :=
  unfold emitted, exec, result in *;
  unfold createImageList_resume, createImageList, configureViewer, querySelector,
    await, when, emit, modify, gets, throw, bind, ret in *.

Ltac js_cases :=
  repeat match goal with
    | |- context [if ?b then _ else _] => destruct b eqn:?; cbn
    | |- context [match ?d ?x with Some _ => _ | None => _ end] =>
        destruct (d x) eqn:?; cbn
    end.

Ltac trace_norm := rewrite <- ?List.app_assoc, ?skipn_own_length; cbn.

Lemma set_trace_same (s : St) : set_trace (trace s) s = s.
Proof. now destruct s. Qed.

(** ** The activation gate *)

Lemma gate_type_test (b : Body) :
  (illustType b =? 0) || (illustType b =? 1) || (illustType b =? 2) = true
  <-> illustType b = 0 \/ illustType b = 1 \/ illustType b = 2.
Proof. rewrite !orb_true_iff, !Z.eqb_eq. tauto. Qed.

Lemma gate_count_test (c : Config) (b : Body) :
  (pageCount b >=? imageNumber c) = true <-> imageNumber c <= pageCount b.
Proof. rewrite Z.geb_le. reflexivity. Qed.

Lemma gate_accepts_dec (c : Config) (b : Body) :
  {gate_accepts c b} + {~ gate_accepts c b}.
Proof.
  destruct ((illustType b =? 0) || (illustType b =? 1) || (illustType b =? 2)) eqn:Et.
  - destruct (pageCount b >=? imageNumber c) eqn:Ep.
    + left. split; [now apply gate_type_test | now apply gate_count_test].
    + right. intros [_ H]. apply gate_count_test in H. congruence.
  - right. intros [H _]. apply gate_type_test in H. congruence.
Qed.

Section Activation.

Variable valid_selector : string -> bool.
Variable convertArtworkThumbURL : string -> nat -> string.

(** *** Up to the request *)

Lemma createImageList_waits doc s :
  showImageList (cfg s) = true ->
  valid_selector (insertTarget (cfg s)) = true ->
  doc (insertTarget (cfg s)) = None ->
  createImageList valid_selector doc s
  = (Ok Rescheduled, set_trace (trace s ++ [setTimeout_createImageList 300]) s).
Proof. intros Hs Hv Hd. js_unfold. cbn. now rewrite Hs, Hv, Hd. Qed.

Lemma createImageList_invalid doc s :
  showImageList (cfg s) = true ->
  valid_selector (insertTarget (cfg s)) = false ->
  createImageList valid_selector doc s = (Throw SyntaxError, s).
Proof. intros Hs Hv. js_unfold. cbn. now rewrite Hs, Hv. Qed.

(** The call gets as far as the metadata request exactly when no list is
    to be shown or the insertion point is there. *)
Lemma createImageList_awaiting_iff doc s :
  result (createImageList valid_selector doc) s = Ok Awaiting
  <-> showImageList (cfg s) = false
      \/ (valid_selector (insertTarget (cfg s)) = true
          /\ exists e, doc (insertTarget (cfg s)) = Some e).
Proof.
  js_unfold. cbn. split.
  - destruct (showImageList (cfg s)); [|now left].
    destruct (valid_selector (insertTarget (cfg s))); cbn; [|discriminate].
    destruct (doc (insertTarget (cfg s))) as [e|]; cbn; [|discriminate].
    intros _. right. split; [reflexivity|]. now exists e.
  - intros [->|[-> [e ->]]]; [|destruct (showImageList (cfg s))]; cbn;
      js_cases; reflexivity.
Qed.

Lemma createImageList_fetches doc s :
  result (createImageList valid_selector doc) s = Ok Awaiting ->
  let s1 := exec (createImageList valid_selector doc) s in
  emitted (createImageList valid_selector doc) s
  = ((if showLoading (cfg s) then [loading_show_set true] else [])
     ++ [API_getArtworkData (workId (cfg s))])%list
  /\ cfg s1 = cfg s
  /\ loading_show s1 = showLoading (cfg s) || loading_show s
  /\ ul_innerHTML (viewerWarpper s1) = ""
  /\ myViewer s1 = myViewer s.
Proof.
  intros H. apply createImageList_awaiting_iff in H.
  js_unfold. cbn.
  destruct H as [->|[-> [e ->]]]; [|destruct (showImageList (cfg s))]; cbn;
    js_cases; trace_norm; repeat split; reflexivity.
Qed.

(** A list is only fetched for under a selector that parsed. *)
Lemma createImageList_selector_parsed doc s :
  result (createImageList valid_selector doc) s = Ok Awaiting ->
  showImageList (cfg s) = true -> valid_selector (insertTarget (cfg s)) = true.
Proof.
  intros H Hs. apply createImageList_awaiting_iff in H.
  destruct H as [H|[H _]]; congruence.
Qed.

(** *** After the request *)

Lemma resume_denied wd doc s :
  ~ gate_accepts (cfg s) (body wd) ->
  createImageList_resume valid_selector convertArtworkThumbURL (Fulfilled wd) doc s
  = (Ok GatedOut, set_workData (Some wd) s).
Proof.
  intros Hn. js_unfold. cbn.
  destruct (_ || _) eqn:Et; [|reflexivity].
  destruct (_ >=? _) eqn:Ep; [|reflexivity].
  exfalso. apply Hn. split; [now apply gate_type_test | now apply gate_count_test].
Qed.

Lemma resume_accepted wd doc s :
  (showImageList (cfg s) = true -> valid_selector (insertTarget (cfg s)) = true) ->
  gate_accepts (cfg s) (body wd) ->
  let m := createImageList_resume valid_selector convertArtworkThumbURL (Fulfilled wd) doc in
  let u := useBigURL_of (cfg s) (body wd) in
  result m s = Ok Activated
  /\ In new_Viewer (emitted m s)
  /\ myViewer (exec m s)
     = Some {| v_pageCount := pageCount (body wd); v_firstBigImgURL := u |}.
Proof.
  intros Hv [Ht Hp] m u. subst m u.
  apply gate_type_test in Ht. apply gate_count_test in Hp.
  js_unfold. cbn. rewrite Ht, Hp.
  destruct (showImageList (cfg s)) eqn:Es; cbn;
    [rewrite (Hv eq_refl); cbn|];
    js_cases; trace_norm; intuition.
Qed.

(** The markup is written before the insertion point is looked up again. *)
Lemma resume_markup wd doc s :
  gate_accepts (cfg s) (body wd) ->
  ul_innerHTML (viewerWarpper
                  (exec (createImageList_resume valid_selector convertArtworkThumbURL
                           (Fulfilled wd) doc) s))
  = JS.join "" (thumbnail_html convertArtworkThumbURL (pageCount (body wd))
                  (thumb (urls (body wd))) (useBigURL_of (cfg s) (body wd))).
Proof.
  intros [Ht Hp].
  apply gate_type_test in Ht. apply gate_count_test in Hp.
  js_unfold. cbn. rewrite Ht, Hp.
  js_cases; reflexivity.
Qed.

(** C1.  For metadata fetched by [createImageList], the viewer activates
    (the thumbnail markup is written and the widget constructed) exactly
    when the media type is 0, 1 or 2 and the page count reaches the
    threshold.  The markup written is one [li] element per page, in page
    order, each with its thumbnail URL and its full-image URL; it is not
    empty when there is a page.  When a test fails the call returns
    normally and all it did was store the fetched data: no widget, no
    effect, no exception, and the list is as empty as it was created. *)
Theorem activation_iff_gate doc0 wd doc s :
  result (createImageList valid_selector doc0) s = Ok Awaiting ->
  let s1 := exec (createImageList valid_selector doc0) s in
  let m := createImageList_resume valid_selector convertArtworkThumbURL (Fulfilled wd) doc in
  let b := body wd in
  (In new_Viewer (emitted m s1) <-> gate_accepts (cfg s) b)
  /\ (gate_accepts (cfg s) b ->
      result m s1 = Ok Activated
      /\ ul_innerHTML (viewerWarpper (exec m s1))
         = String.concat ""
             (map (fun i =>
                     "<li><img src=" ++ String (ascii_of_nat 34) ""
                       ++ convertArtworkThumbURL (thumb (urls b)) i
                       ++ String (ascii_of_nat 34) ""
                       ++ " data-src=" ++ String (ascii_of_nat 34) ""
                       ++ JS.replace (useBigURL_of (cfg s) b) "p0"
                            ("p" ++ JS.number_to_string i)
                       ++ String (ascii_of_nat 34) "" ++ "></li>")
                  (seq 0 (Z.to_nat (pageCount b))))
      /\ (1 <= pageCount b -> ul_innerHTML (viewerWarpper (exec m s1)) <> "")
      /\ myViewer (exec m s1)
         = Some {| v_pageCount := pageCount b;
                   v_firstBigImgURL := useBigURL_of (cfg s) b |})
  /\ (~ gate_accepts (cfg s) b ->
      result m s1 = Ok GatedOut
      /\ exec m s1 = set_workData (Some wd) s1
      /\ emitted m s1 = []
      /\ ul_innerHTML (viewerWarpper (exec m s1)) = ""
      /\ myViewer (exec m s1) = myViewer s).
Proof.
  intros Hr s1 m b.
  destruct (createImageList_fetches doc0 s Hr) as (_ & Hc & _ & Hul & Hmv).
  fold s1 in Hc, Hul, Hmv.
  assert (Hv : showImageList (cfg s1) = true ->
               valid_selector (insertTarget (cfg s1)) = true)
    by (rewrite Hc; now apply (createImageList_selector_parsed doc0)).
  assert (Hden : ~ gate_accepts (cfg s) b ->
                 result m s1 = Ok GatedOut
                 /\ exec m s1 = set_workData (Some wd) s1
                 /\ emitted m s1 = []
                 /\ ul_innerHTML (viewerWarpper (exec m s1)) = ""
                 /\ myViewer (exec m s1) = myViewer s).
  { intros Hn. rewrite <- Hc in Hn. subst m. unfold result, exec, emitted, exec.
    rewrite (resume_denied wd doc s1 Hn). cbn.
    repeat split; auto. apply skipn_all. }
  split; [|split]; [|intros Ha|exact Hden].
  - split.
    + intros Hin. destruct (gate_accepts_dec (cfg s) b) as [Ha|Hn]; [exact Ha|].
      destruct (Hden Hn) as (_ & _ & He & _). rewrite He in Hin. destruct Hin.
    + intros Ha. rewrite <- Hc in Ha.
      now destruct (resume_accepted wd doc s1 Hv Ha) as (_ & H & _).
  - rewrite <- Hc in *.
    destruct (resume_accepted wd doc s1 Hv Ha) as (Hr' & _ & Hw).
    assert (Hm : ul_innerHTML (viewerWarpper (exec m s1))
                 = String.concat ""
                     (map (fun i =>
                             "<li><img src=" ++ String (ascii_of_nat 34) ""
                               ++ convertArtworkThumbURL (thumb (urls b)) i
                               ++ String (ascii_of_nat 34) ""
                               ++ " data-src=" ++ String (ascii_of_nat 34) ""
                               ++ JS.replace (useBigURL_of (cfg s1) b) "p0"
                                    ("p" ++ JS.number_to_string i)
                               ++ String (ascii_of_nat 34) "" ++ "></li>")
                          (seq 0 (Z.to_nat (pageCount b))))).
    { subst m. rewrite (resume_markup wd doc s1 Ha), thumbnail_html_entries.
      reflexivity. }
    split; [exact Hr'|]. split; [exact Hm|]. split; [|exact Hw].
    intros Hp. rewrite Hm.
    apply concat_entries_nonempty; [|lia].
    intros i. cbn [append]. discriminate.
Qed.

(** C2.  For accepted metadata the list has one entry per page, entry
    [i] sitting at position [i] for every [i] below the page count, and
    entry [i] is the [li] element with the thumbnail URL of page [i] and,
    as its full-image URL, the first-page URL with its leftmost [p0]
    replaced by [p] and the decimal [i].  When the first-page URL holds
    [p0], these URLs share the text before and after that occurrence and
    are equal only for equal indices; when it does not, every entry
    carries the first-page URL as it is. *)
Theorem thumbnail_list_indexed wd doc s :
  gate_accepts (cfg s) (body wd) ->
  let b := body wd in
  let u := useBigURL_of (cfg s) b in
  let p := Z.to_nat (pageCount b) in
  let html := thumbnail_html convertArtworkThumbURL (pageCount b) (thumb (urls b)) u in
  let entry := fun i =>
    "<li><img src=" ++ String (ascii_of_nat 34) ""
      ++ convertArtworkThumbURL (thumb (urls b)) i ++ String (ascii_of_nat 34) ""
      ++ " data-src=" ++ String (ascii_of_nat 34) ""
      ++ fullURL u i ++ String (ascii_of_nat 34) "" ++ "></li>" in
  ul_innerHTML (viewerWarpper
                  (exec (createImageList_resume valid_selector convertArtworkThumbURL
                           (Fulfilled wd) doc) s))
  = String.concat "" html
  /\ html = map entry (seq 0 p)
  /\ List.length html = p
  /\ (forall i, (i < p)%nat -> nth_error html i = Some (entry i))
  /\ (forall pre post,
      u = pre ++ "p0" ++ post ->
      (forall pre' post', u = pre' ++ "p0" ++ post' ->
       (String.length pre <= String.length pre')%nat) ->
      forall i, fullURL u i = pre ++ "p" ++ JS.number_to_string i ++ post)
  /\ ((exists pre post, u = pre ++ "p0" ++ post) ->
      forall i j, fullURL u i = fullURL u j -> i = j)
  /\ ((forall pre post, u <> pre ++ "p0" ++ post) ->
      forall i, fullURL u i = u).
Proof.
  intros Ha b u p html entry.
  assert (Hh : html = map entry (seq 0 p)) by apply thumbnail_html_entries.
  split; [now apply resume_markup|]. split; [exact Hh|].
  split; [apply thumbnail_html_length|]. split; [|split; [|split]].
  - intros i Hi. rewrite Hh, nth_error_map, nth_error_seq.
    destruct (Nat.ltb_spec i p); [reflexivity|lia].
  - intros pre post E Hmin i. unfold fullURL.
    now rewrite (replace_found _ _ _ _ _ (find_first_spec "p0" u pre post E Hmin)).
  - intros (pre & post & E) i j.
    destruct (JS.find_first "p0" u) as [[a c]|] eqn:F.
    + now apply (fullURL_inj u a c).
    + exfalso. exact (find_first_none "p0" u F pre post E).
  - intros Hno i. unfold fullURL.
    destruct (JS.find_first "p0" u) as [[a c]|] eqn:F.
    + exfalso. exact (Hno a c (find_first_sound "p0" u a c F)).
    + now apply replace_absent.
Qed.

Lemma resume_never_inserts_hidden_list r doc s :
  showImageList (cfg s) = false ->
  forall e pos,
  ~ In (insertAdjacentElement e pos)
       (emitted (createImageList_resume valid_selector convertArtworkThumbURL r doc) s).
Proof.
  intros Hs e pos. js_unfold.
  destruct r as [wd|]; cbn; [|rewrite skipn_all; intros []].
  rewrite Hs.
  js_cases; trace_norm; rewrite ?skipn_all; cbn; intuition discriminate.
Qed.

(** Where the gate lets the work through, the indicator is switched off
    again. *)
Lemma loading_cleared_when_activated wd doc s :
  showLoading (cfg s) = true ->
  gate_accepts (cfg s) (body wd) ->
  loading_show (exec (createImageList_resume valid_selector convertArtworkThumbURL
                        (Fulfilled wd) doc) s)
  = false.
Proof.
  intros Hl [Ht Hp].
  apply gate_type_test in Ht. apply gate_count_test in Hp.
  js_unfold. cbn. rewrite Ht, Hp, Hl. cbn.
  js_cases; reflexivity.
Qed.

(** The container goes before the target, whatever [insertPostion] says:
    the option is never read. *)
Lemma insertion_is_beforebegin wd doc s e :
  showImageList (cfg s) = true ->
  valid_selector (insertTarget (cfg s)) = true ->
  doc (insertTarget (cfg s)) = Some e ->
  gate_accepts (cfg s) (body wd) ->
  forall pos,
  In (insertAdjacentElement e pos)
     (emitted (createImageList_resume valid_selector convertArtworkThumbURL
                 (Fulfilled wd) doc) s)
  <-> pos = beforebegin.
Proof.
  intros Hs Hv Hd [Ht Hp] pos.
  apply gate_type_test in Ht. apply gate_count_test in Hp.
  js_unfold. cbn. rewrite Ht, Hp, Hs. cbn. rewrite Hv. cbn. rewrite Hd. cbn.
  js_cases; trace_norm; cbn; split;
    try (intros ->; tauto);
    intros H; repeat (destruct H as [H|H]; [try discriminate H; now inversion H|]);
    destruct H.
Qed.

(** C10.  With [showLoading] set, the indicator is switched on just before
    the metadata request; when the gate then denies (either test),
    [createImageList] returns without any further effect and the indicator
    is still on. *)
Theorem loading_stays_on_when_gated wd doc0 doc s :
  showLoading (cfg s) = true ->
  result (createImageList valid_selector doc0) s = Ok Awaiting ->
  ~ gate_accepts (cfg s) (body wd) ->
  let s1 := exec (createImageList valid_selector doc0) s in
  let m := createImageList_resume valid_selector convertArtworkThumbURL (Fulfilled wd) doc in
  emitted (createImageList valid_selector doc0) s
  = [loading_show_set true; API_getArtworkData (workId (cfg s))]
  /\ loading_show s1 = true
  /\ result m s1 = Ok GatedOut
  /\ emitted m s1 = []
  /\ loading_show (exec m s1) = true.
Proof.
  intros Hl Hr Hn s1 m.
  destruct (createImageList_fetches doc0 s Hr) as (He & Hc & Hls & _).
  fold s1 in Hc, Hls. rewrite Hl in He, Hls. cbn in He, Hls.
  assert (Hn1 : ~ gate_accepts (cfg s1) (body wd)) by now rewrite Hc.
  subst m. unfold result, emitted, exec.
  rewrite (resume_denied wd doc s1 Hn1).
  cbn [fst snd trace set_workData loading_show].
  repeat split; auto. apply skipn_all.
Qed.

(** *** The mount polling *)

Lemma mount_after_waits docs s0 n : forall m k s,
  cfg s = cfg s0 ->
  showImageList (cfg s0) = true ->
  valid_selector (insertTarget (cfg s0)) = true ->
  (forall j, (k <= j < k + n)%nat -> docs j (insertTarget (cfg s0)) = None) ->
  mount valid_selector (n + m) docs k s
  = mount valid_selector m docs (k + n)
      (set_trace (trace s ++ repeat (setTimeout_createImageList 300) n) s).
Proof.
  induction n as [|n IH]; intros m k s Hc Hs Hv Hd.
  - cbn [repeat Nat.add]. now rewrite List.app_nil_r, set_trace_same, Nat.add_0_r.
  - cbn [Nat.add mount]. unfold bind at 1.
    rewrite createImageList_waits by (rewrite Hc; auto; apply Hd; lia).
    rewrite IH; [|exact Hc|exact Hs|exact Hv|intros j Hj; apply Hd; lia].
    cbn [trace set_trace repeat]. rewrite <- List.app_assoc.
    now replace (S k + n)%nat with (k + S n)%nat by lia.
Qed.

Lemma mount_waits docs n s :
  showImageList (cfg s) = true ->
  valid_selector (insertTarget (cfg s)) = true ->
  (forall k, (k < n)%nat -> docs k (insertTarget (cfg s)) = None) ->
  mount valid_selector n docs 0 s
  = (Ok Rescheduled,
     set_trace (trace s ++ repeat (setTimeout_createImageList 300) n) s).
Proof.
  intros Hs Hv Hd.
  replace n with (n + 0)%nat at 1 by lia.
  rewrite (mount_after_waits docs s n 0 0 s eq_refl Hs Hv)
    by (intros j Hj; apply Hd; lia).
  reflexivity.
Qed.

(** C5.  While a list is to be shown and the insertion selector finds
    nothing, each call of [createImageList] does nothing but arm its
    300 ms timer again: after any number [n] of calls the log holds [n]
    such timers and nothing else has changed (no request, no container, no
    insertion), and the call at which the element is found issues the
    metadata request.  When no list is to be shown the first call goes
    straight to the request whatever the document holds, nothing is ever
    inserted into the page, and accepted metadata still gets its widget.
    That is for an insertion selector the browser can parse: on one it
    cannot (the default empty one among them) the first call throws, and
    nothing is scheduled, requested or changed. *)
Theorem mount_polls_until_target docs s n :
  (showImageList (cfg s) = true ->
   valid_selector (insertTarget (cfg s)) = true ->
   (forall k, (k < n)%nat -> docs k (insertTarget (cfg s)) = None) ->
   result (mount valid_selector n docs 0) s = Ok Rescheduled
   /\ emitted (mount valid_selector n docs 0) s
      = repeat (setTimeout_createImageList 300) n
   /\ exec (mount valid_selector n docs 0) s
      = set_trace (trace s ++ repeat (setTimeout_createImageList 300) n) s
   /\ (forall e, docs n (insertTarget (cfg s)) = Some e ->
       result (mount valid_selector (S n) docs 0) s = Ok Awaiting
       /\ In (API_getArtworkData (workId (cfg s)))
             (emitted (mount valid_selector (S n) docs 0) s)))
  /\ (showImageList (cfg s) = false ->
      forall doc,
      let s1 := exec (createImageList valid_selector doc) s in
      result (createImageList valid_selector doc) s = Ok Awaiting
      /\ (forall ms, ~ In (setTimeout_createImageList ms)
                          (emitted (createImageList valid_selector doc) s))
      /\ forall r doc',
         let m := createImageList_resume valid_selector convertArtworkThumbURL r doc' in
         (forall e pos, ~ In (insertAdjacentElement e pos) (emitted m s1))
         /\ (forall wd, r = Fulfilled wd -> gate_accepts (cfg s) (body wd) ->
             result m s1 = Ok Activated /\ In new_Viewer (emitted m s1)))
  /\ (showImageList (cfg s) = true ->
      valid_selector (insertTarget (cfg s)) = false ->
      forall calls,
      mount valid_selector (S calls) docs 0 s = (Throw SyntaxError, s)
      /\ emitted (mount valid_selector (S calls) docs 0) s = []).
Proof.
  split; [|split].
  - intros Hs Hv Hd.
    pose proof (mount_waits docs n s Hs Hv Hd) as Hw.
    unfold result, emitted, exec. rewrite Hw. cbn [fst snd trace set_trace].
    rewrite skipn_own_length.
    split; [reflexivity|]. split; [reflexivity|]. split; [reflexivity|].
    intros e He.
    replace (S n) with (n + 1)%nat by lia.
    rewrite (mount_after_waits docs s n 1 0 s eq_refl Hs Hv)
      by (intros j Hj; apply Hd; lia).
    cbn [mount Nat.add]. js_unfold. cbn. rewrite Hs, Hv. cbn. rewrite He. cbn.
    js_cases; trace_norm; rewrite <- ?List.app_assoc;
      (split; [reflexivity|]); apply in_or_app; right; cbn; auto.
  - intros Hs doc s1.
    assert (Hr : result (createImageList valid_selector doc) s = Ok Awaiting)
      by (apply createImageList_awaiting_iff; now left).
    destruct (createImageList_fetches doc s Hr) as (He & Hc & _).
    fold s1 in Hc.
    split; [exact Hr|]. split.
    + intros ms. rewrite He. destruct (showLoading (cfg s)); cbn; intuition discriminate.
    + intros r doc' m. split.
      * apply resume_never_inserts_hidden_list. now rewrite Hc.
      * intros wd -> Ha. rewrite <- Hc in Ha.
        destruct (resume_accepted wd doc' s1) as (H1 & H2 & _);
          [rewrite Hc, Hs; discriminate | exact Ha | now split].
  - intros Hs Hv calls.
    assert (Hm : mount valid_selector (S calls) docs 0 s = (Throw SyntaxError, s)).
    { cbn [mount]. unfold bind.
      now rewrite (createImageList_invalid (docs 0%nat) s Hs Hv). }
    split; [exact Hm|].
    unfold emitted, exec. rewrite Hm. apply skipn_all.
Qed.

End Activation.

(** ** The listeners *)

Ltac js_handlers :=
  unfold emitted, exec, result in *;
  unfold dispatch in *;
  unfold keydown in *;
  unfold keydown_arrows, keydown_F, keydown_AltB, keydown_D,
    on_shown, on_hide, on_viewed, viewed, on_hidden, on_fullscreenchange,
    enterFullScreenMode_timer, enterFullScreenMode_then in *;
  unfold on_shown_toolbar in *;
  unfold enterFullScreenMode, addBookmark_resume, addBookmark, download,
    addDownloadBtn, addBookmarkBtn, handleCenter, scrollTo in *;
  unfold toggleBottomBtns, addBtn, on_page, and_listener, isFullscreen, isSome,
    await, when, emit, modify, gets, throw, bind, ret in *.

(** *** The toolbar code in a listener *)

Lemma toggleBottomBtns_TypeError show doc :
  Dom.toggleBottomBtns show doc = Dom.TypeError
  <-> Dom.querySelector (Dom.by_class "viewer-container") doc = None.
Proof.
  unfold Dom.toggleBottomBtns.
  destruct (Dom.querySelector (Dom.by_class "viewer-container") doc);
    split; congruence.
Qed.

Lemma toggleBottomBtns_silent show doc doc' out :
  Dom.toggleBottomBtns show doc = Dom.Returned doc' out -> out = [].
Proof.
  unfold Dom.toggleBottomBtns.
  destruct (Dom.querySelector (Dom.by_class "viewer-container") doc);
    [|discriminate].
  intros H. now injection H as _ <-.
Qed.

Lemma toggleBottomBtns_run shown s :
  toggleBottomBtns shown s
  = match Dom.toggleBottomBtns shown (page s) with
    | Dom.Returned doc' _ => (Ok tt, set_page doc' s)
    | Dom.TypeError => (Throw TypeError, s)
    end.
Proof.
  unfold toggleBottomBtns, on_page, bind, gets, throw, modify.
  destruct (Dom.toggleBottomBtns shown (page s)) as [doc' out|] eqn:E; [|reflexivity].
  now rewrite (toggleBottomBtns_silent shown (page s) doc' out E).
Qed.

Lemma enterFullScreenMode_run s :
  enterFullScreenMode s
  = match Dom.toggleBottomBtns false (page s) with
    | Dom.Returned doc' _ =>
        (Ok tt, set_trace (trace s ++ [requestFullscreen]) (set_page doc' s))
    | Dom.TypeError => (Throw TypeError, s)
    end.
Proof.
  unfold enterFullScreenMode, bind. rewrite toggleBottomBtns_run.
  destruct (Dom.toggleBottomBtns false (page s)); reflexivity.
Qed.

Lemma hiddenHeight_half (h wh : Z) :
  (hiddenHeight h wh == inject_Z (h - wh) / 2)%Q.
Proof.
  unfold hiddenHeight, Z.sub.
  rewrite inject_Z_plus, inject_Z_opp. field.
Qed.

Lemma handleCenter_cases s :
  handleCenter s
  = (Ok tt,
     if is_manga s && (innerHeight s <? image_height s)
     then set_trace (trace s
                     ++ [viewer_move 0 (hiddenHeight (image_height s) (innerHeight s))]) s
     else s).
Proof.
  unfold is_manga. js_handlers.
  destruct (workData s) as [d|]; cbn; [|reflexivity].
  destruct (illustType (body d) =? 1); cbn; [|reflexivity].
  rewrite Z.ltb_antisym.
  destruct (image_height s <=? innerHeight s); reflexivity.
Qed.

(** C8.  [handleCenter] moves the image only for a manga (type 1) whose
    displayed height exceeds the viewport height, and then by half the
    excess, vertically; in every other case it does nothing at all. *)
Theorem handleCenter_moves_tall_manga_only s :
  let h := image_height s in
  let wh := innerHeight s in
  (is_manga s = true -> wh < h ->
   handleCenter s
   = (Ok tt, set_trace (trace s ++ [viewer_move 0 (hiddenHeight h wh)]) s)
   /\ emitted handleCenter s = [viewer_move 0 (hiddenHeight h wh)]
   /\ (hiddenHeight h wh == inject_Z (h - wh) / 2)%Q)
  /\ (is_manga s = false \/ h <= wh -> handleCenter s = (Ok tt, s)).
Proof.
  intros h wh. subst h wh. split.
  - intros Hm Hlt. apply Z.ltb_lt in Hlt.
    unfold emitted, exec. rewrite handleCenter_cases, Hm, Hlt. cbn.
    rewrite skipn_own_length.
    repeat split. apply hiddenHeight_half.
  - intros H. rewrite handleCenter_cases.
    destruct H as [->|Hle]; [reflexivity|].
    apply Z.ltb_ge in Hle. rewrite Hle, andb_false_r. reflexivity.
Qed.

(** C4.  [download] with the busy flag set only reports the failure: the
    state is left as it was, no event is fired.  With the flag clear it
    sets [downloadFromViewer], fires one [crawlIdList] event carrying the
    work id with type [unknown], and then shows the confirmation. *)
Theorem download_guarded_by_busy s :
  (states_busy s = true ->
   download s = (Ok tt, set_trace (trace s ++ [toast_error msg_task_not_finished]) s)
   /\ emitted download s = [toast_error msg_task_not_finished]
   /\ states_downloadFromViewer (exec download s) = states_downloadFromViewer s)
  /\ (states_busy s = false ->
      download s
      = (Ok tt,
         set_trace (trace s ++ [EVT_fire "crawlIdList"
                                  [ {| id := workId (cfg s); type := "unknown" |} ];
                                toast_show msg_download_request_sent])
           (set_downloadFromViewer true s))
      /\ emitted download s
         = [EVT_fire "crawlIdList" [ {| id := workId (cfg s); type := "unknown" |} ];
            toast_show msg_download_request_sent]
      /\ List.length (filter is_EVT_fire (emitted download s)) = 1%nat
      /\ states_downloadFromViewer (exec download s) = true).
Proof.
  split; intros Hb; js_handlers; cbn; rewrite Hb; cbn; trace_norm;
    repeat split.
Qed.

Lemma console_run out : forall s,
  console out s = (Ok tt, set_trace (trace s ++ map console_error out) s).
Proof.
  induction out as [|msg out IH]; intros s; cbn [console map].
  - now rewrite List.app_nil_r, set_trace_same.
  - unfold bind, emit, modify. rewrite IH. cbn [trace set_trace].
    now rewrite <- List.app_assoc.
Qed.

Lemma on_page_run f s :
  on_page f s
  = match f (page s) with
    | Dom.Returned doc' out =>
        (Ok tt, set_trace (trace s ++ map console_error out) (set_page doc' s))
    | Dom.TypeError => (Throw TypeError, s)
    end.
Proof.
  unfold on_page, bind, gets, modify, throw.
  destruct (f (page s)) as [doc' out|]; [|reflexivity].
  now rewrite console_run.
Qed.

(** The [shown] listener runs [Dom.shown_toolbar] on the page, logs what
    that wrote to the console and then binds the 1:1 control, if the page
    has one. *)
Lemma on_shown_toolbar_run s :
  match Dom.shown_toolbar (cfg s) (page s) with
  | Dom.Returned doc' out =>
      on_shown_toolbar s
      = (Ok tt,
         set_trace
           (trace s ++ map console_error out
            ++ (if isSome (Dom.querySelector (Dom.by_class "viewer-one-to-one") doc')
                then [oneToOne_bind] else []))
           (set_page doc' s))
  | Dom.TypeError => result on_shown_toolbar s = Throw TypeError
  end.
Proof.
  assert (Hstep : forall (b : bool) btn st,
            (if b then on_page (Dom.addBtn btn) else ret tt) st
            = match (if b then Dom.addBtn btn (page st) else Dom.Returned (page st) []) with
              | Dom.Returned doc' out =>
                  (Ok tt, set_trace (trace st ++ map console_error out) (set_page doc' st))
              | Dom.TypeError => (Throw TypeError, st)
              end).
  { intros b btn st. destruct b; [apply on_page_run|].
    unfold ret. cbn [map]. rewrite List.app_nil_r. now destruct st. }
  assert (Hrun : on_shown_toolbar s
            = match (if showDownloadBtn (cfg s) then Dom.addBtn Dom.download_li (page s)
                     else Dom.Returned (page s) []) with
              | Dom.TypeError => (Throw TypeError, s)
              | Dom.Returned doc1 out1 =>
                  match (if showBookmarkBtn (cfg s) then Dom.addBtn Dom.bookmark_li doc1
                         else Dom.Returned doc1 []) with
                  | Dom.TypeError =>
                      (Throw TypeError,
                       set_trace (trace s ++ map console_error out1) (set_page doc1 s))
                  | Dom.Returned doc2 out2 =>
                      match Dom.toggleBottomBtns true doc2 with
                      | Dom.TypeError =>
                          (Throw TypeError,
                           set_trace ((trace s ++ map console_error out1)
                                      ++ map console_error out2) (set_page doc2 s))
                      | Dom.Returned doc3 _ =>
                          (Ok tt,
                           set_trace
                             (((trace s ++ map console_error out1) ++ map console_error out2)
                              ++ (if isSome (Dom.querySelector
                                               (Dom.by_class "viewer-one-to-one") doc3)
                                  then [oneToOne_bind] else []))
                             (set_page doc3 s))
                      end
                  end
              end).
  { unfold on_shown_toolbar, addDownloadBtn, addBookmarkBtn, addBtn, when.
    unfold bind at 1. unfold gets at 1. cbv beta iota.
    unfold bind at 1. rewrite Hstep.
    destruct (if showDownloadBtn (cfg s) then Dom.addBtn Dom.download_li (page s)
              else Dom.Returned (page s) []) as [doc1 out1|]; [|reflexivity].
    cbv beta iota. unfold bind at 1. rewrite Hstep.
    cbn [page set_trace set_page cfg trace].
    destruct (if showBookmarkBtn (cfg s) then Dom.addBtn Dom.bookmark_li doc1
              else Dom.Returned doc1 []) as [doc2 out2|]; [|reflexivity].
    cbv beta iota. unfold bind at 1. rewrite toggleBottomBtns_run.
    cbn [page set_trace set_page].
    destruct (Dom.toggleBottomBtns true doc2) as [doc3 out3|]; [|reflexivity].
    unfold bind, gets, emit, modify, ret. cbn [page set_page trace set_trace].
    destruct (isSome (Dom.querySelector (Dom.by_class "viewer-one-to-one") doc3));
      cbn [trace set_trace set_page]; rewrite ?List.app_nil_r; reflexivity. }
  unfold result. rewrite Hrun. unfold Dom.shown_toolbar, Dom.and_then.
  destruct (if showDownloadBtn (cfg s) then Dom.addBtn Dom.download_li (page s)
            else Dom.Returned (page s) []) as [doc1 out1|]; [|reflexivity].
  destruct (if showBookmarkBtn (cfg s) then Dom.addBtn Dom.bookmark_li doc1
            else Dom.Returned doc1 []) as [doc2 out2|]; [|reflexivity].
  destruct (Dom.toggleBottomBtns true doc2) as [doc3 out3|] eqn:ET; [|reflexivity].
  rewrite (toggleBottomBtns_silent _ _ _ _ ET).
  now rewrite List.app_nil_r, !map_app, <- !List.app_assoc.
Qed.

Lemma keydown_hidden ev s : show s = false -> keydown ev s = (Ok false, s).
Proof.
  intros Hs. unfold keydown, keydown_arrows, keydown_F, keydown_AltB, keydown_D,
    and_listener, bind, gets, ret.
  destruct (String.eqb (code ev) "ArrowLeft" || String.eqb (code ev) "ArrowRight");
    destruct (String.eqb (code ev) "KeyF");
    destruct (altKey ev && String.eqb (code ev) "KeyB");
    destruct (String.eqb (code ev) "KeyD");
    repeat (cbn; rewrite ?Hs); reflexivity.
Qed.

(** The F listener acts alone on its key. *)
Lemma keydown_F_alone ev s :
  code ev = "KeyF" ->
  keydown ev s
  = match keydown_F ev s with
    | (Ok _, s') => (Ok false, s')
    | (Throw e, s') => (Throw e, s')
    end.
Proof.
  intros Hc. unfold keydown, keydown_arrows, keydown_AltB, keydown_D, and_listener,
    bind, ret. rewrite Hc. cbn. rewrite andb_false_r.
  destruct (keydown_F ev s) as [[[]|e] s']; reflexivity.
Qed.

Lemma keydown_F_shown ev s :
  code ev = "KeyF" -> show s = true ->
  keydown_F ev s
  = if fullscreenElement s
    then (Ok tt, set_trace (trace s ++ [exitFullscreen]) s)
    else enterFullScreenMode s.
Proof.
  intros Hc Hs. unfold keydown_F, bind, gets, isFullscreen, emit, modify.
  rewrite Hc. cbn -[enterFullScreenMode]. rewrite Hs.
  destruct (fullscreenElement s); reflexivity.
Qed.



(** ** Stepping within a relation *)

Section Steps.

Variable R : St -> St -> Prop.
Hypothesis R_refl : forall s, R s s.
Hypothesis R_trans : forall s1 s2 s3, R s1 s2 -> R s2 s3 -> R s1 s3.
Hypothesis R_log : forall s t, R s (set_trace t s).

Lemma steps_ret {A : Type} (a : A) : steps_within R (ret a).
Proof. intros s. apply R_refl. Qed.

Lemma steps_throw {A : Type} (e : Exn) : steps_within R (@throw A e).
Proof. intros s. apply R_refl. Qed.

Lemma steps_gets {A : Type} (f : St -> A) : steps_within R (gets f).
Proof. intros s. apply R_refl. Qed.

Lemma steps_emit (e : Effect) : steps_within R (emit e).
Proof. intros s. apply R_log. Qed.

Lemma steps_bind {A B : Type} (m : M A) (k : A -> M B) :
  steps_within R m -> (forall a, steps_within R (k a)) -> steps_within R (bind m k).
Proof.
  intros Hm Hk s. unfold exec, bind.
  specialize (Hm s). unfold exec in Hm.
  destruct (m s) as [[a|e] s']; cbn in *.
  - eapply R_trans; [exact Hm|]. apply Hk.
  - exact Hm.
Qed.

Lemma steps_and_listener {A : Type} (m : M unit) (k : M A) :
  steps_within R m -> steps_within R k -> steps_within R (and_listener m k).
Proof.
  intros Hm Hk s. unfold exec, and_listener.
  specialize (Hm s). unfold exec in Hm.
  destruct (m s) as [[a|e] s']; cbn in *;
    (eapply R_trans; [exact Hm|]; apply Hk).
Qed.

Lemma steps_console out : steps_within R (console out).
Proof.
  induction out as [|msg out IH]; cbn [console]; [apply steps_ret|].
  apply steps_bind; [apply steps_emit|intros _; exact IH].
Qed.

Lemma steps_run (P : Event -> Prop) :
  (forall e, P e -> steps_within R (dispatch e)) ->
  forall evs s, Forall P evs -> R s (run evs s).
Proof.
  intros Hd evs. induction evs as [|e evs IH]; intros s Hall; cbn [run].
  - apply R_refl.
  - inversion Hall as [|? ? He Hrest]; subst.
    eapply R_trans; [apply (Hd e He)|]. now apply IH.
Qed.

End Steps.

(** The proof that a listener steps within a relation follows the shape
    of the listener; [fin] settles what a field assignment asks for. *)
Ltac steps_with Hrefl Htrans Hlog fin :=
  repeat match goal with
    | |- steps_within _ (bind _ _) => apply (steps_bind _ Htrans); [|intros ?]
    | |- steps_within _ (ret _) => apply (steps_ret _ Hrefl)
    | |- steps_within _ (throw _) => apply (steps_throw _ Hrefl)
    | |- steps_within _ (gets _) => apply (steps_gets _ Hrefl)
    | |- steps_within _ (emit _) => apply (steps_emit _ Hlog)
    | |- steps_within _ (console _) => apply (steps_console _ Hrefl Htrans Hlog)
    | |- steps_within _ (and_listener _ _) => apply (steps_and_listener _ Htrans)
    | |- steps_within _ (modify _) => intros ?; unfold exec, modify; cbn; fin
    | |- steps_within _ (if ?b then _ else _) => destruct b
    | |- steps_within _ (match ?x with _ => _ end) => destruct x
    end.

Ltac unfold_listeners :=
  unfold dispatch;
  unfold keydown;
  unfold keydown_arrows, keydown_F, keydown_AltB, keydown_D,
    on_shown, on_hide, on_viewed, viewed, on_hidden, on_fullscreenchange,
    enterFullScreenMode_timer, enterFullScreenMode_then;
  unfold on_shown_toolbar;
  unfold enterFullScreenMode, addBookmark_resume, addBookmark, download,
    addDownloadBtn, addBookmarkBtn, handleCenter, scrollTo;
  unfold toggleBottomBtns, addBtn, on_page, isFullscreen, await, when.

(** ** The scroll snapshot *)

Lemma keeps_ret {A : Type} (a : A) : keeps_snapshot (ret a).
Proof. intros s. reflexivity. Qed.

Lemma keeps_throw {A : Type} (e : Exn) : keeps_snapshot (@throw A e).
Proof. intros s. reflexivity. Qed.

Lemma keeps_gets {A : Type} (f : St -> A) : keeps_snapshot (gets f).
Proof. intros s. reflexivity. Qed.

Lemma keeps_emit (e : Effect) : keeps_snapshot (emit e).
Proof. intros s. reflexivity. Qed.

Lemma keeps_modify (f : St -> St) :
  (forall s, snapshot (f s) = snapshot s) -> keeps_snapshot (modify f).
Proof. intros H s. apply H. Qed.

Lemma keeps_bind {A B : Type} (m : M A) (k : A -> M B) :
  keeps_snapshot m -> (forall a, keeps_snapshot (k a)) -> keeps_snapshot (bind m k).
Proof.
  intros Hm Hk s. unfold exec, bind.
  specialize (Hm s). unfold exec in Hm.
  destruct (m s) as [[a|e] s']; cbn in *.
  - rewrite <- Hm. apply Hk.
  - exact Hm.
Qed.

Lemma keeps_and_listener {A : Type} (m : M unit) (k : M A) :
  keeps_snapshot m -> keeps_snapshot k -> keeps_snapshot (and_listener m k).
Proof.
  intros Hm Hk s. unfold exec, and_listener.
  specialize (Hm s). unfold exec in Hm.
  destruct (m s) as [[a|e] s']; cbn in *; rewrite <- Hm; apply Hk.
Qed.

Create HintDb keeps.
#[local] Hint Resolve keeps_ret keeps_throw keeps_gets keeps_emit : keeps.

Ltac keeps_step :=
  match goal with
  | |- keeps_snapshot (bind _ _) => apply keeps_bind; [|intros ?]
  | |- keeps_snapshot (and_listener _ _) => apply keeps_and_listener
  | |- keeps_snapshot (modify _) => apply keeps_modify; intros ?; reflexivity
  | |- keeps_snapshot (if ?b then _ else _) => destruct b
  | |- keeps_snapshot (match ?x with _ => _ end) => destruct x
  | |- keeps_snapshot _ => solve [auto with keeps]
  end.

Ltac keeps_auto := repeat keeps_step.

Lemma keeps_handleCenter : keeps_snapshot handleCenter.
Proof. unfold handleCenter. keeps_auto. Qed.

Lemma keeps_console out : keeps_snapshot (console out).
Proof.
  induction out as [|msg out IH]; cbn [console]; [apply keeps_ret|].
  apply keeps_bind; [apply keeps_emit|intros _; exact IH].
Qed.

#[local] Hint Resolve keeps_console : keeps.

Lemma keeps_on_page f : keeps_snapshot (on_page f).
Proof. unfold on_page. keeps_auto. Qed.

#[local] Hint Resolve keeps_on_page : keeps.

Lemma keeps_enterFullScreenMode : keeps_snapshot enterFullScreenMode.
Proof. unfold enterFullScreenMode, toggleBottomBtns. keeps_auto. Qed.

Lemma keeps_download : keeps_snapshot download.
Proof. unfold download. keeps_auto. Qed.

Lemma keeps_addBookmark : keeps_snapshot addBookmark.
Proof. unfold addBookmark. keeps_auto. Qed.

#[local] Hint Resolve keeps_handleCenter keeps_enterFullScreenMode
  keeps_download keeps_addBookmark : keeps.

Lemma keeps_keydown ev : keeps_snapshot (keydown ev).
Proof.
  unfold keydown, keydown_arrows, keydown_F, keydown_AltB, keydown_D, isFullscreen.
  keeps_auto.
Qed.

#[local] Hint Resolve keeps_keydown : keeps.

(** Only the [shown] listener writes the snapshot, and no listener
    discards the widget. *)
Lemma dispatch_keeps_snapshot e :
  e <> E_shown -> keeps_snapshot (dispatch e).
Proof.
  intros He.
  destruct e; try congruence; unfold dispatch;
    unfold on_hide, on_viewed, viewed, on_hidden, on_fullscreenchange,
      enterFullScreenMode_then, enterFullScreenMode_timer, addBookmark_resume,
      scrollTo, toggleBottomBtns, isFullscreen, await, when;
    keeps_auto.
Qed.

Lemma run_keeps_snapshot evs : forall s,
  Forall (fun e => e <> E_shown) evs ->
  snapshot (run evs s) = snapshot s.
Proof.
  induction evs as [|e evs IH]; intros s Hall; cbn [run].
  - reflexivity.
  - inversion Hall as [|? ? He Hrest]; subst.
    rewrite (IH _ Hrest). now apply dispatch_keeps_snapshot.
Qed.

Lemma run_app evs1 evs2 s : run (evs1 ++ evs2) s = run evs2 (run evs1 s).
Proof. revert s; induction evs1 as [|e evs1 IH]; intros s; cbn; auto. Qed.

Lemma view_kept_trans s1 s2 s3 : view_kept s1 s2 -> view_kept s2 s3 -> view_kept s1 s3.
Proof.
  unfold view_kept.
  intros (A1 & A2 & A3 & A4 & A5) (B1 & B2 & B3 & B4 & B5).
  repeat split; congruence.
Qed.

Lemma on_shown_toolbar_keeps_view : steps_within view_kept on_shown_toolbar.
Proof.
  unfold on_shown_toolbar, addDownloadBtn, addBookmarkBtn, toggleBottomBtns, addBtn,
    on_page, when.
  steps_with (fun s : St => conj (eq_refl (show s))
                (conj (eq_refl (scrollX s))
                   (conj (eq_refl (scrollY s))
                      (conj (eq_refl (window_scroll s)) (eq_refl (myViewer s))))))
    view_kept_trans
    (fun (s : St) (t : list Effect) =>
       conj (eq_refl (show s))
         (conj (eq_refl (scrollX s))
            (conj (eq_refl (scrollY s))
               (conj (eq_refl (window_scroll s)) (eq_refl (myViewer s))))))
    ltac:(unfold view_kept; cbn; tauto).
Qed.

Lemma shown_takes_snapshot s :
  myViewer s <> None ->
  let s1 := exec (dispatch E_shown) s in
  show s1 = true
  /\ (scrollX s1, scrollY s1) = window_scroll s
  /\ window_scroll s1 = window_scroll s
  /\ myViewer s1 = myViewer s.
Proof.
  intros Hv s1.
  assert (Hs1 : s1 = exec on_shown_toolbar
                       (set_scrollXY (fst (window_scroll s)) (snd (window_scroll s))
                          (set_show true s))).
  { subst s1. unfold exec, dispatch, bind, gets, when.
    destruct (myViewer s); [reflexivity|congruence]. }
  destruct (on_shown_toolbar_keeps_view
              (set_scrollXY (fst (window_scroll s)) (snd (window_scroll s))
                 (set_show true s))) as (H1 & H2 & H3 & H4 & H5).
  rewrite <- Hs1 in H1, H2, H3, H4, H5. cbn in H1, H2, H3, H4, H5.
  repeat split; auto.
  rewrite H2, H3. now destruct (window_scroll s).
Qed.

Lemma hide_restores_snapshot s :
  myViewer s <> None ->
  let s2 := exec (dispatch E_hide) s in
  show s2 = false
  /\ window_scroll s2 = (scrollX s, scrollY s)
  /\ emitted (dispatch E_hide) s = [window_scrollTo (scrollX s) (scrollY s)].
Proof.
  intros Hv. js_handlers. cbn.
  destruct (myViewer s) eqn:E; [|congruence]. cbn.
  trace_norm. repeat split.
Qed.

(** C7.  The [shown] listener stores the window's scroll position, and
    after the [hide] listener that closes the cycle the window is back at
    that position, whatever was delivered in between: key presses,
    fullscreen changes, scrolling by the page or the browser, further
    widget events. *)
Theorem scroll_restored_on_hide s evs :
  myViewer s <> None ->
  Forall (fun e => e <> E_shown) evs ->
  let s1 := exec (dispatch E_shown) s in
  let s2 := run (evs ++ [E_hide]) s1 in
  show s1 = true
  /\ (scrollX s1, scrollY s1) = window_scroll s
  /\ window_scroll s2 = window_scroll s
  /\ show s2 = false.
Proof.
  intros Hv Hall s1 s2.
  destruct (shown_takes_snapshot s Hv) as (Hshow & Hsnap & _ & Hv1).
  fold s1 in Hshow, Hsnap, Hv1.
  pose proof (run_keeps_snapshot evs s1 Hall) as Hk.
  unfold snapshot in Hk. injection Hk as Hx Hy Hv2.
  assert (Hv3 : myViewer (run evs s1) <> None) by congruence.
  destruct (hide_restores_snapshot (run evs s1) Hv3) as (Hhid & Hwin & _).
  subst s2. rewrite run_app. cbn [run].
  repeat split; auto.
  rewrite Hwin, Hx, Hy. exact Hsnap.
Qed.

(** * The statements at sample inputs *)

(** Scenarios A and B: an illustration set of five pages, and one of a
    single page, under the default threshold. *)
Lemma activation_iff_gate_witness :
  let s := sample_state list_options in
  let s1 := exec (createImageList sample_valid (sample_doc true)) s in
  let m := fun pages =>
    createImageList_resume sample_valid sample_convert (Fulfilled (sample_work 0 pages))
      (sample_doc true) in
  result (m 5) s1 = Ok Activated
  /\ In new_Viewer (emitted (m 5) s1)
  /\ result (m 1) s1 = Ok GatedOut
  /\ emitted (m 1) s1 = []
  /\ ul_innerHTML (viewerWarpper (exec (m 1) s1)) = "".
Proof.
  intros s s1 m.
  assert (Ha : gate_accepts (cfg s) (body (sample_work 0 5)))
    by (split; [left; reflexivity | vm_compute; discriminate]).
  assert (Hn : ~ gate_accepts (cfg s) (body (sample_work 0 1)))
    by (intros [_ H]; vm_compute in H; apply H; reflexivity).
  pose proof (activation_iff_gate sample_valid sample_convert (sample_doc true)
                (sample_work 0 5) (sample_doc true) s eq_refl)
    as (Hiff & Hacc & _).
  pose proof (activation_iff_gate sample_valid sample_convert (sample_doc true)
                (sample_work 0 1) (sample_doc true) s eq_refl)
    as (_ & _ & Hden).
  destruct (Hden Hn) as (Hr & _ & He & Hul & _).
  split; [apply (Hacc Ha)|]. split; [apply Hiff, Ha|].
  split; [exact Hr|]. split; [exact He | exact Hul].
Defined.

Lemma thumbnail_list_indexed_witness :
  let s := sample_state list_options in
  let u := useBigURL_of (cfg s) (body (sample_work 0 5)) in
  let q := String (ascii_of_nat 34) "" in
  List.length (thumbnail_html sample_convert 5 (thumb sample_urls) u) = 5%nat
  /\ nth_error (thumbnail_html sample_convert 5 (thumb sample_urls) u) 4
     = Some ("<li><img src=" ++ q
             ++ "https://i.pximg.net/c/250x250_80_a2/img-master/img/88179809_p4_square1200.jpg"
             ++ q ++ " data-src=" ++ q
             ++ "https://i.pximg.net/img-original/img/88179809_p4.png"
             ++ q ++ "></li>").
Proof.
  intros s u q.
  assert (Ha : gate_accepts (cfg s) (body (sample_work 0 5)))
    by (split; [left; reflexivity | vm_compute; discriminate]).
  pose proof (thumbnail_list_indexed sample_valid sample_convert (sample_work 0 5)
                (sample_doc true) s Ha)
    as (_ & _ & Hlen & Hnth & _).
  split; [exact Hlen|]. apply (Hnth 4%nat). vm_compute. lia.
Defined.

(** A first-page URL without the text [p0], for a work of two pages: both
    entries are the same element, with the same full-image URL.  And a
    URL with an earlier [p0] than the page marker: the marker stays. *)
Lemma thumbnail_urls_coincide_without_marker :
  let ur := {| thumb := "https://i.pximg.net/c/250x250_80_a2/img-master/img/88179809_square1200.jpg";
               small := ""; regular := "";
               original := "https://i.pximg.net/img-original/img/88179809_ugoira0.jpg" |} in
  let wd := {| body := {| illustType := 0; pageCount := 2; urls := ur |} |} in
  let s := sample_state no_options in
  let m := createImageList_resume sample_valid sample_convert (Fulfilled wd) (sample_doc false) in
  let q := String (ascii_of_nat 34) "" in
  let e := "<li><img src=" ++ q ++ thumb ur ++ q
           ++ " data-src=" ++ q ++ original ur ++ q ++ "></li>" in
  result m s = Ok Activated
  /\ thumbnail_html sample_convert 2 (thumb ur) (useBigURL_of (cfg s) (body wd)) = [e; e]
  /\ ul_innerHTML (viewerWarpper (exec m s)) = e ++ e
  /\ fullURL (original ur) 0 = fullURL (original ur) 1
  /\ ~ (forall i j : nat, fullURL (original ur) i = fullURL (original ur) j -> i = j)
  /\ fullURL "https://p0.example.org/img/88179809_p0.png" 1
     = "https://p1.example.org/img/88179809_p0.png".
Proof.
  cbv zeta. repeat split; try (vm_compute; reflexivity).
  intros H. specialize (H 0%nat 1%nat eq_refl). discriminate H.
Qed.

(** Scenario C: the target turns up at the fourth call. *)
Lemma mount_polls_until_target_witness :
  let s := sample_state list_options in
  emitted (mount sample_valid 3 (sample_docs 3) 0) s
  = repeat (setTimeout_createImageList 300) 3
  /\ result (mount sample_valid 4 (sample_docs 3) 0) s = Ok Awaiting
  /\ result (createImageList sample_valid (sample_doc false)) (sample_state no_options)
     = Ok Awaiting.
Proof.
  intros s.
  destruct (mount_polls_until_target sample_valid sample_convert (sample_docs 3) s 3)
    as (Hshown & _ & _).
  destruct (mount_polls_until_target sample_valid sample_convert (sample_docs 3)
              (sample_state no_options) 0) as (_ & Hhidden & _).
  assert (Hd : forall k, (k < 3)%nat ->
               sample_docs 3 k (insertTarget (cfg s)) = None).
  { intros k Hk. destruct k as [|[|[|k]]]; [reflexivity|reflexivity|reflexivity|lia]. }
  destruct (Hshown eq_refl eq_refl Hd) as (_ & He & _ & Hfound).
  split; [exact He|]. split.
  - apply (Hfound "div#root"). reflexivity.
  - apply (Hhidden eq_refl (sample_doc false)).
Defined.

(** A list asked for with the insertion selector left at its default,
    the empty string, which finds nothing in a page without the target:
    the first call throws, and no timer is armed however many calls are
    allowed for. *)
Lemma default_target_is_never_polled :
  let s := sample_state bare_list_options in
  let docs := fun _ : nat => sample_doc false in
  showImageList (cfg s) = true
  /\ insertTarget (cfg s) = ""
  /\ docs 0%nat (insertTarget (cfg s)) = None
  /\ mount sample_valid 1 docs 0 s = (Throw SyntaxError, s)
  /\ mount sample_valid 5 docs 0 s = (Throw SyntaxError, s)
  /\ emitted (mount sample_valid 5 docs 0) s = []
  /\ result (mount sample_valid 5 docs 0) s <> Ok Rescheduled
  /\ ~ In (setTimeout_createImageList 300) (emitted (mount sample_valid 5 docs 0) s).
Proof.
  cbv zeta. repeat split; try (vm_compute; reflexivity).
  - vm_compute. discriminate.
  - vm_compute. intros [].
Qed.

(** Scenario B with the indicator requested: one page under the default
    threshold. *)
Lemma loading_stays_on_when_gated_witness :
  let s := sample_state list_options in
  let s1 := exec (createImageList sample_valid (sample_doc true)) s in
  loading_show
    (exec (createImageList_resume sample_valid sample_convert (Fulfilled (sample_work 0 1))
             (sample_doc true)) s1) = true.
Proof.
  intros s s1.
  assert (Hn : ~ gate_accepts (cfg s) (body (sample_work 0 1)))
    by (intros [_ H]; vm_compute in H; apply H; reflexivity).
  apply (loading_stays_on_when_gated sample_valid sample_convert (sample_work 0 1)
           (sample_doc true) (sample_doc true) s eq_refl eq_refl Hn).
Defined.

Lemma handleCenter_moves_tall_manga_only_witness :
  emitted handleCenter active_state = [viewer_move 0 (hiddenHeight 1600 900)]
  /\ handleCenter (sample_state no_options) = (Ok tt, sample_state no_options).
Proof.
  destruct (handleCenter_moves_tall_manga_only active_state) as [Hmove _].
  destruct (handleCenter_moves_tall_manga_only (sample_state no_options)) as [_ Hstill].
  split.
  - apply Hmove; [reflexivity | vm_compute; reflexivity].
  - apply Hstill. left. reflexivity.
Defined.

Lemma download_guarded_by_busy_witness :
  emitted download busy_state = [toast_error msg_task_not_finished]
  /\ states_downloadFromViewer (exec download busy_state) = false
  /\ emitted download showing_state
     = [EVT_fire "crawlIdList" [ {| id := "88179809"; type := "unknown" |} ];
        toast_show msg_download_request_sent].
Proof.
  destruct (download_guarded_by_busy busy_state) as [Hbusy _].
  destruct (download_guarded_by_busy showing_state) as [_ Hfree].
  destruct (Hbusy eq_refl) as (_ & He & Hd).
  destruct (Hfree eq_refl) as (_ & He' & _).
  split; [exact He|]. split; [exact Hd | exact He'].
Defined.




Lemma scroll_restored_on_hide_witness :
  window_scroll (run (sample_events ++ [E_hide]) showing_state) = (0%Q, 120%Q).
Proof.
  assert (Hv : myViewer active_state <> None) by (vm_compute; discriminate).
  assert (Hall : Forall (fun e => e <> E_shown) sample_events)
    by (repeat constructor; discriminate).
  destruct (scroll_restored_on_hide active_state sample_events Hv Hall)
    as (_ & _ & Hw & _).
  exact Hw.
Defined.

(** C3.  With [insertPostion] at its default [beforeend], the list shown
    and the target present, the container is inserted [beforebegin];
    nothing is inserted at the configured position. *)
Example insertPostion_default_not_honoured :
  let s := sample_state list_options in
  let s1 := exec (createImageList sample_valid (sample_doc true)) s in
  let m := createImageList_resume sample_valid sample_convert (Fulfilled (sample_work 0 5))
             (sample_doc true) in
  insertPostion (cfg s1) = beforeend
  /\ emitted m s1
     = [loading_show_set false; theme_register;
        insertAdjacentElement "div#root" beforebegin; new_Viewer;
        new_Image "https://i.pximg.net/img-original/img/88179809_p0.png"]
  /\ ~ In (insertAdjacentElement "div#root" (insertPostion (cfg s1))) (emitted m s1).
Proof.
  intros s s1 m.
  assert (He : emitted m s1
               = [loading_show_set false; theme_register;
                  insertAdjacentElement "div#root" beforebegin; new_Viewer;
                  new_Image "https://i.pximg.net/img-original/img/88179809_p0.png"])
    by (vm_compute; reflexivity).
  split; [reflexivity|]. split; [exact He|].
  rewrite He. cbn. intuition discriminate.
Qed.

(** * Further properties *)

(** ** The list and the preloads *)

Lemma replace_same (s pat : string) : JS.replace s pat pat = s.
Proof.
  unfold JS.replace.
  destruct (JS.find_first pat s) as [[a b]|] eqn:F; [|reflexivity].
  symmetry. now apply find_first_sound.
Qed.

Lemma fullURL_zero (u : string) : fullURL u 0 = u.
Proof. unfold fullURL. apply replace_same. Qed.

Lemma configureViewer_emits p u s :
  emitted (configureViewer p u) s
  = ([new_Viewer; new_Image u]
     ++ (if autoStart (cfg s) then [viewer_show] else []))%list.
Proof. js_unfold. cbn. js_cases; trace_norm; reflexivity. Qed.

Lemma dispatch_viewed i s v :
  myViewer s = Some v ->
  dispatch (E_viewed i) s
  = (Ok tt,
     set_trace
       (trace s
        ++ (if fullscreenElement s then [viewer_zoomTo 1] else [])
        ++ emitted handleCenter s
        ++ [new_Image (fullURL (v_firstBigImgURL v)
                         (if Z.of_nat i <? v_pageCount v - 1 then S i else i))]) s).
Proof.
  intros Hv.
  unfold emitted, exec, dispatch, on_viewed, viewed, isFullscreen, when,
    bind, gets, emit, modify, ret, fullURL.
  rewrite Hv. cbn -[handleCenter].
  destruct (fullscreenElement s); cbn -[handleCenter];
    rewrite !handleCenter_cases; unfold is_manga; cbn;
    destruct (match workData s with
              | Some d => illustType (body d) =? 1
              | None => false
              end && (innerHeight s <? image_height s)); cbn;
    trace_norm; rewrite ?skipn_all; cbn; rewrite ?List.app_nil_r;
    try reflexivity; now rewrite set_trace_same.
Qed.

Section ListAndPreloads.

Variable convertArtworkThumbURL : string -> nat -> string.

(** X1.  The first entry of the list carries the resolved first-page URL
    itself, and that URL is what [configureViewer] requests right after
    it has built the widget. *)
Theorem first_entry_is_the_preloaded_url p t u s :
  0 < p ->
  nth_error (thumbnail_html convertArtworkThumbURL p t u) 0
  = Some (li (convertArtworkThumbURL t 0) u)
  /\ emitted (configureViewer p u) s
     = ([new_Viewer; new_Image u]
        ++ (if autoStart (cfg s) then [viewer_show] else []))%list.
Proof.
  intros Hp. split.
  - rewrite (thumbnail_html_nth convertArtworkThumbURL p t u 0) by lia.
    now rewrite fullURL_zero.
  - apply configureViewer_emits.
Qed.

(** X2.  At a [viewed] event for a page of the work, the image requested
    is the full-image URL of an entry of the list: the next entry, or the
    last one again when the last page is on display.  No page past the
    last is ever requested. *)
Theorem preload_is_a_list_entry p t u i s :
  myViewer s = Some {| v_pageCount := p; v_firstBigImgURL := u |} ->
  Z.of_nat i < p ->
  let next := if Z.of_nat i <? p - 1 then S i else i in
  (next < Z.to_nat p)%nat
  /\ In (new_Image (fullURL u next)) (emitted (dispatch (E_viewed i)) s)
  /\ nth_error (thumbnail_html convertArtworkThumbURL p t u) next
     = Some (li (convertArtworkThumbURL t next) (fullURL u next)).
Proof.
  intros Hv Hi next.
  assert (Hn : (next < Z.to_nat p)%nat).
  { subst next. destruct (Z.ltb_spec (Z.of_nat i) (p - 1)); lia. }
  split; [exact Hn|]. split.
  - unfold emitted, exec. rewrite (dispatch_viewed i s _ Hv).
    cbn [snd trace set_trace v_pageCount v_firstBigImgURL].
    rewrite skipn_own_length.
    apply in_or_app. right. apply in_or_app. right. now left.
  - now apply thumbnail_html_nth.
Qed.

End ListAndPreloads.

(** ** Failures and edges of the activation *)

Section ActivationEdges.

Variable valid_selector : string -> bool.
Variable convertArtworkThumbURL : string -> nat -> string.

Lemma createImageList_fetch_trace doc s :
  result (createImageList valid_selector doc) s = Ok Awaiting ->
  trace (exec (createImageList valid_selector doc) s)
  = (trace s
     ++ (if showLoading (cfg s) then [loading_show_set true] else [])
     ++ [API_getArtworkData (workId (cfg s))])%list.
Proof.
  intros H. apply createImageList_awaiting_iff in H.
  js_unfold. cbn.
  destruct H as [->|[-> [e ->]]]; [|destruct (showImageList (cfg s))]; cbn;
    js_cases; trace_norm; reflexivity.
Qed.

Lemma mount_one_awaiting docs k s :
  result (createImageList valid_selector (docs k)) s = Ok Awaiting ->
  mount valid_selector 1 docs k s = createImageList valid_selector (docs k) s.
Proof.
  cbn [mount]. unfold bind, result.
  destruct (createImageList valid_selector (docs k) s) as [[o|e] s']; cbn.
  - intros H. injection H as ->. reflexivity.
  - discriminate.
Qed.

(** Once a call did not re-schedule itself, no later call happens. *)
Lemma mount_settled docs n : forall extra k s,
  result (mount valid_selector n docs k) s <> Ok Rescheduled ->
  mount valid_selector (n + extra) docs k s = mount valid_selector n docs k s.
Proof.
  induction n as [|n IH]; intros extra k s H.
  - exfalso. apply H. reflexivity.
  - cbn [Nat.add mount] in *. unfold bind, result in *.
    destruct (createImageList valid_selector (docs k) s) as [[o|e] s'];
      [|reflexivity].
    destruct o; try reflexivity. now apply IH.
Qed.

(** X3.  When the metadata request fails, [createImageList] ends with that
    failure and nothing has been built: no widget, an empty list, and a
    loading indicator that was switched on for the request is still on. *)
Theorem fetch_failure_builds_nothing doc0 doc s :
  result (createImageList valid_selector doc0) s = Ok Awaiting ->
  let s1 := exec (createImageList valid_selector doc0) s in
  createImageList_resume valid_selector convertArtworkThumbURL Rejected doc s1
  = (Throw Rejection, s1)
  /\ myViewer s1 = myViewer s
  /\ ul_innerHTML (viewerWarpper s1) = ""
  /\ loading_show s1 = showLoading (cfg s) || loading_show s.
Proof.
  intros Hr s1.
  destruct (createImageList_fetches valid_selector doc0 s Hr)
    as (_ & _ & Hl & Hul & Hv).
  repeat split; assumption.
Qed.

(** X4.  With a list to show and an insertion selector the browser cannot
    parse (the default empty one among them), the first call of
    [createImageList] throws: no timer is armed and no request made, so
    there is no second call however long one waits. *)
Theorem unparsable_selector_aborts_mounting docs n s :
  showImageList (cfg s) = true ->
  valid_selector (insertTarget (cfg s)) = false ->
  mount valid_selector (S n) docs 0 s = (Throw SyntaxError, s).
Proof.
  intros Hs Hv. cbn [mount]. unfold bind.
  now rewrite (createImageList_invalid valid_selector (docs 0%nat) s Hs Hv).
Qed.

(** X5.  Once the insertion point is found the polling is over: however
    many timer firings one allows for, the log holds the timers of the
    calls that found nothing, followed by one metadata request. *)
Theorem mounting_requests_once docs n e extra s :
  showImageList (cfg s) = true ->
  valid_selector (insertTarget (cfg s)) = true ->
  (forall k, (k < n)%nat -> docs k (insertTarget (cfg s)) = None) ->
  docs n (insertTarget (cfg s)) = Some e ->
  let m := mount valid_selector (S n + extra) docs 0 in
  result m s = Ok Awaiting
  /\ emitted m s
     = (repeat (setTimeout_createImageList 300) n
        ++ (if showLoading (cfg s) then [loading_show_set true] else [])
        ++ [API_getArtworkData (workId (cfg s))])%list.
Proof.
  intros Hs Hv Hd He m.
  set (s' := set_trace (trace s ++ repeat (setTimeout_createImageList 300) n) s).
  assert (Hr : result (createImageList valid_selector (docs n)) s' = Ok Awaiting).
  { apply createImageList_awaiting_iff. right. split; [exact Hv|]. now exists e. }
  assert (Hm : mount valid_selector (S n) docs 0 s
               = createImageList valid_selector (docs n) s').
  { replace (S n) with (n + 1)%nat by lia.
    rewrite (mount_after_waits valid_selector docs s n 1 0 s eq_refl Hs Hv)
      by (intros j Hj; apply Hd; lia).
    now apply mount_one_awaiting. }
  assert (Hm' : m s = createImageList valid_selector (docs n) s').
  { subst m. rewrite mount_settled; [exact Hm|].
    unfold result. rewrite Hm. fold (result (createImageList valid_selector (docs n)) s').
    rewrite Hr. discriminate. }
  split.
  - unfold result. rewrite Hm'. exact Hr.
  - unfold emitted, exec. rewrite Hm'.
    fold (exec (createImageList valid_selector (docs n)) s').
    rewrite (createImageList_fetch_trace (docs n) s' Hr).
    subst s'. cbn [trace set_trace cfg]. rewrite <- List.app_assoc.
    now rewrite skipn_own_length.
Qed.

(** X6.  A threshold of zero or less lets a work without pages through
    the gate: the widget is then built over an empty list. *)
Theorem pageless_work_gets_empty_list wd doc s :
  (showImageList (cfg s) = true -> valid_selector (insertTarget (cfg s)) = true) ->
  gate_accepts (cfg s) (body wd) ->
  pageCount (body wd) <= 0 ->
  let m := createImageList_resume valid_selector convertArtworkThumbURL (Fulfilled wd) doc in
  result m s = Ok Activated
  /\ In new_Viewer (emitted m s)
  /\ ul_innerHTML (viewerWarpper (exec m s)) = "".
Proof.
  intros Hv Ha Hp m.
  destruct (resume_accepted valid_selector convertArtworkThumbURL wd doc s Hv Ha)
    as (Hr & Hw & _).
  split; [exact Hr|]. split; [exact Hw|].
  subst m. rewrite (resume_markup valid_selector convertArtworkThumbURL wd doc s Ha).
  rewrite thumbnail_html_seq.
  replace (Z.to_nat (pageCount (body wd))) with O by lia. reflexivity.
Qed.

End ActivationEdges.

(** ** What the listeners keep *)

Lemma ambient_kept_refl s : ambient_kept s s.
Proof. unfold ambient_kept. tauto. Qed.

Lemma ambient_kept_trans s1 s2 s3 :
  ambient_kept s1 s2 -> ambient_kept s2 s3 -> ambient_kept s1 s3.
Proof.
  unfold ambient_kept.
  intros (A1 & A2 & A3 & A4 & A5 & A6 & A7) (B1 & B2 & B3 & B4 & B5 & B6 & B7).
  repeat split; try congruence. auto.
Qed.

Lemma ambient_kept_log s t : ambient_kept s (set_trace t s).
Proof. unfold ambient_kept. cbn. tauto. Qed.

Lemma dispatch_keeps_ambient e : steps_within ambient_kept (dispatch e).
Proof.
  destruct e; unfold_listeners;
    steps_with ambient_kept_refl ambient_kept_trans ambient_kept_log
      ltac:(unfold ambient_kept; cbn; tauto).
Qed.

(** X7.  Whatever events arrive, in whatever order, the listeners leave
    the configuration, the busy flag, the loading indicator, the fetched
    data, the widget and the list as they were, and never clear
    [downloadFromViewer] once it is set. *)
Theorem listeners_keep_ambient_state evs s :
  let s' := run evs s in
  cfg s' = cfg s
  /\ states_busy s' = states_busy s
  /\ loading_show s' = loading_show s
  /\ workData s' = workData s
  /\ myViewer s' = myViewer s
  /\ viewerWarpper s' = viewerWarpper s
  /\ (states_downloadFromViewer s = true -> states_downloadFromViewer s' = true).
Proof.
  apply (steps_run ambient_kept ambient_kept_refl ambient_kept_trans (fun _ => True)).
  - intros e _. apply dispatch_keeps_ambient.
  - apply Forall_forall. auto.
Qed.

Lemma same_show_trans s1 s2 s3 : same_show s1 s2 -> same_show s2 s3 -> same_show s1 s3.
Proof. unfold same_show. congruence. Qed.

Lemma dispatch_keeps_show e :
  e <> E_shown -> e <> E_hide -> steps_within same_show (dispatch e).
Proof.
  intros H1 H2.
  destruct e; try congruence; unfold_listeners;
    steps_with (fun s => eq_refl (show s)) same_show_trans
      (fun (s : St) (t : list Effect) => eq_refl (show s))
      ltac:(reflexivity).
Qed.

(** X8.  The [show] flag is written by the [shown] and [hide] listeners
    only: any run of other events leaves it as it was. *)
Theorem show_changes_only_at_shown_and_hide evs s :
  Forall (fun e => e <> E_shown /\ e <> E_hide) evs ->
  show (run evs s) = show s.
Proof.
  intros Hall.
  apply (steps_run same_show (fun s => eq_refl (show s)) same_show_trans
           (fun e => e <> E_shown /\ e <> E_hide)); [|exact Hall].
  intros e [H1 H2]. now apply dispatch_keeps_show.
Qed.

Lemma stays_hidden_trans s1 s2 s3 :
  stays_hidden s1 s2 -> stays_hidden s2 s3 -> stays_hidden s1 s3.
Proof. unfold stays_hidden. auto. Qed.

Lemma dispatch_stays_hidden e : e <> E_shown -> steps_within stays_hidden (dispatch e).
Proof.
  intros H1.
  destruct e; try congruence; unfold_listeners;
    steps_with (fun (s : St) (H : show s = false) => H) stays_hidden_trans
      (fun (s : St) (t : list Effect) (H : show s = false) => H)
      ltac:(unfold stays_hidden; cbn; auto).
Qed.

(** X9.  From the moment the widget is hidden until it is shown again, no
    key does anything, whatever else happens in between. *)
Theorem hotkeys_dead_after_hide evs ev s :
  myViewer s <> None ->
  Forall (fun e => e <> E_shown) evs ->
  let s' := run (E_hide :: evs) s in
  keydown ev s' = (Ok false, s').
Proof.
  intros Hv Hall s'. apply keydown_hidden.
  subst s'. cbn [run].
  destruct (hide_restores_snapshot s Hv) as (Hh & _).
  revert Hh.
  apply (steps_run stays_hidden (fun (s : St) (H : show s = false) => H)
           stays_hidden_trans (fun e => e <> E_shown)); [|exact Hall].
  intros e He. now apply dispatch_stays_hidden.
Qed.

(** ** Keys *)

Lemma addBookmark_run s :
  addBookmark s
  = (Ok tt,
     set_trace (trace s ++ [toast_show msg_bookmark;
                            Bookmark_add (workId (cfg s)) "illusts" (workData s)]) s).
Proof. js_handlers. cbn. now rewrite <- List.app_assoc. Qed.

Lemma download_run s :
  download s
  = if states_busy s
    then (Ok tt, set_trace (trace s ++ [toast_error msg_task_not_finished]) s)
    else (Ok tt,
          set_trace (trace s ++ [EVT_fire "crawlIdList"
                                   [ {| id := workId (cfg s); type := "unknown" |} ];
                                 toast_show msg_download_request_sent])
            (set_downloadFromViewer true s)).
Proof.
  js_handlers. cbn. destruct (states_busy s); cbn; [reflexivity|].
  now rewrite <- List.app_assoc.
Qed.

Lemma keydown_arrow_shown ev s :
  show s = true -> is_arrow ev = true ->
  keydown ev s
  = (Ok true,
     set_trace (trace s ++ [stopPropagation;
                            if String.eqb (code ev) "ArrowLeft"
                            then viewer_prev true else viewer_next true]) s).
Proof.
  unfold is_arrow. intros Hs Ha.
  unfold keydown, keydown_arrows, bind, gets, emit, modify, ret.
  rewrite Ha. cbn. rewrite Hs. cbn.
  destruct (String.eqb (code ev) "ArrowLeft"); cbn; now rewrite <- List.app_assoc.
Qed.

(** What a key other than the arrows does in a showing widget. *)
Lemma keydown_shown_run ev s :
  show s = true -> is_arrow ev = false ->
  keydown ev s
  = if String.eqb (code ev) "KeyF" then
      if fullscreenElement s
      then (Ok false, set_trace (trace s ++ [exitFullscreen]) s)
      else match Dom.toggleBottomBtns false (page s) with
           | Dom.Returned doc' _ =>
               (Ok false, set_trace (trace s ++ [requestFullscreen]) (set_page doc' s))
           | Dom.TypeError => (Throw TypeError, s)
           end
    else if altKey ev && String.eqb (code ev) "KeyB" then (Ok false, exec addBookmark s)
    else if String.eqb (code ev) "KeyD" then (Ok false, exec download s)
    else (Ok false, s).
Proof.
  unfold is_arrow. intros Hs Ha.
  destruct (String.eqb (code ev) "KeyF") eqn:EF.
  - apply String.eqb_eq in EF.
    rewrite (keydown_F_alone ev s EF), (keydown_F_shown ev s EF Hs),
      enterFullScreenMode_run.
    destruct (fullscreenElement s); [reflexivity|].
    destruct (Dom.toggleBottomBtns false (page s)); reflexivity.
  - unfold exec, keydown, keydown_arrows, keydown_F, keydown_AltB, keydown_D,
      and_listener, bind, gets, ret.
    rewrite Ha, EF.
    destruct (altKey ev && String.eqb (code ev) "KeyB") eqn:EB.
    + apply andb_true_iff in EB. destruct EB as [_ EB]. apply String.eqb_eq in EB.
      rewrite EB. cbn -[addBookmark]. rewrite Hs, addBookmark_run. reflexivity.
    + destruct (String.eqb (code ev) "KeyD") eqn:ED; cbn -[download]; rewrite ?Hs;
        [|reflexivity].
      rewrite download_run. destruct (states_busy s); reflexivity.
Qed.

(** A key press ends in one of three ways. *)
Lemma keydown_verdict ev s :
  (show s = true /\ is_arrow ev = true
   /\ result (keydown ev) s = Ok true
   /\ In stopPropagation (emitted (keydown ev) s))
  \/ (is_arrow ev = false
      /\ show s = true /\ code ev = "KeyF" /\ fullscreenElement s = false
      /\ Dom.querySelector (Dom.by_class "viewer-container") (page s) = None
      /\ keydown ev s = (Throw TypeError, s))
  \/ ((show s = false \/ is_arrow ev = false)
      /\ (show s = true -> code ev = "KeyF" -> fullscreenElement s = false ->
          Dom.querySelector (Dom.by_class "viewer-container") (page s) <> None)
      /\ result (keydown ev) s = Ok false
      /\ ~ In stopPropagation (emitted (keydown ev) s)).
Proof.
  assert (Hquiet : forall st l,
            (forall x, In x l -> x <> stopPropagation) ->
            ~ In stopPropagation
                (skipn (List.length (trace s)) (trace (set_trace (trace s ++ l) st)))).
  { intros st l Hl. cbn [trace set_trace]. rewrite skipn_own_length.
    intros H. exact (Hl _ H eq_refl). }
  destruct (show s) eqn:Es.
  2:{ right. right. unfold result, emitted, exec. rewrite (keydown_hidden ev s Es).
      cbn [fst snd]. rewrite skipn_all.
      split; [now left|]. split; [discriminate|]. split; [reflexivity|]. intros []. }
  destruct (is_arrow ev) eqn:Ea.
  { left. unfold result, emitted, exec. rewrite (keydown_arrow_shown ev s Es Ea).
    cbn [fst snd trace set_trace]. rewrite skipn_own_length.
    repeat split. now left. }
  right. unfold result, emitted, exec. rewrite (keydown_shown_run ev s Es Ea).
  destruct (String.eqb (code ev) "KeyF") eqn:EF.
  - apply String.eqb_eq in EF.
    destruct (fullscreenElement s) eqn:Ef.
    + right. cbn [fst snd].
      split; [now right|]. split; [discriminate|]. split; [reflexivity|].
      apply Hquiet. intros x [<-|[]]. discriminate.
    + destruct (Dom.toggleBottomBtns false (page s)) as [doc' out|] eqn:ET.
      * right. cbn [fst snd].
        split; [now right|]. split.
        { intros _ _ _ Hq.
          rewrite (proj2 (toggleBottomBtns_TypeError false (page s)) Hq) in ET.
          discriminate ET. }
        split; [reflexivity|].
        change (trace s) with (trace (set_page doc' s)) at 2.
        cbn [trace set_trace set_page]. rewrite skipn_own_length.
        intros [H|[]]. discriminate H.
      * left. pose proof (proj1 (toggleBottomBtns_TypeError false (page s)) ET).
        repeat split; auto.
  - right.
    assert (Hnf : forall P Q : Prop, P -> code ev = "KeyF" -> Q)
      by (intros P Q _ Hc; rewrite Hc in EF; discriminate EF).
    destruct (altKey ev && String.eqb (code ev) "KeyB").
    + unfold exec. rewrite addBookmark_run. cbn [fst snd].
      split; [now right|]. split; [exact (Hnf _ _)|]. split; [reflexivity|].
      apply Hquiet. intros x [<-|[<-|[]]]; discriminate.
    + destruct (String.eqb (code ev) "KeyD").
      * unfold exec. rewrite download_run.
        destruct (states_busy s); cbn [fst snd];
          (split; [now right|]); (split; [exact (Hnf _ _)|]); (split; [reflexivity|]).
        -- apply Hquiet. intros x [<-|[]]; discriminate.
        -- cbn [trace set_trace set_downloadFromViewer]. rewrite skipn_own_length.
           intros [H|[H|[]]]; discriminate H.
      * cbn [fst snd]. rewrite skipn_all.
        split; [now right|]. split; [exact (Hnf _ _)|]. split; [reflexivity|]. intros [].
Qed.

(** X10.  A key press is kept from the host page (its propagation
    stopped) exactly when the widget shows and the key is an arrow: every
    other key, and the arrows while the widget is hidden, reach the page's
    own listeners.  A key press fails in one case only, with a
    [TypeError]: F in a showing widget outside fullscreen when the page
    holds no viewer container. *)
Theorem propagation_stopped_iff_arrow_while_shown ev s :
  (result (keydown ev) s = Ok true <-> show s = true /\ is_arrow ev = true)
  /\ (In stopPropagation (emitted (keydown ev) s)
      <-> show s = true /\ is_arrow ev = true)
  /\ (forall e,
      result (keydown ev) s = Throw e
      <-> e = TypeError
          /\ show s = true
          /\ code ev = "KeyF"
          /\ fullscreenElement s = false
          /\ Dom.querySelector (Dom.by_class "viewer-container") (page s) = None).
Proof.
  destruct (keydown_verdict ev s)
    as [(Hs & Ha & Hr & Hin)|[(Ha & Hs & Hc & Hf & Hq & Hk)|(Hor & Hnf & Hr & Hnin)]].
  - split; [|split; [|intros e]]; split; auto.
    + rewrite Hr. discriminate.
    + intros (_ & _ & Hc & _). unfold is_arrow in Ha. rewrite Hc in Ha. discriminate Ha.
  - unfold result, emitted, exec. rewrite Hk. cbn [fst snd]. rewrite skipn_all.
    split; [|split; [|intros e]]; split.
    + discriminate.
    + intros [_ H]. congruence.
    + intros [].
    + intros [_ H]. congruence.
    + intros H. injection H as <-. repeat split; assumption.
    + now intros (-> & _).
  - split; [|split; [|intros e]]; split.
    + rewrite Hr. discriminate.
    + intros [H1 H2]. destruct Hor; congruence.
    + intros H. now apply Hnin in H.
    + intros [H1 H2]. destruct Hor; congruence.
    + rewrite Hr. discriminate.
    + intros (_ & H1 & H2 & H3 & H4). exfalso. exact (Hnf H1 H2 H3 H4).
Qed.

(** X11.  A key no listener is bound to changes nothing and logs
    nothing, also while the widget shows: in particular B without Alt is
    left to the page. *)
Theorem unbound_keys_are_ignored ev s :
  is_bound ev = false -> keydown ev s = (Ok false, s).
Proof.
  unfold is_bound, is_arrow. intros H.
  apply orb_false_iff in H. destruct H as [H HB].
  apply orb_false_iff in H. destruct H as [H HD].
  apply orb_false_iff in H. destruct H as [H HF].
  apply orb_false_iff in H. destruct H as [HL HR].
  js_handlers. cbn. rewrite HL, HR, HF, HD, HB. reflexivity.
Qed.

(** ** Fullscreen, closing, bookmarking *)

Lemma run_trace_cons e evs s : run (e :: evs) s = run evs (exec (dispatch e) s).
Proof. reflexivity. Qed.

(** X12.  Pressing F in a showing, windowed widget whose page holds a
    viewer container hides the toolbar controls and asks for fullscreen,
    and nothing more; the 150 ms timer is armed only when the request is
    granted, and the zoom to 100% and the centering belong to that timer,
    in this order, the centering going by the heights found then.  When
    the page holds no viewer container the key press throws and nothing
    is asked for. *)
Theorem fullscreen_zoom_waits_for_timer ev wh ih s :
  show s = true ->
  fullscreenElement s = false ->
  code ev = "KeyF" ->
  let evs := [E_keydown ev; E_fullscreen_granted; E_fullscreenchange true;
              E_layout_changed wh ih; E_zoom_timer] in
  match Dom.toggleBottomBtns false (page s) with
  | Dom.TypeError =>
      Dom.querySelector (Dom.by_class "viewer-container") (page s) = None
      /\ keydown ev s = (Throw TypeError, s)
  | Dom.Returned doc' _ =>
      Dom.querySelector (Dom.by_class "viewer-container") (page s) <> None
      /\ keydown ev s
         = (Ok false, set_trace (trace s ++ [requestFullscreen]) (set_page doc' s))
      /\ page (run evs s) = doc'
      /\ trace (run evs s)
         = (trace s
            ++ [requestFullscreen; setTimeout_zoom 150; viewer_zoomTo 1]
            ++ emitted handleCenter (set_layout wh ih s))%list
  end.
Proof.
  intros Hs Hf Hc evs.
  assert (Ha : is_arrow ev = false) by (unfold is_arrow; now rewrite Hc).
  pose proof (keydown_shown_run ev s Hs Ha) as Hk.
  rewrite Hc, Hf in Hk. cbn [String.eqb Ascii.eqb Bool.eqb] in Hk.
  destruct (Dom.toggleBottomBtns false (page s)) as [doc' out|] eqn:ET.
  2:{ split; [exact (proj1 (toggleBottomBtns_TypeError false (page s)) ET)|exact Hk]. }
  split.
  { intros Hq. rewrite (proj2 (toggleBottomBtns_TypeError false (page s)) Hq) in ET.
    discriminate ET. }
  split; [exact Hk|].
  subst evs. cbn [run]. unfold exec at 5 10. unfold dispatch at 5 10.
  unfold bind, ret. rewrite Hk. cbn -[handleCenter emitted].
  unfold exec, dispatch, enterFullScreenMode_then, enterFullScreenMode_timer,
    on_fullscreenchange, isFullscreen, when, bind, gets, emit, modify, ret.
  cbn -[handleCenter emitted].
  destruct (isSome (myViewer s) && false) eqn:E;
    [rewrite andb_false_r in E; discriminate E|].
  cbn -[handleCenter emitted].
  unfold emitted, exec. rewrite !handleCenter_cases. unfold is_manga. cbn.
  destruct (match workData s with
            | Some d => illustType (body d) =? 1
            | None => false
            end && (wh <? ih)); cbn;
    trace_norm; rewrite ?skipn_all, ?skipn_own_length; cbn;
    rewrite ?List.app_nil_r; split; reflexivity.
Qed.

(** X13.  Closing the widget, [hide] then [hidden]: the flag drops, the
    window goes back to the stored position, and fullscreen is left if
    and only if the document is still in it; nothing else is asked of the
    browser or the widget. *)
Theorem closing_restores_scroll_and_leaves_fullscreen s :
  myViewer s <> None ->
  let s' := run [E_hide; E_hidden] s in
  show s' = false
  /\ window_scroll s' = (scrollX s, scrollY s)
  /\ trace s'
     = (trace s
        ++ [window_scrollTo (scrollX s) (scrollY s)]
        ++ (if fullscreenElement s then [exitFullscreen] else []))%list.
Proof.
  intros Hv s'. subst s'. cbn [run].
  js_handlers. cbn.
  destruct (myViewer s) eqn:E; [|congruence]. cbn. rewrite ?E. cbn.
  destruct (fullscreenElement s); cbn; trace_norm; repeat split.
Qed.

(** X14.  Bookmarking, unlike downloading, does not look at the busy
    flag: Alt+B in a showing widget announces the bookmark and hands the
    work id, the category and the stored work data to [Bookmark.add]
    whether or not a crawl is running.  The success message follows only
    when that call is fulfilled; when it is rejected the rejection
    escapes and nothing more is shown. *)
Theorem bookmark_ignores_busy ev r s :
  show s = true ->
  altKey ev = true ->
  code ev = "KeyB" ->
  emitted (keydown ev) s
  = [toast_show msg_bookmark; Bookmark_add (workId (cfg s)) "illusts" (workData s)]
  /\ emitted (dispatch (E_bookmark_settled r)) (exec (keydown ev) s)
     = match r with
       | Fulfilled _ => [toast_success msg_bookmarked]
       | Rejected => []
       end
  /\ (r = Rejected ->
      result (dispatch (E_bookmark_settled r)) (exec (keydown ev) s) = Throw Rejection).
Proof.
  intros Hs Ha Hc.
  assert (Hk : keydown ev s
               = (Ok false,
                  set_trace (trace s ++ [toast_show msg_bookmark;
                                         Bookmark_add (workId (cfg s)) "illusts" (workData s)])
                    s)).
  { js_handlers. rewrite Hc, Ha. cbn. rewrite Hs. cbn. trace_norm. reflexivity. }
  assert (Hx : exec (keydown ev) s
               = set_trace (trace s ++ [toast_show msg_bookmark;
                                        Bookmark_add (workId (cfg s)) "illusts" (workData s)])
                   s)
    by (unfold exec; now rewrite Hk).
  unfold emitted at 1. rewrite Hx. cbn [trace set_trace].
  rewrite skipn_own_length.
  split; [reflexivity|]. split.
  - clear Hk Hx. js_handlers.
    destruct r as [[]|]; cbn; rewrite ?skipn_own_length, ?skipn_all; reflexivity.
  - intros ->. reflexivity.
Qed.

(** ** The toolbar in the document *)

Section DomFacts.

Import Dom.
Local Open Scope list_scope.
Local Open Scope nat_scope.

(** *** Queries *)

Lemma first_from_none p l : forall k,
  first_from p k l = None <-> (forall n, In n l -> p n = false).
Proof.
  induction l as [|x l IH]; intros k; cbn.
  - split; [intros _ n []|reflexivity].
  - destruct (p x) eqn:E.
    + split; [discriminate|]. intros H. rewrite (H x) in E by now left. discriminate.
    + rewrite IH. split.
      * intros H n [<-|Hn]; auto.
      * intros H n Hn. apply H. now right.
Qed.

Lemma first_from_some p l : forall k j,
  first_from p k l = Some j ->
  (k <= j)%nat
  /\ (exists n, nth_error l (j - k) = Some n /\ p n = true)
  /\ (forall i m, (i < j - k)%nat -> nth_error l i = Some m -> p m = false).
Proof.
  induction l as [|x l IH]; intros k j H; cbn in H; [discriminate|].
  destruct (p x) eqn:E.
  - injection H as <-. rewrite Nat.sub_diag. repeat split.
    + lia.
    + exists x. now split.
    + intros i m Hi. lia.
  - destruct (IH _ _ H) as (Hle & (n & Hn & Hp) & Hbefore).
    repeat split.
    + lia.
    + exists n. replace (j - k)%nat with (S (j - S k)) by lia. now split.
    + intros i m Hi Hm. destruct i as [|i]; cbn in Hm.
      * now injection Hm as <-.
      * apply (Hbefore i m); [lia|exact Hm].
Qed.

Lemma first_from_app p l1 l2 : forall k,
  first_from p k (l1 ++ l2)
  = match first_from p k l1 with
    | Some j => Some j
    | None => first_from p (k + List.length l1) l2
    end.
Proof.
  induction l1 as [|x l1 IH]; intros k; cbn.
  - now rewrite Nat.add_0_r.
  - destruct (p x); [reflexivity|].
    rewrite IH. now replace (S k + List.length l1)%nat with (k + S (List.length l1))%nat by lia.
Qed.

Lemma first_from_found p l k n :
  In n l -> p n = true -> first_from p k l <> None.
Proof.
  intros Hin Hp H. rewrite first_from_none in H.
  rewrite (H n Hin) in Hp. discriminate.
Qed.

Lemma all_from_app p l1 l2 : forall k,
  all_from p k (l1 ++ l2)
  = (all_from p k l1 ++ all_from p (k + List.length l1) l2)%list.
Proof.
  induction l1 as [|x l1 IH]; intros k; cbn.
  - now rewrite Nat.add_0_r.
  - rewrite IH.
    replace (S k + List.length l1)%nat with (k + S (List.length l1))%nat by lia.
    now destruct (p x).
Qed.

Lemma all_from_nil p l : forall k,
  all_from p k l = [] <-> (forall n, In n l -> p n = false).
Proof.
  induction l as [|x l IH]; intros k; cbn.
  - split; [intros _ n []|reflexivity].
  - destruct (p x) eqn:E.
    + split; [discriminate|]. intros H. rewrite (H x) in E by now left. discriminate.
    + rewrite IH. split.
      * intros H n [<-|Hn]; auto.
      * intros H n Hn. apply H. now right.
Qed.

Lemma all_from_length p l : forall k k',
  List.length (all_from p k l) = List.length (all_from p k' l).
Proof.
  induction l as [|x l IH]; intros k k'; cbn; [reflexivity|].
  destruct (p x); cbn; now rewrite (IH (S k) (S k')).
Qed.

Lemma all_from_range p l : forall k j,
  In j (all_from p k l) ->
  (k <= j < k + List.length l)%nat
  /\ exists n, nth_error l (j - k) = Some n /\ p n = true.
Proof.
  induction l as [|x l IH]; intros k j H; cbn in H; [destruct H|].
  assert (Hrec : In j (all_from p (S k) l) ->
                 (k <= j < k + List.length (x :: l))%nat
                 /\ exists n, nth_error (x :: l) (j - k) = Some n /\ p n = true).
  { intros H'. destruct (IH _ _ H') as (Hr & n & Hn & Hp). cbn [List.length].
    split; [lia|]. exists n.
    replace (j - k)%nat with (S (j - S k)) by lia. now split. }
  destruct (p x) eqn:E; [|now apply Hrec].
  destruct H as [<-|H]; [|now apply Hrec].
  cbn [List.length]. split; [lia|]. exists x. rewrite Nat.sub_diag. now split.
Qed.

Lemma last_index_in l k : last_index l = Some k -> In k l.
Proof.
  induction l as [|x l IH]; cbn; [discriminate|].
  destruct l as [|y l].
  - intros H. injection H as <-. now left.
  - intros H. right. now apply IH.
Qed.

Lemma last_index_none l : last_index l = None <-> l = [].
Proof.
  induction l as [|x l IH]; cbn; [tauto|].
  destruct l as [|y l]; split; try discriminate.
  intros H. apply IH in H. discriminate.
Qed.

Lemma last_index_app l k : last_index (l ++ [k]) = Some k.
Proof.
  induction l as [|x l IH]; cbn; [reflexivity|].
  destruct (l ++ [k])%list eqn:E; [destruct l; discriminate|]. exact IH.
Qed.

(** *** Changes that keep the shape *)

Lemma pointwise_length F l : forall k, List.length (pointwise F k l) = List.length l.
Proof. induction l as [|x l IH]; intros k; cbn; [reflexivity|]. now rewrite IH. Qed.

Lemma pointwise_nth F l : forall k i,
  nth_error (pointwise F k l) i = option_map (F (k + i)%nat) (nth_error l i).
Proof.
  induction l as [|x l IH]; intros k i; cbn.
  - now destruct i.
  - destruct i as [|i]; cbn.
    + now rewrite Nat.add_0_r.
    + rewrite IH. now replace (S k + i)%nat with (k + S i)%nat by lia.
Qed.

Lemma pointwise_ext F G l : forall k,
  (forall i n, F i n = G i n) -> pointwise F k l = pointwise G k l.
Proof.
  induction l as [|x l IH]; intros k H; cbn; [reflexivity|].
  now rewrite H, IH.
Qed.

Lemma pointwise_compose F G l : forall k,
  pointwise F k (pointwise G k l) = pointwise (fun i n => F i (G i n)) k l.
Proof.
  induction l as [|x l IH]; intros k; cbn; [reflexivity|]. now rewrite IH.
Qed.

Lemma pointwise_same F l : forall k,
  (forall i n, k <= i -> F i n = n) -> pointwise F k l = l.
Proof.
  induction l as [|x l IH]; intros k H; cbn; [reflexivity|].
  rewrite H by lia. f_equal. apply IH. intros i n Hi. apply H. lia.
Qed.

Lemma update_pointwise f l : forall j k,
  update j f l = pointwise (fun i n => if Nat.eqb i (k + j) then f n else n) k l.
Proof.
  induction l as [|x l IH]; intros j k; [now destruct j|].
  destruct j as [|j]; cbn.
  - rewrite Nat.add_0_r, Nat.eqb_refl. f_equal.
    symmetry. apply pointwise_same. intros i n Hi.
    destruct (Nat.eqb_spec i k); [lia|reflexivity].
  - destruct (Nat.eqb_spec k (k + S j)); [lia|]. f_equal.
    rewrite (IH j (S k)). apply pointwise_ext. intros i n'.
    now replace (S k + j)%nat with (k + S j)%nat by lia.
Qed.

Lemma first_from_pointwise p F l : forall k k',
  (forall i n, p (F i n) = p n) ->
  first_from p k (pointwise F k' l) = first_from p k l.
Proof.
  induction l as [|x l IH]; intros k k' H; cbn; [reflexivity|].
  rewrite H. destruct (p x); [reflexivity|]. now apply IH.
Qed.

Lemma all_from_pointwise p F l : forall k k',
  (forall i n, p (F i n) = p n) ->
  all_from p k (pointwise F k' l) = all_from p k l.
Proof.
  induction l as [|x l IH]; intros k k' H; cbn; [reflexivity|].
  rewrite H, (IH (S k) (S k') H). reflexivity.
Qed.

Lemma skipn_pointwise F l : forall n k,
  skipn n (pointwise F k l) = pointwise F (k + n) (skipn n l).
Proof.
  induction l as [|x l IH]; intros n k; cbn.
  - now destruct n.
  - destruct n as [|n]; cbn.
    + now rewrite Nat.add_0_r.
    + rewrite IH. now replace (S k + n)%nat with (k + S n)%nat by lia.
Qed.

Lemma take_deeper_pointwise F d l : forall k,
  (forall i n, depth (F i n) = depth n) ->
  take_deeper d (pointwise F k l) = pointwise F k (take_deeper d l).
Proof.
  induction l as [|x l IH]; intros k H; cbn [take_deeper pointwise]; [reflexivity|].
  rewrite H. destruct (d <? depth x)%nat; cbn [take_deeper pointwise]; [|reflexivity].
  now rewrite IH.
Qed.

Lemma descendants_pointwise F j doc :
  (forall i n, depth (F i n) = depth n) ->
  descendants j (pointwise F 0 doc) = pointwise F (S j) (descendants j doc).
Proof.
  intros H. unfold descendants. rewrite pointwise_nth.
  destruct (nth_error doc j) as [n|]; cbn [option_map]; [|reflexivity].
  rewrite H, skipn_pointwise. now apply take_deeper_pointwise.
Qed.

Lemma querySelector_in_pointwise F j sel doc :
  (forall i n, depth (F i n) = depth n) ->
  (forall i n, matches sel (F i n) = matches sel n) ->
  querySelector_in j sel (pointwise F 0 doc) = querySelector_in j sel doc.
Proof.
  intros Hd Hm. unfold querySelector_in.
  rewrite descendants_pointwise by exact Hd.
  now apply first_from_pointwise.
Qed.

Lemma pointwise_ext_nth F G l : forall k,
  (forall i n, nth_error l i = Some n -> F (k + i) n = G (k + i) n) ->
  pointwise F k l = pointwise G k l.
Proof.
  induction l as [|x l IH]; intros k H; cbn; [reflexivity|].
  f_equal.
  - specialize (H 0 x eq_refl). now rewrite Nat.add_0_r in H.
  - apply IH. intros i n Hn.
    replace (S k + i) with (k + S i) by lia. now apply H.
Qed.

Lemma all_from_complete p l : forall k i n,
  nth_error l i = Some n -> p n = true -> In (k + i) (all_from p k l).
Proof.
  induction l as [|x l IH]; intros k i n Hn Hp; [now destruct i|].
  destruct i as [|i]; cbn in Hn |- *.
  - injection Hn as ->. rewrite Hp, Nat.add_0_r. now left.
  - replace (k + S i) with (S k + i) by lia.
    destruct (p x); [right|]; now apply (IH (S k) i n).
Qed.

Lemma in_all_from p l i :
  In i (all_from p 0 l) <-> exists n, nth_error l i = Some n /\ p n = true.
Proof.
  split.
  - intros H. destruct (all_from_range p l 0 i H) as (_ & n & Hn & Hp).
    exists n. now rewrite Nat.sub_0_r in Hn.
  - intros (n & Hn & Hp). now apply (all_from_complete p l 0 i n).
Qed.

Lemma existsb_is_at i l : existsb (is_at i) (map Some l) = true <-> In i l.
Proof.
  induction l as [|k l IH]; cbn; [split; [discriminate|tauto]|].
  rewrite orb_true_iff, IH. split.
  - intros [H|H]; [left; symmetry; now apply Nat.eqb_eq|now right].
  - intros [<-|H]; [left; apply Nat.eqb_refl|now right].
Qed.

(** *** The elementary changes *)

Lemma has_class_without c r n :
  c <> r -> has_class c (without_class r n) = has_class c n.
Proof.
  intros Hne. unfold has_class, without_class. cbn.
  induction (classes n) as [|x l IH]; cbn; [reflexivity|].
  destruct (String.eqb_spec r x) as [<-|Hx]; cbn.
  - destruct (String.eqb_spec c r); [congruence|]. exact IH.
  - now rewrite IH.
Qed.

Lemma filter_twice {A : Type} (f : A -> bool) (l : list A) :
  filter f (filter f l) = filter f l.
Proof.
  induction l as [|x l IH]; cbn; [reflexivity|].
  destruct (f x) eqn:E; cbn; [rewrite E|]; now rewrite IH.
Qed.

Lemma without_class_twice r n : without_class r (without_class r n) = without_class r n.
Proof. unfold without_class. cbn. now rewrite filter_twice. Qed.

Lemma set_display_pointwise v el doc :
  set_display v el doc
  = pointwise (fun i n => if is_at i el then with_display v n else n) 0 doc.
Proof.
  destruct el as [k|]; cbn [set_display is_at].
  - apply (update_pointwise (with_display v) doc k 0).
  - symmetry. now apply pointwise_same.
Qed.

Lemma fold_set_display v els : forall doc,
  fold_left (fun d el => set_display v el d) els doc
  = pointwise (fun i n => if existsb (is_at i) els then with_display v n else n) 0 doc.
Proof.
  induction els as [|el els IH]; intros doc; cbn [fold_left existsb].
  - symmetry. now apply pointwise_same.
  - rewrite IH, set_display_pointwise, pointwise_compose.
    apply pointwise_ext. intros i n.
    destruct (is_at i el), (existsb (is_at i) els); reflexivity.
Qed.

Lemma matches_without sel n :
  blind_to_toggle sel -> matches sel (without_class "black-background" n) = matches sel n.
Proof.
  intros H. destruct sel as [c|i]; cbn [matches]; [|reflexivity].
  apply has_class_without. intros ->. now apply H.
Qed.

Lemma matches_with_display sel v n : matches sel (with_display v n) = matches sel n.
Proof. destruct sel; reflexivity. Qed.

Lemma matches_toggled sel show doc i n :
  blind_to_toggle sel -> matches sel (toggled show doc i n) = matches sel n.
Proof.
  intros H. unfold toggled.
  destruct (is_at i (querySelector (by_class "viewer-container") doc));
    destruct (is_target doc i _);
    rewrite ?matches_with_display, ?matches_without by exact H; reflexivity.
Qed.

Lemma depth_toggled show doc i n : depth (toggled show doc i n) = depth n.
Proof.
  unfold toggled.
  destruct (is_at i (querySelector (by_class "viewer-container") doc));
    destruct (is_target doc i _); reflexivity.
Qed.

Lemma toggleBottomBtns_pointwise show doc :
  toggleBottomBtns show doc
  = match querySelector (by_class "viewer-container") doc with
    | Some _ => Returned (pointwise (toggled show doc) 0 doc) []
    | None => TypeError
    end.
Proof.
  unfold toggleBottomBtns.
  destruct (querySelector (by_class "viewer-container") doc) as [c|] eqn:Ec;
    [|reflexivity].
  f_equal.
  rewrite (update_pointwise (without_class "black-background") doc c 0).
  cbn [Nat.add].
  set (R := fun i n => if Nat.eqb i c then without_class "black-background" n else n).
  assert (HR : forall sel, blind_to_toggle sel ->
               forall i n, matches sel (R i n) = matches sel n).
  { intros sel Hsel i n. unfold R. destruct (Nat.eqb i c); [|reflexivity].
    now apply matches_without. }
  unfold querySelector, querySelectorAll in *.
  rewrite !(first_from_pointwise _ R) by (apply HR; discriminate).
  rewrite (all_from_pointwise _ R) by (apply HR; discriminate).
  rewrite fold_set_display, pointwise_compose.
  apply (pointwise_ext_nth _ _ doc 0). intros i n Hn. cbn [Nat.add].
  unfold toggled, is_target, querySelector. rewrite Ec. cbn [is_at].
  fold (R i n).
  assert (Hc : has_class addBtnClass (R i n) = has_class addBtnClass n)
    by (apply (HR (by_class addBtnClass)); discriminate).
  rewrite Hc. cbn [app existsb].
  assert (Hin : existsb (is_at i)
                  (map Some (all_from (matches (by_class addBtnClass)) 0 doc))
                = has_class addBtnClass n).
  { destruct (has_class addBtnClass n) eqn:Eh.
    - apply existsb_is_at, in_all_from. now exists n.
    - destruct (existsb _ _) eqn:Ex; [|reflexivity].
      apply existsb_is_at, in_all_from in Ex. destruct Ex as (n' & Hn' & Hp).
      rewrite Hn in Hn'. injection Hn' as <-. cbn in Hp. congruence. }
  rewrite Hin, !orb_assoc. reflexivity.
Qed.

Lemma has_class_with_display c v n : has_class c (with_display v n) = has_class c n.
Proof. reflexivity. Qed.

Lemma addBtnClass_kept n :
  has_class addBtnClass (without_class "black-background" n) = has_class addBtnClass n.
Proof. apply has_class_without. discriminate. Qed.

Lemma is_target_without doc i n :
  is_target doc i (without_class "black-background" n) = is_target doc i n.
Proof. unfold is_target. now rewrite addBtnClass_kept. Qed.

Lemma toggled_twice b1 b2 doc doc1 i n :
  (forall sel, blind_to_toggle sel -> querySelector sel doc1 = querySelector sel doc) ->
  toggled b2 doc1 i (toggled b1 doc i n) = toggled b2 doc i n.
Proof.
  intros Hq. unfold toggled, is_target. rewrite !Hq by discriminate.
  generalize (is_at i (querySelector (by_class "viewer-container") doc)) as a.
  generalize (is_at i (querySelector (by_class "viewer-close") doc)) as c1.
  generalize (is_at i (querySelector (by_class "viewer-one-to-one") doc)) as c2.
  generalize (is_at i (querySelector (by_class "viewer-navbar") doc)) as c3.
  intros c3 c2 c1 a.
  destruct (has_class addBtnClass n) eqn:Eh;
    destruct a, c1, c2, c3; cbn [orb];
    repeat (rewrite ?has_class_with_display, ?addBtnClass_kept, ?Eh; cbn [orb]);
    unfold with_display, without_class;
    cbn [classes depth tag ident style_display];
    rewrite ?filter_twice; reflexivity.
Qed.

(** X15.  [toggleBottomBtns] fails with a [TypeError] exactly when the
    page holds no viewer container.  Otherwise it writes nothing to the
    console and changes the page in two ways only: the first container
    loses the class [black-background], and the first close control, the
    first 1:1 control, the first navigation bar and every added button
    get the display [block] or [none]; every other element, and the
    nesting, tag, id and other classes of every element, stay as they
    were. *)
Theorem toggleBottomBtns_changes_displays_only show doc :
  match toggleBottomBtns show doc with
  | TypeError => forall n, In n doc -> has_class "viewer-container" n = false
  | Returned doc' out =>
      out = []
      /\ querySelector (by_class "viewer-container") doc <> None
      /\ List.length doc' = List.length doc
      /\ forall i n, nth_error doc i = Some n ->
         exists n', nth_error doc' i = Some n'
           /\ depth n' = depth n /\ tag n' = tag n /\ ident n' = ident n
           /\ classes n'
              = (if is_at i (querySelector (by_class "viewer-container") doc)
                 then filter (fun x => negb (String.eqb "black-background" x)) (classes n)
                 else classes n)
           /\ style_display n'
              = (if is_target doc i n
                 then (if show then "block" else "none")%string
                 else style_display n)
  end.
Proof.
  rewrite toggleBottomBtns_pointwise.
  destruct (querySelector (by_class "viewer-container") doc) as [c|] eqn:Ec.
  - split; [reflexivity|]. split; [discriminate|]. split; [apply pointwise_length|].
    intros i n Hn. exists (toggled show doc i n).
    rewrite pointwise_nth, Hn. cbn [option_map Nat.add].
    split; [reflexivity|].
    unfold toggled. rewrite Ec.
    destruct (is_at i (Some c));
      rewrite ?is_target_without; destruct (is_target doc i n);
      repeat split.
  - exact (proj1 (first_from_none (matches (by_class "viewer-container")) doc 0) Ec).
Qed.

Lemma toggle_absorbs b1 b2 doc doc1 out :
  toggleBottomBtns b1 doc = Returned doc1 out ->
  toggleBottomBtns b2 doc1 = toggleBottomBtns b2 doc.
Proof.
  rewrite !toggleBottomBtns_pointwise.
  destruct (querySelector (by_class "viewer-container") doc) as [c|] eqn:Ec;
    [|discriminate].
  intros H. injection H as <- _.
  assert (Hq : forall sel, blind_to_toggle sel ->
               querySelector sel (pointwise (toggled b1 doc) 0 doc) = querySelector sel doc).
  { intros sel Hsel. unfold querySelector. apply first_from_pointwise.
    intros i n. now apply matches_toggled. }
  rewrite Hq, Ec by discriminate. f_equal.
  rewrite pointwise_compose. apply pointwise_ext. intros i n.
  now apply toggled_twice.
Qed.

(** X16.  Of two calls of [toggleBottomBtns] in a row only the second
    shows: the page is the one the second call alone would have left.  In
    particular showing the toolbar undoes hiding it, and a repeated call
    changes nothing. *)
Theorem toggleBottomBtns_last_call_wins b1 b2 doc doc1 out :
  toggleBottomBtns b1 doc = Returned doc1 out ->
  toggleBottomBtns b2 doc1 = toggleBottomBtns b2 doc.
Proof. exact (toggle_absorbs b1 b2 doc doc1 out). Qed.

(** *** Subtrees *)

Lemma take_deeper_firstn d l :
  take_deeper d l = firstn (List.length (take_deeper d l)) l.
Proof.
  induction l as [|x l IH]; cbn [take_deeper]; [reflexivity|].
  destruct (d <? depth x); cbn [List.length firstn]; [|reflexivity].
  now rewrite <- IH.
Qed.

Lemma take_deeper_forall d l : Forall (deeper d) (take_deeper d l).
Proof.
  induction l as [|x l IH]; cbn [take_deeper]; [constructor|].
  destruct (Nat.ltb_spec d (depth x)); constructor; assumption.
Qed.

Lemma take_deeper_app d l1 l2 :
  Forall (deeper d) l1 -> take_deeper d (l1 ++ l2) = l1 ++ take_deeper d l2.
Proof.
  induction 1 as [|x l1 Hx _ IH]; cbn [app take_deeper]; [reflexivity|].
  destruct (Nat.ltb_spec d (depth x)); [|unfold deeper in Hx; lia].
  now rewrite IH.
Qed.

Lemma take_deeper_stops d l1 x l2 :
  Forall (deeper d) l1 -> depth x <= d -> take_deeper d (l1 ++ x :: l2) = l1.
Proof.
  intros H Hx. rewrite take_deeper_app by exact H. cbn [take_deeper].
  destruct (Nat.ltb_spec d (depth x)); [lia|]. apply List.app_nil_r.
Qed.

Lemma take_deeper_mono d d' l :
  d <= d' -> List.length (take_deeper d' l) <= List.length (take_deeper d l).
Proof.
  intros Hd. induction l as [|x l IH]; cbn [take_deeper]; [lia|].
  destruct (Nat.ltb_spec d' (depth x)); destruct (Nat.ltb_spec d (depth x));
    cbn [List.length]; lia.
Qed.

Lemma Forall_deeper_weaken d d' l : d <= d' -> Forall (deeper d') l -> Forall (deeper d) l.
Proof.
  intros Hd H. eapply Forall_impl; [|exact H]. unfold deeper. intros n. lia.
Qed.

Lemma Forall_firstn {A : Type} (P : A -> Prop) n (l : list A) :
  Forall P l -> Forall P (firstn n l).
Proof.
  intros H. revert n. induction H as [|x l Hx _ IH]; intros [|n]; cbn; constructor; auto.
Qed.

(** What the page looks like around an element [j] found among the
    descendants of [k]: up to [k], then down to [j], then the
    descendants of [j], then the rest. *)
Lemma subtree_layout doc k nk sel j :
  nth_error doc k = Some nk ->
  querySelector_in k sel doc = Some j ->
  exists P R1 a R3,
    doc = P ++ R1 ++ descendants j doc ++ R3
    /\ List.length P = S k
    /\ List.length (P ++ R1) = S j
    /\ nth_error doc j = Some a
    /\ matches sel a = true
    /\ depth nk < depth a
    /\ Forall (deeper (depth nk)) R1
    /\ descendants j doc = take_deeper (depth a) (descendants j doc ++ R3)
    /\ descendants k doc = R1 ++ descendants j doc ++ take_deeper (depth nk) R3.
Proof.
  intros Hk Hq. unfold querySelector_in in Hq.
  assert (Hdesc : descendants k doc = take_deeper (depth nk) (skipn (S k) doc))
    by (unfold descendants; now rewrite Hk).
  set (R := skipn (S k) doc) in *.
  destruct (first_from_some _ _ _ _ Hq) as (Hle & (a & Ha & Hm) & _).
  set (i0 := j - S k) in *.
  assert (Hi0 : i0 < List.length (descendants k doc))
    by (apply nth_error_Some; congruence).
  assert (Hpre : descendants k doc = firstn (List.length (descendants k doc)) R)
    by (rewrite Hdesc at 1; rewrite take_deeper_firstn at 1; now rewrite <- Hdesc).
  assert (HaR : nth_error R i0 = Some a).
  { rewrite Hpre, nth_error_firstn in Ha.
    destruct (Nat.ltb_spec i0 (List.length (descendants k doc))); [exact Ha|lia]. }
  assert (HiR : i0 < List.length R) by (apply nth_error_Some; congruence).
  assert (Hklen : k < List.length doc) by (apply nth_error_Some; congruence).
  assert (Haj : nth_error doc j = Some a).
  { unfold R in HaR. rewrite nth_error_skipn in HaR.
    now replace (S k + i0) with j in HaR by lia. }
  assert (Hda : depth nk < depth a).
  { pose proof (take_deeper_forall (depth nk) R) as HF. rewrite <- Hdesc in HF.
    rewrite Forall_forall in HF. apply (HF a). eapply nth_error_In; eauto. }
  assert (HD : descendants j doc = take_deeper (depth a) (skipn (S i0) R)).
  { unfold descendants. rewrite Haj. unfold R. rewrite skipn_skipn.
    now replace (S i0 + S k) with (S j) by lia. }
  set (R1 := firstn (S i0) R).
  set (R2 := skipn (S i0) R) in *.
  set (D := descendants j doc) in *.
  set (R3 := skipn (List.length D) R2).
  assert (HR12 : R = R1 ++ R2) by (symmetry; apply firstn_skipn).
  assert (HR2 : R2 = D ++ R3).
  { unfold R3. rewrite HD at 1. rewrite take_deeper_firstn, <- HD.
    symmetry. apply firstn_skipn. }
  assert (HF1 : Forall (deeper (depth nk)) R1).
  { unfold R1.
    replace (firstn (S i0) R)
      with (firstn (S i0) (firstn (List.length (descendants k doc)) R)).
    - rewrite <- Hpre, Hdesc. apply Forall_firstn, take_deeper_forall.
    - rewrite firstn_firstn. f_equal. lia. }
  assert (HFD : Forall (deeper (depth nk)) D).
  { apply (Forall_deeper_weaken _ (depth a)); [lia|].
    rewrite HD. apply take_deeper_forall. }
  exists (firstn (S k) doc), R1, a, R3.
  repeat split.
  - rewrite <- HR2, <- HR12. symmetry. apply firstn_skipn.
  - apply firstn_length_le. lia.
  - rewrite length_app, firstn_length_le by lia.
    unfold R1. rewrite firstn_length_le by lia. lia.
  - exact Haj.
  - exact Hm.
  - exact Hda.
  - exact HF1.
  - rewrite <- HR2. exact HD.
  - rewrite Hdesc, HR12, take_deeper_app by exact HF1.
    rewrite HR2, take_deeper_app by exact HFD. reflexivity.
Qed.
Lemma firstn_exact {A : Type} (l1 l2 : list A) : firstn (List.length l1) (l1 ++ l2) = l1.
Proof. rewrite firstn_app, firstn_all, Nat.sub_diag. cbn. apply List.app_nil_r. Qed.

Lemma skipn_exact {A : Type} (l1 l2 : list A) : skipn (List.length l1) (l1 ++ l2) = l2.
Proof. rewrite skipn_app, skipn_all, Nat.sub_diag. reflexivity. Qed.

Lemma nth_error_exact {A : Type} (l1 l2 : list A) (x : A) :
  nth_error (l1 ++ x :: l2) (List.length l1) = Some x.
Proof. rewrite nth_error_app2, Nat.sub_diag by lia. reflexivity. Qed.

Lemma insert_afterend_layout doc j a btn P R1 R3 :
  nth_error doc j = Some a ->
  doc = P ++ R1 ++ descendants j doc ++ R3 ->
  List.length (P ++ R1) = S j ->
  insert_afterend j btn doc
  = P ++ R1 ++ descendants j doc ++ at_depth (depth a) btn :: R3.
Proof.
  intros Ha Hdoc Hlen. unfold insert_afterend, subtree_end. rewrite Ha.
  set (D := descendants j doc) in *.
  replace (S j + List.length D) with (List.length ((P ++ R1) ++ D))
    by (rewrite length_app; lia).
  rewrite Hdoc at 1 2.
  rewrite !List.app_assoc.
  rewrite firstn_exact, skipn_exact. reflexivity.
Qed.

(** The page after a sibling [x] of [j] was inserted behind the subtree
    of [j], seen from an ancestor [k] of [j]. *)
Lemma inserted_sibling_layout doc k nk j a x P R1 R3 :
  nth_error doc k = Some nk ->
  nth_error doc j = Some a ->
  doc = P ++ R1 ++ descendants j doc ++ R3 ->
  List.length P = S k ->
  List.length (P ++ R1) = S j ->
  depth nk < depth a ->
  Forall (deeper (depth nk)) R1 ->
  descendants j doc = take_deeper (depth a) (descendants j doc ++ R3) ->
  depth x = depth a ->
  let doc' := P ++ R1 ++ descendants j doc ++ x :: R3 in
  nth_error doc' (subtree_end j doc) = Some x
  /\ descendants j doc' = descendants j doc
  /\ descendants k doc'
     = R1 ++ descendants j doc ++ x :: take_deeper (depth nk) R3.
Proof.
  intros Hk Ha Hdoc HP HPR Hd HF1 HD Hx doc'.
  set (D := descendants j doc) in *.
  assert (HFD : Forall (deeper (depth a)) D)
    by (rewrite HD; apply take_deeper_forall).
  assert (Hk' : nth_error doc' k = Some nk).
  { unfold doc'. rewrite nth_error_app1 by lia.
    rewrite Hdoc, nth_error_app1 in Hk by lia. exact Hk. }
  assert (Ha' : nth_error doc' j = Some a).
  { unfold doc'. rewrite List.app_assoc, nth_error_app1 by lia.
    rewrite Hdoc, List.app_assoc, nth_error_app1 in Ha by lia. exact Ha. }
  repeat split.
  - unfold subtree_end. fold D.
    replace (S j + List.length D) with (List.length ((P ++ R1) ++ D))
      by (rewrite length_app; lia).
    unfold doc'. rewrite !List.app_assoc. apply nth_error_exact.
  - unfold descendants at 1. rewrite Ha'.
    unfold doc'. rewrite List.app_assoc. rewrite <- HPR, skipn_exact.
    apply take_deeper_stops; [exact HFD|lia].
  - unfold descendants at 1. rewrite Hk'.
    unfold doc'. rewrite <- HP, skipn_exact.
    rewrite take_deeper_app by exact HF1.
    rewrite take_deeper_app
      by (apply (Forall_deeper_weaken _ (depth a)); [lia|exact HFD]).
    cbn [take_deeper]. destruct (Nat.ltb_spec (depth nk) (depth x)); [|lia].
    reflexivity.
Qed.

Lemma last_index_app_nonempty l1 l2 :
  l2 <> [] -> last_index (l1 ++ l2) = last_index l2.
Proof.
  intros H. induction l1 as [|x l1 IH]; cbn [app]; [reflexivity|].
  cbn [last_index]. destruct (l1 ++ l2) eqn:E.
  - destruct l1, l2; try discriminate. congruence.
  - exact IH.
Qed.

(** Inserting an element that does not match behind the last match
    leaves the positions of the matches as they were. *)
Lemma all_from_insert_after_last p l1 l2 x k :
  last_index (all_from p 0 (l1 ++ l2)) = Some k ->
  k < List.length l1 ->
  p x = false ->
  all_from p 0 (l1 ++ x :: l2) = all_from p 0 (l1 ++ l2).
Proof.
  intros Hlast Hk Hx.
  rewrite !all_from_app in *. cbn [all_from Nat.add] in *. rewrite Hx.
  assert (Hnil : all_from p (List.length l1) l2 = []).
  { destruct (all_from p (List.length l1) l2) as [|y ys] eqn:E; [reflexivity|].
    rewrite last_index_app_nonempty in Hlast by discriminate.
    apply last_index_in in Hlast. rewrite <- E in Hlast.
    apply all_from_range in Hlast. lia. }
  rewrite Hnil.
  pose proof (proj1 (all_from_nil p l2 (List.length l1)) Hnil) as Hno.
  now rewrite (proj2 (all_from_nil p l2 (S (List.length l1))) Hno).
Qed.

(** *** addBtn *)

Lemma last_container_is_there doc last :
  last_index (querySelectorAll (by_class "viewer-container") doc) = Some last ->
  exists nl, nth_error doc last = Some nl.
Proof.
  intros H. apply last_index_in in H.
  destruct (all_from_range _ _ _ _ H) as (_ & n & Hn & _).
  rewrite Nat.sub_0_r in Hn. now exists n.
Qed.

Lemma at_depth_matches sel d n : matches sel (at_depth d n) = matches sel n.
Proof. destruct sel; reflexivity. Qed.

(** What an insertion by [addBtn] leaves. *)
Lemma addBtn_insertion btn doc last j :
  last_index (querySelectorAll (by_class "viewer-container") doc) = Some last ->
  querySelector_in last (by_class "viewer-one-to-one") doc = Some j ->
  exists a P R1 R3 nl,
    let x := at_depth (depth a) btn in
    let doc' := insert_afterend j btn doc in
    nth_error doc j = Some a
    /\ nth_error doc last = Some nl
    /\ doc = P ++ R1 ++ descendants j doc ++ R3
    /\ doc' = P ++ R1 ++ descendants j doc ++ x :: R3
    /\ List.length (P ++ R1 ++ descendants j doc) = subtree_end j doc
    /\ last < List.length (P ++ R1 ++ descendants j doc)
    /\ nth_error doc' (subtree_end j doc) = Some x
    /\ descendants j doc' = descendants j doc
    /\ descendants last doc
       = R1 ++ descendants j doc ++ take_deeper (depth nl) R3
    /\ descendants last doc'
       = R1 ++ descendants j doc ++ x :: take_deeper (depth nl) R3
    /\ List.length P = S last.
Proof.
  intros Hlast Hj.
  destruct (last_container_is_there doc last Hlast) as (nl & Hnl).
  destruct (subtree_layout doc last nl _ j Hnl Hj)
    as (P & R1 & a & R3 & Hdoc & HP & HPR & Ha & _ & Hd & HF1 & HD & Hdesc).
  exists a, P, R1, R3, nl. intros x doc'.
  assert (Hdoc' : doc' = P ++ R1 ++ descendants j doc ++ x :: R3)
    by (apply insert_afterend_layout; assumption).
  destruct (inserted_sibling_layout doc last nl j a x P R1 R3
              Hnl Ha Hdoc HP HPR Hd HF1 HD eq_refl) as (H1 & H2 & H3).
  assert (Hlen : List.length (P ++ R1 ++ descendants j doc) = subtree_end j doc).
  { unfold subtree_end. rewrite List.app_assoc, length_app. lia. }
  repeat split; try assumption.
  - rewrite !length_app. lia.
  - now rewrite Hdoc'.
  - now rewrite Hdoc'.
  - now rewrite Hdoc'.
Qed.

Lemma addBtn_inserted_holds btn doc last j :
  has_class "viewer-container" btn = false ->
  last_index (querySelectorAll (by_class "viewer-container") doc) = Some last ->
  querySelector_in last (by_class "viewer-one-to-one") doc = Some j ->
  let doc' := insert_afterend j btn doc in
  querySelectorAll (by_class "viewer-container") doc'
  = querySelectorAll (by_class "viewer-container") doc
  /\ (forall sel n, In n (descendants last doc) -> matches sel n = true ->
      querySelector_in last sel doc' <> None)
  /\ (querySelector_in last (by_id (ident btn)) doc = None ->
      querySelector_in last (by_id (ident btn)) doc' = Some (subtree_end j doc)).
Proof.
  intros Hb Hlast Hj doc'.
  destruct (addBtn_insertion btn doc last j Hlast Hj)
    as (a & P & R1 & R3 & nl & Ha & Hnl & Hdoc & Hdoc' & Hlen & Hlt & _ & _ & Hd & Hd' & HP).
  cbn zeta in *. fold doc' in Hdoc', Hd'.
  set (D := descendants j doc) in *.
  set (x := at_depth (depth a) btn) in *.
  repeat split.
  - unfold querySelectorAll. rewrite Hdoc'.
    replace (P ++ R1 ++ D ++ x :: R3) with ((P ++ R1 ++ D) ++ x :: R3)
      by (now rewrite <- !List.app_assoc).
    rewrite (all_from_insert_after_last _ (P ++ R1 ++ D) R3 x last).
    + rewrite <- !List.app_assoc. now rewrite <- Hdoc.
    + rewrite <- !List.app_assoc. rewrite <- Hdoc. exact Hlast.
    + exact Hlt.
    + exact Hb.
  - intros sel n Hin Hm. unfold querySelector_in. rewrite Hd'.
    apply (first_from_found _ _ _ n); [|exact Hm].
    rewrite Hd in Hin.
    rewrite !in_app_iff in *. cbn [In]. tauto.
  - intros Hnone. unfold querySelector_in in *. rewrite Hd'. rewrite Hd in Hnone.
    rewrite first_from_none in Hnone.
    replace (R1 ++ D ++ x :: take_deeper (depth nl) R3)
      with ((R1 ++ D) ++ x :: take_deeper (depth nl) R3)
      by (now rewrite <- !List.app_assoc).
    rewrite first_from_app.
    rewrite (proj2 (first_from_none _ (R1 ++ D) (S last)))
      by (intros n Hn; apply Hnone; rewrite !in_app_iff in *; tauto).
    cbn [first_from matches]. unfold x. cbn [ident at_depth].
    rewrite String.eqb_refl. f_equal.
    rewrite <- Hlen, !length_app. lia.
Qed.

Lemma holds_id_addBtn_again btn doc :
  holds_id (ident btn) doc -> addBtn btn doc = Returned doc [].
Proof.
  intros (last & Hlast & Hq). unfold addBtn. rewrite Hlast.
  destruct (querySelector_in last (by_id (ident btn)) doc); [reflexivity|congruence].
Qed.

Lemma addBtn_holds_after btn doc doc' :
  has_class "viewer-container" btn = false ->
  addBtn btn doc = Returned doc' [] ->
  holds_id (ident btn) doc'.
Proof.
  intros Hb. unfold addBtn.
  destruct (last_index _) as [last|] eqn:Hlast; [|discriminate].
  destruct (querySelector_in last (by_id (ident btn)) doc) as [i|] eqn:Hid.
  - intros H. injection H as <-. exists last. split; [exact Hlast|congruence].
  - destruct (querySelector_in last (by_class "viewer-one-to-one") doc) as [j|] eqn:Hj;
      [|discriminate].
    intros H. injection H as <-.
    destruct (addBtn_inserted_holds btn doc last j Hb Hlast Hj) as (Hall & _ & Hnew).
    exists last. split.
    + now rewrite Hall.
    + rewrite (Hnew Hid). discriminate.
Qed.

Lemma holds_id_kept_by_addBtn i btn doc doc' out :
  has_class "viewer-container" btn = false ->
  holds_id i doc ->
  addBtn btn doc = Returned doc' out ->
  holds_id i doc'.
Proof.
  intros Hb (last & Hlast & Hq). unfold addBtn. rewrite Hlast.
  destruct (querySelector_in last (by_id (ident btn)) doc) as [k|] eqn:Hid.
  - intros H. injection H as <- _. now exists last.
  - destruct (querySelector_in last (by_class "viewer-one-to-one") doc) as [j|] eqn:Hj.
    + intros H. injection H as <- _.
      destruct (addBtn_inserted_holds btn doc last j Hb Hlast Hj) as (Hall & Hkeep & _).
      exists last. split; [now rewrite Hall|].
      destruct (querySelector_in last (by_id i) doc) as [k|] eqn:Hk; [|congruence].
      unfold querySelector_in in Hk.
      destruct (first_from_some _ _ _ _ Hk) as (_ & (n & Hn & Hm) & _).
      apply (Hkeep (by_id i) n); [|exact Hm].
      eapply nth_error_In; eauto.
    + intros H. injection H as <- _. now exists last.
Qed.

Lemma holds_id_kept_by_toggle i show doc doc' out :
  holds_id i doc ->
  toggleBottomBtns show doc = Returned doc' out ->
  holds_id i doc'.
Proof.
  intros (last & Hlast & Hq). rewrite toggleBottomBtns_pointwise.
  destruct (querySelector (by_class "viewer-container") doc) as [c|]; [|discriminate].
  intros H. injection H as <- _.
  exists last. split.
  - unfold querySelectorAll. rewrite all_from_pointwise; [exact Hlast|].
    intros k n. apply matches_toggled. discriminate.
  - rewrite querySelector_in_pointwise; [exact Hq| |].
    + intros k n. apply depth_toggled.
    + intros k n. apply matches_toggled. discriminate.
Qed.

Lemma first_from_hd p l : forall k,
  first_from p k l = hd_error (all_from p k l).
Proof.
  induction l as [|x l IH]; intros k; cbn [first_from all_from]; [reflexivity|].
  destruct (p x); [reflexivity|apply IH].
Qed.

Lemma querySelector_first_of_all sel doc :
  querySelector sel doc = hd_error (querySelectorAll sel doc).
Proof. apply first_from_hd. Qed.

Lemma querySelector_none_all sel doc :
  querySelector sel doc = None <-> querySelectorAll sel doc = [].
Proof.
  unfold querySelector, querySelectorAll.
  now rewrite first_from_none, all_from_nil.
Qed.

Lemma addBtn_settles btn doc doc' out :
  has_class "viewer-container" btn = false ->
  addBtn btn doc = Returned doc' out ->
  addBtn btn doc' = Returned doc' out.
Proof.
  intros Hb H.
  assert (Hcases : (doc' = doc) \/ out = []).
  { revert H. unfold addBtn.
    destruct (last_index _) as [last|]; [|discriminate].
    destruct (querySelector_in last (by_id (ident btn)) doc);
      [intros H; injection H as <- <-; now left|].
    destruct (querySelector_in last (by_class "viewer-one-to-one") doc);
      intros H; injection H as <- <-; [now right|now left]. }
  destruct Hcases as [->| ->]; [exact H|].
  apply holds_id_addBtn_again. now apply (addBtn_holds_after btn doc).
Qed.

Lemma addBtn_keeps_settled b1 b2 doc doc' out1 out2 :
  has_class "viewer-container" b2 = false ->
  addBtn b1 doc = Returned doc out1 ->
  addBtn b2 doc = Returned doc' out2 ->
  addBtn b1 doc' = Returned doc' out1.
Proof.
  intros Hb H1 H2.
  revert H1 H2. unfold addBtn at 1 2.
  destruct (last_index _) as [last|] eqn:Hlast; [|discriminate].
  destruct (querySelector_in last (by_id (ident b1)) doc) as [i1|] eqn:Hi1.
  - intros H1 H2. injection H1 as <-.
    apply holds_id_addBtn_again.
    apply (holds_id_kept_by_addBtn _ b2 doc doc' out2 Hb); [|].
    + exists last. split; [exact Hlast|congruence].
    + unfold addBtn. rewrite Hlast. exact H2.
  - destruct (querySelector_in last (by_class "viewer-one-to-one") doc) as [j|] eqn:Hj.
    + intros H1. exfalso. injection H1 as H1 _.
      apply (f_equal (@List.length Node)) in H1.
      destruct (addBtn_insertion b1 doc last j Hlast Hj)
        as (a & P & R1 & R3 & nl & _ & _ & Hdoc & Hdoc' & _).
      cbn zeta in Hdoc'. rewrite Hdoc' in H1. rewrite Hdoc in H1 at 2.
      rewrite !length_app in H1. cbn [List.length] in H1. lia.
    + intros H1. injection H1 as <-.
      destruct (querySelector_in last (by_id (ident b2)) doc);
        intros H2; injection H2 as <- _;
        unfold addBtn; now rewrite Hlast, Hi1, Hj.
Qed.

Lemma toggle_keeps_settled btn show doc doc' out o :
  addBtn btn doc = Returned doc out ->
  toggleBottomBtns show doc = Returned doc' o ->
  addBtn btn doc' = Returned doc' out.
Proof.
  intros H1. rewrite toggleBottomBtns_pointwise.
  destruct (querySelector (by_class "viewer-container") doc) as [c|]; [|discriminate].
  intros H. injection H as <- _.
  assert (Hall : querySelectorAll (by_class "viewer-container")
                   (pointwise (toggled show doc) 0 doc)
                 = querySelectorAll (by_class "viewer-container") doc).
  { unfold querySelectorAll. apply all_from_pointwise.
    intros k n. apply matches_toggled. discriminate. }
  assert (Hin : forall last sel, blind_to_toggle sel ->
                querySelector_in last sel (pointwise (toggled show doc) 0 doc)
                = querySelector_in last sel doc).
  { intros last sel Hsel. apply querySelector_in_pointwise.
    - intros k n. apply depth_toggled.
    - intros k n. now apply matches_toggled. }
  revert H1. unfold addBtn. rewrite Hall.
  destruct (last_index _) as [last|] eqn:Hlast; [|discriminate].
  rewrite !Hin by discriminate.
  destruct (querySelector_in last (by_id (ident btn)) doc) as [i1|] eqn:Hi1;
    [intros H1; injection H1 as <-; reflexivity|].
  destruct (querySelector_in last (by_class "viewer-one-to-one") doc) as [j|] eqn:Hj.
  - intros H1. exfalso. injection H1 as H1 _.
    apply (f_equal (@List.length Node)) in H1.
    destruct (addBtn_insertion btn doc last j Hlast Hj)
      as (a & P & R1 & R3 & nl & _ & _ & Hdoc & Hdoc' & _).
    cbn zeta in Hdoc'. rewrite Hdoc' in H1. rewrite Hdoc in H1 at 2.
    rewrite !length_app in H1. cbn [List.length] in H1. lia.
  - intros H1. injection H1 as <-. reflexivity.
Qed.

Lemma addBtn_keeps_container btn doc doc' out :
  has_class "viewer-container" btn = false ->
  addBtn btn doc = Returned doc' out ->
  querySelectorAll (by_class "viewer-container") doc'
  = querySelectorAll (by_class "viewer-container") doc.
Proof.
  intros Hb. unfold addBtn.
  destruct (last_index _) as [last|] eqn:Hlast; [|discriminate].
  destruct (querySelector_in last (by_id (ident btn)) doc);
    [intros H; injection H as <- _; reflexivity|].
  destruct (querySelector_in last (by_class "viewer-one-to-one") doc) as [j|] eqn:Hj;
    intros H; injection H as <- _; [|reflexivity].
  now destruct (addBtn_inserted_holds btn doc last j Hb Hlast Hj) as (Hall & _).
Qed.

Lemma addBtn_TypeError btn doc :
  addBtn btn doc = TypeError
  <-> querySelector (by_class "viewer-container") doc = None.
Proof.
  rewrite querySelector_none_all. unfold addBtn.
  destruct (last_index _) as [last|] eqn:Hlast.
  - split.
    + destruct (querySelector_in last (by_id (ident btn)) doc); [discriminate|].
      destruct (querySelector_in last (by_class "viewer-one-to-one") doc); discriminate.
    + intros E. rewrite E in Hlast. discriminate.
  - apply last_index_none in Hlast. now split.
Qed.

Lemma addBtn_placement btn doc last j :
  last_index (querySelectorAll (by_class "viewer-container") doc) = Some last ->
  querySelector_in last (by_id (ident btn)) doc = None ->
  querySelector_in last (by_class "viewer-one-to-one") doc = Some j ->
  exists doc' a,
    addBtn btn doc = Returned doc' []
    /\ nth_error doc j = Some a
    /\ List.length doc' = S (List.length doc)
    /\ firstn (subtree_end j doc) doc' = firstn (subtree_end j doc) doc
    /\ nth_error doc' (subtree_end j doc) = Some (at_depth (depth a) btn)
    /\ skipn (S (subtree_end j doc)) doc' = skipn (subtree_end j doc) doc
    /\ descendants j doc' = descendants j doc
    /\ querySelector_in last (by_id (ident btn)) doc' = Some (subtree_end j doc).
Proof.
  intros Hlast Hid Hj.
  destruct (addBtn_insertion btn doc last j Hlast Hj)
    as (a & P & R1 & R3 & nl & Ha & Hnl & Hdoc & Hdoc' & Hlen & Hlt & Hx & Hdj & Hd & Hd' & HP).
  cbn zeta in *.
  exists (insert_afterend j btn doc), a.
  set (doc' := insert_afterend j btn doc) in *.
  set (D := descendants j doc) in *.
  set (x := at_depth (depth a) btn) in *.
  assert (E : doc = (P ++ R1 ++ D) ++ R3) by (now rewrite <- !List.app_assoc).
  assert (E' : doc' = (P ++ R1 ++ D) ++ x :: R3) by (now rewrite <- !List.app_assoc).
  repeat split.
  - unfold addBtn. now rewrite Hlast, Hid, Hj.
  - exact Ha.
  - rewrite E'; rewrite E at 1. rewrite !length_app. cbn [List.length]. lia.
  - rewrite <- Hlen. rewrite E'; rewrite E at 1. now rewrite !firstn_exact.
  - exact Hx.
  - rewrite <- Hlen. rewrite E'; rewrite E at 1.
    rewrite skipn_exact.
    replace ((P ++ R1 ++ D) ++ x :: R3) with (((P ++ R1 ++ D) ++ [x]) ++ R3)
      by (now rewrite <- List.app_assoc).
    replace (S (List.length (P ++ R1 ++ D))) with (List.length ((P ++ R1 ++ D) ++ [x]))
      by (rewrite length_app; cbn; lia).
    now rewrite skipn_exact.
  - exact Hdj.
  - unfold querySelector_in in *. rewrite Hd'. rewrite Hd in Hid.
    rewrite first_from_none in Hid.
    replace (R1 ++ D ++ x :: take_deeper (depth nl) R3)
      with ((R1 ++ D) ++ x :: take_deeper (depth nl) R3)
      by (now rewrite <- !List.app_assoc).
    rewrite first_from_app.
    rewrite (proj2 (first_from_none _ (R1 ++ D) (S last)))
      by (intros n Hn; apply Hid; rewrite !in_app_iff in *; tauto).
    cbn [first_from matches]. unfold x. cbn [ident at_depth].
    rewrite String.eqb_refl. f_equal.
    rewrite <- Hlen, !length_app. lia.
Qed.

(** X17.  Where [addBtn] puts a button: when the newest viewer container
    has a 1:1 control and no element with the button's id, the button
    becomes the next sibling of the 1:1 control, right after that
    control's subtree; everything before it and everything after it stays
    as it was, no console message is written, and the container now finds
    the button by its id. *)
Theorem addBtn_places_button_after_anchor btn doc last j :
  is_css_ident (ident btn) = true ->
  last_index (querySelectorAll (by_class "viewer-container") doc) = Some last ->
  querySelector_in last (by_id (ident btn)) doc = None ->
  querySelector_in last (by_class "viewer-one-to-one") doc = Some j ->
  exists doc' a,
    addBtn btn doc = Returned doc' []
    /\ nth_error doc j = Some a
    /\ List.length doc' = S (List.length doc)
    /\ firstn (subtree_end j doc) doc' = firstn (subtree_end j doc) doc
    /\ nth_error doc' (subtree_end j doc) = Some (at_depth (depth a) btn)
    /\ skipn (S (subtree_end j doc)) doc' = skipn (subtree_end j doc) doc
    /\ descendants j doc' = descendants j doc
    /\ querySelector_in last (by_id (ident btn)) doc' = Some (subtree_end j doc).
Proof. intros _. apply addBtn_placement. Qed.

(** X18.  [addBtn] is idempotent: called again with the same button on the
    page it left, it leaves that page as it is and ends the same way (no
    second button; the same console message if it had found no 1:1
    control). *)
Theorem addBtn_twice_adds_once btn doc doc' out :
  is_css_ident (ident btn) = true ->
  has_class "viewer-container" btn = false ->
  addBtn btn doc = Returned doc' out ->
  addBtn btn doc' = Returned doc' out.
Proof. intros _. apply addBtn_settles. Qed.

(** X19.  The toolbar part of the [shown] listener ends with a TypeError
    exactly when the page has no viewer container, whatever the options;
    otherwise it returns. *)
Theorem shown_toolbar_fails_iff_no_container c doc :
  shown_toolbar c doc = TypeError
  <-> querySelector (by_class "viewer-container") doc = None.
Proof.
  assert (Hstep : forall (b : bool) btn d,
             has_class "viewer-container" btn = false ->
             match (if b then addBtn btn d else Returned d []) with
             | TypeError => querySelector (by_class "viewer-container") d = None
             | Returned d' _ =>
                 querySelector (by_class "viewer-container") d'
                 = querySelector (by_class "viewer-container") d
             end).
  { intros b btn d Hb. destruct b; [|reflexivity].
    destruct (addBtn btn d) as [d' o|] eqn:E.
    - rewrite !querySelector_first_of_all.
      now rewrite (addBtn_keeps_container btn d d' o Hb E).
    - exact (proj1 (addBtn_TypeError btn d) E). }
  unfold shown_toolbar, and_then.
  pose proof (Hstep (showDownloadBtn c) download_li doc eq_refl) as H1.
  destruct (if showDownloadBtn c then addBtn download_li doc else Returned doc [])
    as [d1 o1|]; [|now split].
  pose proof (Hstep (showBookmarkBtn c) bookmark_li d1 eq_refl) as H2.
  destruct (if showBookmarkBtn c then addBtn bookmark_li d1 else Returned d1 [])
    as [d2 o2|]; [|rewrite <- H1; now split].
  rewrite <- H1, <- H2.
  destruct (toggleBottomBtns true d2) eqn:T.
  - split; [discriminate|]. intros Q.
    apply (toggleBottomBtns_TypeError true) in Q. congruence.
  - split; [|reflexivity]. intros _. now apply (toggleBottomBtns_TypeError true).
Qed.

(** *** The toolbar when the viewer is shown again *)

Lemma step_settles (b : bool) btn d d' o :
  has_class "viewer-container" btn = false ->
  (if b then addBtn btn d else Returned d []) = Returned d' o ->
  (if b then addBtn btn d' else Returned d' []) = Returned d' o.
Proof.
  intros Hb. destruct b; [now apply addBtn_settles|].
  intros H. injection H as <- <-. reflexivity.
Qed.

Lemma step_keeps_settled (b1 b2 : bool) btn1 btn2 d d' o1 o2 :
  has_class "viewer-container" btn2 = false ->
  (if b1 then addBtn btn1 d else Returned d []) = Returned d o1 ->
  (if b2 then addBtn btn2 d else Returned d []) = Returned d' o2 ->
  (if b1 then addBtn btn1 d' else Returned d' []) = Returned d' o1.
Proof.
  intros Hb H1 H2. destruct b2; [|injection H2 as <- _; exact H1].
  destruct b1; [now apply (addBtn_keeps_settled btn1 btn2 d d' o1 o2)|].
  injection H1 as <-. reflexivity.
Qed.

Lemma toggle_keeps_step (b : bool) btn show d d' o o' :
  (if b then addBtn btn d else Returned d []) = Returned d o ->
  toggleBottomBtns show d = Returned d' o' ->
  (if b then addBtn btn d' else Returned d' []) = Returned d' o.
Proof.
  intros H1 H2. destruct b; [now apply (toggle_keeps_settled btn show d d' o o')|].
  injection H1 as <-. reflexivity.
Qed.

(** X20.  Showing the viewer a second time leaves the toolbar alone: run
    on the page it left, the toolbar part of the [shown] listener returns
    that same page (no button is added twice, no display changes) and
    writes the same console messages. *)
Theorem shown_again_changes_nothing c doc doc' out :
  shown_toolbar c doc = Returned doc' out ->
  shown_toolbar c doc' = Returned doc' out.
Proof.
  unfold shown_toolbar, and_then.
  destruct (if showDownloadBtn c then addBtn download_li doc else Returned doc [])
    as [d1 o1|] eqn:E1; [|discriminate].
  destruct (if showBookmarkBtn c then addBtn bookmark_li d1 else Returned d1 [])
    as [d2 o2|] eqn:E2; [|discriminate].
  destruct (toggleBottomBtns true d2) as [d3 o3|] eqn:E3; [|discriminate].
  intros H. injection H as <- <-.
  apply step_settles in E1; [|reflexivity].
  pose proof (step_keeps_settled _ _ download_li bookmark_li _ _ _ _ eq_refl E1 E2) as E1'.
  apply step_settles in E2; [|reflexivity].
  rewrite (toggle_keeps_step _ _ _ _ _ _ _ E1' E3).
  rewrite (toggle_keeps_step _ _ _ _ _ _ _ E2 E3).
  rewrite (toggle_absorbs true true d2 d3 o3 E3), E3. reflexivity.
Qed.

(** *** The clean-up of [init] *)








(** *** Both buttons *)

Lemma insertion_keeps_none btn doc last j sel :
  last_index (querySelectorAll (by_class "viewer-container") doc) = Some last ->
  querySelector_in last (by_class "viewer-one-to-one") doc = Some j ->
  matches sel btn = false ->
  querySelector_in last sel doc = None ->
  querySelector_in last sel (insert_afterend j btn doc) = None.
Proof.
  intros Hlast Hj Hb Hnone.
  destruct (addBtn_insertion btn doc last j Hlast Hj)
    as (a & P & R1 & R3 & nl & _ & _ & _ & _ & _ & _ & _ & _ & Hd & Hd' & _).
  cbn zeta in *. unfold querySelector_in in *. rewrite Hd'. rewrite Hd in Hnone.
  rewrite first_from_none in *. intros n Hn.
  rewrite !in_app_iff in Hn. cbn [In] in Hn.
  destruct Hn as [Hn|[Hn|[<-|Hn]]].
  - apply Hnone. rewrite !in_app_iff. tauto.
  - apply Hnone. rewrite !in_app_iff. tauto.
  - now rewrite at_depth_matches.
  - apply Hnone. rewrite !in_app_iff. tauto.
Qed.

Lemma insertion_keeps_anchor btn doc last j :
  last_index (querySelectorAll (by_class "viewer-container") doc) = Some last ->
  querySelector_in last (by_class "viewer-one-to-one") doc = Some j ->
  querySelector_in last (by_class "viewer-one-to-one") (insert_afterend j btn doc)
  = Some j.
Proof.
  intros Hlast Hj.
  destruct (addBtn_insertion btn doc last j Hlast Hj)
    as (a & P & R1 & R3 & nl & _ & _ & _ & _ & Hlen & _ & _ & _ & Hd & Hd' & HP).
  cbn zeta in *. unfold querySelector_in in *. rewrite Hd'. rewrite Hd in Hj.
  rewrite first_from_app in Hj |- *.
  destruct (first_from _ (S last) R1) as [i|] eqn:E; [exact Hj|].
  exfalso. rewrite first_from_app in Hj.
  unfold subtree_end in Hlen. rewrite !length_app in Hlen.
  destruct (first_from _ (S last + List.length R1) (descendants j doc)) as [i|] eqn:E2.
  - injection Hj as ->. apply first_from_some in E2. lia.
  - apply first_from_some in Hj. lia.
Qed.

(** X22.  With both buttons asked for, on a page whose newest viewer
    container has a 1:1 control and neither button yet, the [shown]
    listener leaves the bookmark button right after the 1:1 control and
    the download button right after the bookmark button, both siblings of
    the 1:1 control and both on display; two elements have been added and
    nothing was written to the console. *)
Theorem shown_puts_bookmark_before_download c doc last j :
  showDownloadBtn c = true ->
  showBookmarkBtn c = true ->
  last_index (querySelectorAll (by_class "viewer-container") doc) = Some last ->
  querySelector_in last (by_id (ident download_li)) doc = None ->
  querySelector_in last (by_id (ident bookmark_li)) doc = None ->
  querySelector_in last (by_class "viewer-one-to-one") doc = Some j ->
  exists doc' a,
    shown_toolbar c doc = Returned doc' []
    /\ nth_error doc j = Some a
    /\ List.length doc' = S (S (List.length doc))
    /\ nth_error doc' (subtree_end j doc)
       = Some (with_display "block" (at_depth (depth a) bookmark_li))
    /\ nth_error doc' (S (subtree_end j doc))
       = Some (with_display "block" (at_depth (depth a) download_li)).
Proof.
  intros Hdl Hbm Hlast Hid1 Hid2 Hj.
  destruct (addBtn_placement download_li doc last j Hlast Hid1 Hj)
    as (doc1 & a & A1 & Ha & Hlen1 & Hpre1 & Hx1 & Hsuf1 & Hdesc1 & _).
  assert (Hdoc1 : doc1 = insert_afterend j download_li doc).
  { unfold addBtn in A1. rewrite Hlast, Hid1, Hj in A1. congruence. }
  assert (Hlast1 : last_index (querySelectorAll (by_class "viewer-container") doc1)
                   = Some last)
    by (now rewrite (addBtn_keeps_container download_li doc doc1 [] eq_refl A1)).
  assert (Hid2' : querySelector_in last (by_id (ident bookmark_li)) doc1 = None)
    by (rewrite Hdoc1; now apply insertion_keeps_none).
  assert (Hj1 : querySelector_in last (by_class "viewer-one-to-one") doc1 = Some j)
    by (rewrite Hdoc1; now apply insertion_keeps_anchor).
  destruct (addBtn_placement bookmark_li doc1 last j Hlast1 Hid2' Hj1)
    as (doc2 & a' & A2 & Ha' & Hlen2 & Hpre2 & Hx2 & Hsuf2 & _).
  assert (He : subtree_end j doc1 = subtree_end j doc)
    by (unfold subtree_end; now rewrite Hdesc1).
  rewrite He in *.
  assert (Hje : j < subtree_end j doc) by (unfold subtree_end; lia).
  assert (Haa : a' = a).
  { assert (H : nth_error (firstn (subtree_end j doc) doc1) j = Some a')
      by (rewrite nth_error_firstn; destruct (Nat.ltb_spec j (subtree_end j doc)); [exact Ha'|lia]).
    rewrite Hpre1, nth_error_firstn in H.
    destruct (Nat.ltb_spec j (subtree_end j doc)); [congruence|lia]. }
  subst a'.
  assert (Hx2' : nth_error doc2 (S (subtree_end j doc))
                 = Some (at_depth (depth a) download_li)).
  { rewrite <- Hx1.
    rewrite <- (Nat.add_0_r (S (subtree_end j doc))), <- nth_error_skipn, Hsuf2.
    rewrite nth_error_skipn. now rewrite Nat.add_0_r. }
  assert (Hlast2 : last_index (querySelectorAll (by_class "viewer-container") doc2)
                   = Some last)
    by (now rewrite (addBtn_keeps_container bookmark_li doc1 doc2 [] eq_refl A2)).
  assert (Hc : querySelector (by_class "viewer-container") doc2 <> None).
  { intros Q. apply querySelector_none_all in Q. rewrite Q in Hlast2. discriminate. }
  assert (Hshow : forall i d btn, has_class addBtnClass btn = true ->
            without_class "black-background" btn = btn ->
            toggled true doc2 i (at_depth d btn) = with_display "block" (at_depth d btn)).
  { intros i d btn Hc1 Hc2. unfold toggled.
    assert (Hw : without_class "black-background" (at_depth d btn) = at_depth d btn).
    { rewrite <- Hc2 at 2. reflexivity. }
    rewrite Hw.
    assert (Ht : is_target doc2 i (at_depth d btn) = true).
    { unfold is_target. replace (has_class addBtnClass (at_depth d btn)) with true.
      apply orb_true_r. }
    destruct (is_at i _); now rewrite Ht. }
  exists (pointwise (toggled true doc2) 0 doc2), a.
  split; [|split; [exact Ha|split; [|split]]].
  - unfold shown_toolbar, and_then. rewrite Hdl, A1, Hbm, A2.
    rewrite toggleBottomBtns_pointwise.
    destruct (querySelector (by_class "viewer-container") doc2); [reflexivity|congruence].
  - rewrite pointwise_length. lia.
  - rewrite pointwise_nth, Hx2. cbn [option_map]. f_equal. now apply Hshow.
  - rewrite pointwise_nth, Hx2'. cbn [option_map]. f_equal. now apply Hshow.
Qed.

End DomFacts.

(** * The further statements at sample inputs *)

(** The five-page sample work: the first entry and the first request. *)
Lemma first_entry_is_the_preloaded_url_witness :
  let u := original sample_urls in
  nth_error (thumbnail_html sample_convert 5 (thumb sample_urls) u) 0
  = Some (li (sample_convert (thumb sample_urls) 0) u)
  /\ emitted (configureViewer 5 u) (sample_state list_options)
     = [new_Viewer; new_Image u]%list.
Proof.
  intros u.
  destruct (first_entry_is_the_preloaded_url sample_convert 5 (thumb sample_urls) u
              (sample_state list_options)) as [H1 H2]; [lia|].
  split; [exact H1 | exact H2].
Defined.

(** The last page of the sample work on display: the last entry again. *)
Lemma preload_is_a_list_entry_witness :
  let u := original sample_urls in
  In (new_Image "https://i.pximg.net/img-original/img/88179809_p4.png")
     (emitted (dispatch (E_viewed 4)) showing_state)
  /\ nth_error (thumbnail_html sample_convert 5 (thumb sample_urls) u) 4
     = Some (li (sample_convert (thumb sample_urls) 4)
                "https://i.pximg.net/img-original/img/88179809_p4.png").
Proof.
  intros u.
  destruct (preload_is_a_list_entry sample_convert 5 (thumb sample_urls) u 4 showing_state)
    as (_ & Hin & Hnth); [reflexivity | lia |].
  split; [exact Hin | exact Hnth].
Defined.

Lemma fetch_failure_builds_nothing_witness :
  let s1 := exec (createImageList sample_valid (sample_doc true)) (sample_state list_options) in
  createImageList_resume sample_valid sample_convert Rejected (sample_doc true) s1
  = (Throw Rejection, s1)
  /\ myViewer s1 = None
  /\ loading_show s1 = true.
Proof.
  intros s1.
  destruct (fetch_failure_builds_nothing sample_valid sample_convert (sample_doc true)
              (sample_doc true) (sample_state list_options) eq_refl)
    as (Hr & Hv & _ & Hl).
  split; [exact Hr|]. split; [exact Hv | exact Hl].
Defined.

(** A list asked for with nothing else supplied: the insertion selector
    is the default empty one. *)
Lemma unparsable_selector_aborts_mounting_witness :
  mount sample_valid 6 (sample_docs 0) 0 (sample_state bare_list_options)
  = (Throw SyntaxError, sample_state bare_list_options).
Proof.
  apply (unparsable_selector_aborts_mounting sample_valid (sample_docs 0) 5
           (sample_state bare_list_options)); reflexivity.
Defined.

(** The target turns up at the fourth call; ten calls are allowed for. *)
Lemma mounting_requests_once_witness :
  emitted (mount sample_valid 10 (sample_docs 3) 0) (sample_state list_options)
  = (repeat (setTimeout_createImageList 300) 3
     ++ [loading_show_set true; API_getArtworkData "88179809"])%list.
Proof.
  assert (Hd : forall k, (k < 3)%nat ->
               sample_docs 3 k (insertTarget (cfg (sample_state list_options))) = None).
  { intros k Hk. destruct k as [|[|[|k]]]; [reflexivity|reflexivity|reflexivity|lia]. }
  destruct (mounting_requests_once sample_valid (sample_docs 3) 3 "div#root" 6
              (sample_state list_options) eq_refl eq_refl Hd eq_refl) as [_ He].
  exact He.
Defined.

(** A work of no pages under a threshold of zero. *)
Lemma pageless_work_gets_empty_list_witness :
  let s := sample_state (threshold_options 0) in
  let m := createImageList_resume sample_valid sample_convert (Fulfilled (sample_work 0 0))
             (sample_doc true) in
  result m s = Ok Activated
  /\ ul_innerHTML (viewerWarpper (exec m s)) = "".
Proof.
  intros s m.
  assert (Hv : showImageList (cfg s) = true -> sample_valid (insertTarget (cfg s)) = true)
    by (intros H; vm_compute in H; discriminate).
  assert (Ha : gate_accepts (cfg s) (body (sample_work 0 0)))
    by (split; [left; reflexivity | vm_compute; discriminate]).
  assert (Hp : pageCount (body (sample_work 0 0)) <= 0) by (vm_compute; discriminate).
  destruct (pageless_work_gets_empty_list sample_valid sample_convert (sample_work 0 0)
              (sample_doc true) s Hv Ha Hp) as (Hr & _ & Hul).
  split; [exact Hr | exact Hul].
Defined.

Lemma show_changes_only_at_shown_and_hide_witness :
  show (run sample_events showing_state) = true.
Proof.
  assert (Hall : Forall (fun e => e <> E_shown /\ e <> E_hide) sample_events)
    by (repeat constructor; discriminate).
  exact (show_changes_only_at_shown_and_hide sample_events showing_state Hall).
Defined.

Lemma hotkeys_dead_after_hide_witness :
  let s' := run (E_hide :: sample_events) showing_state in
  keydown (key "KeyD" false) s' = (Ok false, s').
Proof.
  assert (Hv : myViewer showing_state <> None) by (vm_compute; discriminate).
  assert (Hall : Forall (fun e => e <> E_shown) sample_events)
    by (repeat constructor; discriminate).
  exact (hotkeys_dead_after_hide sample_events (key "KeyD" false) showing_state Hv Hall).
Defined.

(** B without Alt, the viewer showing. *)
Lemma unbound_keys_are_ignored_witness :
  keydown (key "KeyB" false) showing_state = (Ok false, showing_state).
Proof.
  apply (unbound_keys_are_ignored (key "KeyB" false) showing_state). reflexivity.
Defined.

(** F in the showing sample widget, the window 1080 high once in
    fullscreen. *)
Lemma fullscreen_zoom_waits_for_timer_witness :
  emitted (keydown (key "KeyF" false)) showing_state = [requestFullscreen]
  /\ trace (run [E_keydown (key "KeyF" false); E_fullscreen_granted;
                 E_fullscreenchange true; E_layout_changed 1080 1600; E_zoom_timer]
              showing_state)
     = (trace showing_state
        ++ [requestFullscreen; setTimeout_zoom 150; viewer_zoomTo 1;
            viewer_move 0 (hiddenHeight 1600 1080)])%list.
Proof.
  pose proof (fullscreen_zoom_waits_for_timer (key "KeyF" false) 1080 1600 showing_state
                eq_refl eq_refl eq_refl) as H.
  cbv zeta in H. revert H.
  destruct (Dom.toggleBottomBtns false (page showing_state)) as [doc' out|] eqn:E;
    [|vm_compute in E; discriminate E].
  intros (_ & Hk & _ & Ht). split.
  - unfold emitted, exec. rewrite Hk. cbn [snd trace set_trace set_page].
    apply skipn_own_length.
  - rewrite Ht. reflexivity.
Defined.

Lemma closing_restores_scroll_and_leaves_fullscreen_witness :
  let s' := run [E_hide; E_hidden] showing_state in
  show s' = false /\ window_scroll s' = (0%Q, 120%Q).
Proof.
  intros s'.
  assert (Hv : myViewer showing_state <> None) by (vm_compute; discriminate).
  destruct (closing_restores_scroll_and_leaves_fullscreen showing_state Hv)
    as (Hs & Hw & _).
  split; [exact Hs | exact Hw].
Defined.

(** Alt+B while a crawl is running. *)
Lemma bookmark_ignores_busy_witness :
  states_busy busy_showing_state = true
  /\ emitted (keydown (key "KeyB" true)) busy_showing_state
     = [toast_show msg_bookmark;
        Bookmark_add "88179809" "illusts" (Some (sample_work 1 5))].
Proof.
  destruct (bookmark_ignores_busy (key "KeyB" true) Rejected busy_showing_state
              eq_refl eq_refl eq_refl) as (He & _).
  split; [reflexivity | exact He].
Defined.

Section DomSamples.

Import Dom.
Local Open Scope list_scope.
Local Open Scope nat_scope.

(** Hiding and then showing the toolbar of the sample page. *)
Lemma toggleBottomBtns_last_call_wins_witness :
  toggleBottomBtns true (pointwise (toggled false sample_page) 0 sample_page)
  = toggleBottomBtns true sample_page.
Proof.
  apply (toggleBottomBtns_last_call_wins false true sample_page
           (pointwise (toggled false sample_page) 0 sample_page) []).
  vm_compute. reflexivity.
Defined.

(** The download button on the sample page: it lands at position 10,
    right after the 1:1 control at position 9. *)
Lemma addBtn_places_button_after_anchor_witness :
  exists doc',
    addBtn download_li sample_page = Returned doc' []
    /\ nth_error doc' 10 = Some (at_depth 5 download_li)
    /\ List.length doc' = 15.
Proof.
  destruct (addBtn_places_button_after_anchor download_li sample_page 4 9
              eq_refl eq_refl eq_refl eq_refl)
    as (doc' & a & H1 & Ha & Hlen & _ & Hx & _).
  vm_compute in Ha. injection Ha as <-.
  exists doc'. split; [exact H1|]. split; [exact Hx | exact Hlen].
Defined.

Lemma addBtn_twice_adds_once_witness :
  addBtn download_li (insert_afterend 9 download_li sample_page)
  = Returned (insert_afterend 9 download_li sample_page) [].
Proof.
  apply (addBtn_twice_adds_once download_li sample_page
           (insert_afterend 9 download_li sample_page) []); reflexivity.
Defined.

(** The sample page with both buttons added and the toolbar shown. *)
Lemma shown_again_changes_nothing_witness :
  let c := default_cfg "88179809" in
  let doc2 := insert_afterend 9 bookmark_li (insert_afterend 9 download_li sample_page) in
  let doc3 := pointwise (toggled true doc2) 0 doc2 in
  shown_toolbar c doc3 = Returned doc3 [].
Proof.
  intros c doc2 doc3.
  apply (shown_again_changes_nothing c sample_page doc3 []).
  vm_compute. reflexivity.
Defined.

(** The order of the toolbar of the sample page once shown: 1:1 control,
    bookmark button, download button. *)
Lemma shown_puts_bookmark_before_download_witness :
  exists doc',
    shown_toolbar (default_cfg "88179809") sample_page = Returned doc' []
    /\ nth_error doc' 10 = Some (with_display "block" (at_depth 5 bookmark_li))
    /\ nth_error doc' 11 = Some (with_display "block" (at_depth 5 download_li)).
Proof.
  destruct (shown_puts_bookmark_before_download (default_cfg "88179809") sample_page 4 9
              eq_refl eq_refl eq_refl eq_refl eq_refl eq_refl)
    as (doc' & a & H1 & Ha & _ & Hb & Hd).
  vm_compute in Ha. injection Ha as <-.
  exists doc'. split; [exact H1|]. split; [exact Hb | exact Hd].
Defined.

End DomSamples.
